(** * neural_network_lib: a shallow embedding of the simulation engine

    The development follows the package layout of the Python sources:
    [core/connection.py], [core/neuron.py], [core/config.py],
    [core/network.py], [learning/hebbian.py], [utils/neurogenesis.py] and
    [utils/backprop.py].  Python floats are IEEE 754 binary64 numbers and are
    modelled by Rocq's primitive floats, so that rounding, infinities and NaN
    behave as they do in the interpreter.  Python integers are unbounded and
    are modelled by [Z]; converting one to a float raises [OverflowError]
    beyond the range of floats, as it does in the interpreter.  Dictionaries
    keep their insertion order and are modelled by association lists with
    unique keys.  Calls to [time.time], [random] and [math] go through an
    explicit environment of oracles, and a counter of the calls made so far
    is threaded through every method that uses them. *)

From Stdlib Require Import ZArith List String Ascii Bool Lia Floats DecimalString Permutation.
Import ListNotations.

Set Warnings "-inexact-float".
Set Implicit Arguments.

(** ** Fragments of the Python runtime *)

Module Py.

(** The exceptions the engine can raise. *)
Inductive exn : Type :=
  | ValueError
  | TypeError
  | KeyError
  | IndexError
  | ZeroDivisionError
  | OverflowError
  | AttributeError
  | ModuleNotFoundError.

Inductive result (A : Type) : Type :=
  | Ok (a : A)
  | Raise (e : exn).
Arguments Ok {A} a.
Arguments Raise {A} e.

(** The external functions the engine calls.  [time_time n] is what the
    [n]-th call of [time.time()] returns; [random_random n], [random_below n]
    and [random_sample n] are what the [n]-th use of the generator returns
    for [random()], for a draw below a bound and for [sample]; nothing is
    assumed about them. *)
Record Env : Type := {
    time_time : nat -> float;
    random_random : nat -> float;
    random_sample : nat -> list (nat * nat) -> nat -> list (nat * nat);
    random_below : nat -> nat -> nat;
    math_exp : float -> result float;
    math_cos : float -> float;
    math_sin : float -> float
  }.

(** How many clock readings and random draws have been consumed. *)
Record World : Type := { ticks : nat; draws : nat }.

(** Computations that read the clock or the generator and may raise.  The
    world is returned in both cases: an exception does not undo the clock
    readings made before it. *)
Definition M (A : Type) : Type := World -> result A * World.

Definition ret {A} (a : A) : M A := fun w => (Ok a, w).

Definition bind {A B} (m : M A) (f : A -> M B) : M B :=
  fun w => match m w with
           | (Ok a, w') => f a w'
           | (Raise e, w') => (Raise e, w')
           end.

Definition raise {A} (e : exn) : M A := fun w => (Raise e, w).

(** A computation that uses neither the clock nor the generator. *)
Definition lift {A} (r : result A) : M A := fun w => (r, w).

(** [try: body except Exception: handler] *)
Definition try_except {A} (body : M A) (handler : exn -> M A) : M A :=
  fun w => match body w with
           | (Ok a, w') => (Ok a, w')
           | (Raise e, w') => handler e w'
           end.

(** [time.time()] *)
Definition time (env : Env) : M float :=
  fun w => (Ok (time_time env (ticks w)), {| ticks := S (ticks w); draws := draws w |}).

(** One step of the generator: the index of the draw. *)
Definition draw : M nat :=
  fun w => (Ok (draws w), {| ticks := ticks w; draws := S (draws w) |}).

(** [random.uniform(a, b)] is [a + (b - a) * random()] in CPython. *)
Definition uniform (env : Env) (a b : float) : M float :=
    bind draw (fun n => ret (a + (b - a) * random_random env n)%float).

(** [x[i], x[j] = x[j], x[i]] *)
Definition swap {A} (l : list A) (i j : nat) : list A :=
  match nth_error l i, nth_error l j with
  | Some a, Some b =>
      let l := firstn i l ++ b :: List.skipn (S i) l in
      firstn j l ++ a :: List.skipn (S j) l
  | _, _ => l
  end.

(** [random.shuffle(x)] as CPython does it: for [i] from [len(x) - 1] down
    to [1], swap [x[i]] with [x[j]] for a [j] drawn below [i + 1]. *)
Fixpoint shuffle_from {A} (env : Env) (i : nat) (l : list A) : M (list A) :=
  match i with
  | O => ret l
  | S i' =>
      bind draw (fun n =>
        let j := Nat.modulo (random_below env n (S i)) (S i) in
        shuffle_from env i' (swap l i j))
  end.

Definition shuffle {A} (env : Env) (l : list A) : M (list A) :=
  shuffle_from env (List.length l - 1) l.

(** A [for] loop over a list that threads an accumulator. *)
Fixpoint for_each {A S} (l : list A) (body : S -> A -> M S) (s : S) : M S :=
    match l with
    | [] => ret s
    | x :: l' => bind (body s x) (for_each l' body)
    end.

(** [min(a, b)] and [max(a, b)] return their first argument unless the
      second is strictly smaller (resp. strictly larger). *)
Definition min {A} (lt : A -> A -> bool) (a b : A) : A := if lt b a then b else a.
Definition max {A} (lt : A -> A -> bool) (a b : A) : A := if lt a b then b else a.

(** The double nearest to an integer: round to nearest, ties to even; an
      infinity for integers of magnitude at least [2^1024 - 2^970].  Used as
      it is only for the lengths and counts the sources divide by, which the
      interpreter keeps far below that magnitude, and for comparisons. *)
Definition float_of_Z (z : Z) : float := SF2Prim (binary_normalize prec emax z 0 false).

(** [float(z)] for an integer, and the conversion of the integer operand of
      [float + int] or [int / float]: CPython rounds to nearest, ties to
      even, and raises [OverflowError] ("int too large to convert to float")
      where the rounded value is not finite. *)
Definition to_float (z : Z) : result float :=
    let f := float_of_Z z in
    if PrimFloat.is_infinity f then Raise OverflowError else Ok f.

(** [l[-n:]] *)
Definition last_n {A} (n : nat) (l : list A) : list A := List.skipn (List.length l - n) l.

(** The values found in a state mapping or in a JSON document. *)
Inductive value : Type :=
  | VInt (z : Z)
  | VFloat (f : float)
  | VBool (b : bool)
  | VStr (s : string)
  | VNone.

(** [float(v)] under the guard [isinstance(v, (int, float))]: the guard
      holds for integers, floats and, [bool] being a subclass of [int], for
      booleans; [None] where the guard fails.  Where the guard holds the
      conversion itself can still raise, for an integer beyond the range of
      floats. *)
Definition as_int_or_float (v : value) : option (result float) :=
    match v with
    | VInt z => Some (to_float z)
    | VFloat f => Some (Ok f)
    | VBool b => Some (Ok (if b then 1%float else 0%float))
    | VStr _ | VNone => None
    end.

(** The float a number is compared as.  A comparison converts nothing and
      cannot raise; an integer is placed at the double nearest to it, which
      is the integer itself for the literals the sources compare with (0 and
      100). *)
Definition compared_as (v : value) : option float :=
    match v with
    | VInt z => Some (float_of_Z z)
    | VFloat f => Some f
    | VBool b => Some (if b then 1%float else 0%float)
    | VStr _ | VNone => None
    end.

(** [a < b] on numbers. *)
Definition value_ltb (a b : value) : bool :=
    match a, b with
    | VInt x, VInt y => Z.ltb x y
    | _, _ =>
        match compared_as a, compared_as b with
        | Some x, Some y => PrimFloat.ltb x y
        | _, _ => false
        end
    end.

(** Hashable keys with a decidable equality. *)
Class Key (K : Type) : Type := {
    keyb : K -> K -> bool;
    keyb_eq : forall a b, keyb a b = true <-> a = b
  }.

#[export] Instance string_Key : Key string :=
    {| keyb := String.eqb; keyb_eq := String.eqb_eq |}.

Lemma pair_keyb_eq {A B} `{Key A} `{Key B} (p q : A * B) :
    (keyb (fst p) (fst q) && keyb (snd p) (snd q) = true) <-> p = q.
Proof.
    destruct p as [a b], q as [c d]; simpl.
    rewrite andb_true_iff, !keyb_eq. split.
    - intros [-> ->]; reflexivity.
    - intros E; inversion E; auto.
Qed.

#[export] Instance pair_Key {A B} `{Key A} `{Key B} : Key (A * B) :=
    {| keyb := fun p q => keyb (fst p) (fst q) && keyb (snd p) (snd q);
       keyb_eq := pair_keyb_eq |}.

End Py.

Declare Scope py_scope.
Delimit Scope py_scope with py.
Notation "x <- m ;; k" := (Py.bind m (fun x => k))
  (at level 61, m at next level, right associativity) : py_scope.
Notation "' p <- m ;; k" := (Py.bind m (fun p => k))
  (at level 61, p pattern, m at next level, right associativity) : py_scope.

(** ** Insertion-ordered dictionaries *)

Module Dict.
Import Py.

Definition t (K V : Type) : Type := list (K * V).

Section Ops.
Context {K V : Type} `{Key K}.

(** [d.get(k)] *)
Fixpoint get (d : t K V) (k : K) : option V :=
      match d with
      | [] => None
      | (k', v) :: d' => if keyb k k' then Some v else get d' k
      end.

(** [k in d] *)
Definition mem (d : t K V) (k : K) : bool :=
      match get d k with Some _ => true | None => false end.

(** [d.get(k, default)] *)
Definition get_default (d : t K V) (k : K) (default : V) : V :=
      match get d k with Some v => v | None => default end.

(** [d[k] = v]: an existing key keeps its place, a new one goes last. *)
Fixpoint set (d : t K V) (k : K) (v : V) : t K V :=
      match d with
      | [] => [(k, v)]
      | (k', v') :: d' => if keyb k k' then (k', v) :: d' else (k', v') :: set d' k v
      end.

Definition keys (d : t K V) : list K := map fst d.
Definition values (d : t K V) : list V := map snd d.
Definition items (d : t K V) : list (K * V) := d.
End Ops.

End Dict.

Import Py.
Local Open Scope py_scope.

(** ** core/connection.py *)

Module Connection.

Record t : Type := {
  source : string;
  target : string;
  _weight : float;
  weight_history : list (float * float);
  last_update : float;
  creation_time : float;
  bidirectional : bool
}.

Definition get_weight (self : t) : float := _weight self.

(** [set_weight]: clamp, stamp the time, append to the history and keep its
    last 100 entries.  The clock is read twice. *)
Definition set_weight (env : Env) (weight : float) (self : t) : M (float * t) :=
  let w := Py.max PrimFloat.ltb (-1.0)%float (Py.min PrimFloat.ltb 1.0%float weight) in
  t1 <- time env ;;
  t2 <- time env ;;
  let history := weight_history self ++ [(t2, w)] in
  let history := if (100 <? List.length history)%nat then last_n 100 history else history in
  ret (w, {| source := source self; target := target self; _weight := w;
             weight_history := history; last_update := t1;
             creation_time := creation_time self;
             bidirectional := bidirectional self |}).

(** [Connection(source, target, weight, bidirectional)] *)
Definition init (env : Env) (source target : string) (weight : float)
    (bidirectional : bool) : M t :=
  t1 <- time env ;;
  t2 <- time env ;;
  let self := {| source := source; target := target; _weight := 0%float;
                 weight_history := []; last_update := t1; creation_time := t2;
                 bidirectional := false |} in
  ' (_, self) <- set_weight env weight self ;;
  ret {| source := Connection.source self; target := Connection.target self;
         _weight := _weight self; weight_history := weight_history self;
         last_update := last_update self; creation_time := creation_time self;
         bidirectional := bidirectional |}.

Definition apply_decay (env : Env) (decay_factor : float) (self : t) : M (float * t) :=
  set_weight env (_weight self * (1 - decay_factor))%float self.

Definition is_excitatory (self : t) : bool := PrimFloat.ltb 0%float (_weight self).
Definition is_inhibitory (self : t) : bool := PrimFloat.ltb (_weight self) 0%float.

(** [conn.creation_time = v] *)
Definition set_creation_time (v : float) (self : t) : t :=
  {| source := source self; target := target self; _weight := _weight self;
     weight_history := weight_history self; last_update := last_update self;
     creation_time := v; bidirectional := bidirectional self |}.

End Connection.

(** ** core/neuron.py *)

Module Neuron.

Record t : Type := {
  name : string;
  position : float * float;
  type : string;
  attributes : Dict.t string value;
  activity_history : list float
}.

(** [Neuron(name, position=None, neuron_type="default", attributes=None)]:
    a missing position is the origin, missing attributes are empty. *)
Definition init (name : string) (position : option (float * float))
    (neuron_type : string) (attributes : option (Dict.t string value)) : t :=
  {| name := name;
     position := match position with Some p => p | None => (0%float, 0%float) end;
     type := neuron_type;
     attributes := match attributes with Some a => a | None => [] end;
     activity_history := [] |}.

Definition get_position (self : t) : float * float := position self.

Definition set_position (x y : float) (self : t) : t :=
  {| name := name self; position := (x, y); type := type self;
     attributes := attributes self; activity_history := activity_history self |}.

(** [record_activity]: append, then drop the oldest entry when the history
    is longer than [max_history]. *)
Definition record_activity (value : float) (max_history : nat) (self : t) : t :=
  let history := activity_history self ++ [value] in
  let history := if (max_history <? List.length history)%nat then List.tl history else history in
  {| name := name self; position := position self; type := type self;
     attributes := attributes self; activity_history := history |}.

(** [get_mean_activity]: the mean of the history, the integer 0 when it is
    empty.  [sum] starts from the integer 0. *)
Definition get_mean_activity (self : t) : float :=
  match activity_history self with
  | [] => 0%float
  | _ :: _ =>
      (fold_left PrimFloat.add (activity_history self) 0
       / float_of_Z (Z.of_nat (List.length (activity_history self))))%float
  end.

End Neuron.

(** ** core/config.py *)

Module Config.

Record t : Type := {
  hebbian : Dict.t string float;
  neurogenesis : Dict.t string float;
  combined : Dict.t string float
}.

(** [Config()] *)
Definition init : t :=
  {| hebbian := [("base_learning_rate", 0.1); ("threshold", 0.7);
                 ("weight_decay", 0.01); ("max_weight", 1.0);
                 ("min_weight", -1.0); ("learning_interval", 30000);
                 ("active_threshold", 50)]%float%string;
     neurogenesis := [("novelty_threshold", 3.0); ("stress_threshold", 0.7);
                      ("reward_threshold", 0.6); ("cooldown", 300);
                      ("decay_rate", 0.95);
                      ("new_neuron_connection_strength", 0.3);
                      ("highlight_duration", 5.0)]%float%string;
     combined := [("neurogenesis_learning_boost", 1.5);
                  ("goal_reinforcement_factor", 2.0)]%float%string |}.

End Config.

(** ** The attributes of the learning helpers

    [Network] refers to its two helpers, and they refer back to it.  Their
    attributes are declared here; their methods come after the network's,
    and take the owning network as an argument. *)

Module HebbianLearning.

(** An entry of the event log.  The timestamp is [datetime.now()] read from
    the same clock. *)
Record event : Type := {
  timestamp : float;
  neuron1 : string;
  neuron2 : string;
  value1 : float;
  value2 : float;
  prev_weight_forward : float;
  new_weight_forward : float;
  prev_weight_backward : float;
  new_weight_backward : float;
  event_learning_rate : float
}.

Record t : Type := {
  last_learning_time : float;
  learning_events : list event;
  excluded_neurons : list string;
  learning_rate : float
}.

End HebbianLearning.

Module Neurogenesis.

(** The [neurogenesis_data] dictionary, one field per key. *)
Record t : Type := {
  novelty_counter : float;
  stress_counter : float;
  reward_counter : float;
  new_neurons : list string;
  last_neuron_time : float
}.

End Neurogenesis.

(** ** core/network.py *)

Module Network.

Record t : Type := {
  config : Config.t;
  neurons : Dict.t string Neuron.t;
  connections : Dict.t (string * string) Connection.t;
  state : Dict.t string value;
  creation_time : float;
  last_update_time : float;
  update_count : Z;
  excluded_neurons : list string;
  learning : option HebbianLearning.t;
  neurogenesis : option Neurogenesis.t
}.

Definition set_neurons (v : Dict.t string Neuron.t) (self : t) : t :=
  {| config := config self; neurons := v; connections := connections self;
     state := state self; creation_time := creation_time self;
     last_update_time := last_update_time self; update_count := update_count self;
     excluded_neurons := excluded_neurons self; learning := learning self;
     neurogenesis := neurogenesis self |}.

Definition set_connections (v : Dict.t (string * string) Connection.t) (self : t) : t :=
  {| config := config self; neurons := neurons self; connections := v;
     state := state self; creation_time := creation_time self;
     last_update_time := last_update_time self; update_count := update_count self;
     excluded_neurons := excluded_neurons self; learning := learning self;
     neurogenesis := neurogenesis self |}.

Definition set_state (v : Dict.t string value) (self : t) : t :=
  {| config := config self; neurons := neurons self; connections := connections self;
     state := v; creation_time := creation_time self;
     last_update_time := last_update_time self; update_count := update_count self;
     excluded_neurons := excluded_neurons self; learning := learning self;
     neurogenesis := neurogenesis self |}.

Definition set_learning (v : option HebbianLearning.t) (self : t) : t :=
  {| config := config self; neurons := neurons self; connections := connections self;
     state := state self; creation_time := creation_time self;
     last_update_time := last_update_time self; update_count := update_count self;
     excluded_neurons := excluded_neurons self; learning := v;
     neurogenesis := neurogenesis self |}.

Definition set_neurogenesis (v : option Neurogenesis.t) (self : t) : t :=
  {| config := config self; neurons := neurons self; connections := connections self;
     state := state self; creation_time := creation_time self;
     last_update_time := last_update_time self; update_count := update_count self;
     excluded_neurons := excluded_neurons self; learning := learning self;
     neurogenesis := v |}.

(** [Network(config)]: the clock is read twice. *)
Definition init (env : Env) (config : option Config.t) : M t :=
  t1 <- time env ;;
  t2 <- time env ;;
  ret {| config := match config with Some c => c | None => Config.init end;
         neurons := []; connections := []; state := [];
         creation_time := t1; last_update_time := t2; update_count := 0;
         excluded_neurons := []; learning := None; neurogenesis := None |}.

Definition add_neuron (name : string) (initial_state : value)
    (position : option (float * float)) (neuron_type : string)
    (attributes : option (Dict.t string value)) (self : t) : M (Neuron.t * t) :=
  if Dict.mem (neurons self) name then raise ValueError
  else
    let neuron := Neuron.init name position neuron_type attributes in
    let self := set_neurons (Dict.set (neurons self) name neuron) self in
    let self := set_state (Dict.set (state self) name initial_state) self in
    ret (neuron, self).

Definition connect (env : Env) (source target : string) (weight : float)
    (bidirectional : bool) (self : t) : M (Connection.t * t) :=
  if negb (Dict.mem (neurons self) source) then raise ValueError
  else if negb (Dict.mem (neurons self) target) then raise ValueError
  else
    connection <- Connection.init env source target weight bidirectional ;;
    let self := set_connections (Dict.set (connections self) (source, target) connection) self in
    if bidirectional && negb (Dict.mem (connections self) (target, source)) then
      reverse <- Connection.init env target source weight true ;;
      ret (connection,
           set_connections (Dict.set (connections self) (target, source) reverse) self)
    else ret (connection, self).

(** [get_neuron_value]: the chain of [isinstance] tests, in the order of the
    source.  The first test, [isinstance(value, (int, float))], also holds
    for booleans; [float(value)] raises [OverflowError] for an integer
    beyond the range of floats. *)
Definition get_neuron_value (self : t) (neuron_name : string) : result float :=
  let value := Dict.get_default (state self) neuron_name (VInt 0) in
  match as_int_or_float value with
  | Some converted => converted
  | None =>
      match value with
      | VBool b => Ok (if b then 100.0%float else 0.0%float)
      | VStr _ => Ok 75.0%float
      | _ => Ok 0.0%float
      end
  end.

Definition update_state (env : Env) (new_state : Dict.t string value) (self : t)
    : M (Dict.t string value * t) :=
  let body (self : t) (item : string * value) : M t :=
    let (name, value) := item in
    if Dict.mem (state self) name then
      let self := set_state (Dict.set (state self) name value) self in
      match Dict.get (neurons self) name with
      | Some neuron =>
          numeric <- lift (get_neuron_value self name) ;;
          let neuron := Neuron.record_activity numeric 10 neuron in
          ret (set_neurons (Dict.set (neurons self) name neuron) self)
      | None => ret self
      end
    else ret self in
  self <- for_each (Dict.items new_state) body self ;;
  now <- time env ;;
  let self :=
    {| config := config self; neurons := neurons self; connections := connections self;
       state := state self; creation_time := creation_time self;
       last_update_time := now; update_count := update_count self + 1;
       excluded_neurons := excluded_neurons self; learning := learning self;
       neurogenesis := neurogenesis self |} in
  ret (state self, self).

(** The inner loop of [propagate_activation]: the weighted inputs of
    [target] and their number, over the sources in the order of
    [self.neurons]. *)
Definition incoming_of (self : t) (target : string) : M (float * nat) :=
  for_each (Dict.keys (neurons self))
    (fun (acc : float * nat) (source : string) =>
       let (incoming, count) := acc in
       match Dict.get (connections self) (source, target) with
       | Some connection =>
           numeric <- lift (get_neuron_value self source) ;;
           ret ((incoming + numeric * Connection.get_weight connection)%float, S count)
       | None => ret acc
       end)
    (0%float, 0%nat).

(** The value written for a target that has connections:
    [max(0, min(100, current * 0.7 + normalized * 0.3))].  The count divides
    as a float; it is at most the number of neurons. *)
Definition blended (self : t) (target : string) (incoming : float) (count : nat)
    : M value :=
  let normalized := (incoming / float_of_Z (Z.of_nat count))%float in
  current <- lift (get_neuron_value self target) ;;
  let v := (current * 0.7 + normalized * 0.3)%float in
  ret (Py.max value_ltb (VInt 0) (Py.min value_ltb (VInt 100) (VFloat v))).

(** The body of the loop over targets: reads [self], writes [new_state]. *)
Definition propagate_target (self : t) (new_state : Dict.t string value)
    (target : string) : M (Dict.t string value) :=
  ' (incoming, count) <- incoming_of self target ;;
  if (0 <? count)%nat
  then
    v <- blended self target incoming count ;;
    ret (Dict.set new_state target v)
  else ret new_state.

(** One pass of the loop [for _ in range(steps)]. *)
Definition propagate_step (self : t) : M t :=
  let new_state := state self in
  new_state <- for_each (Dict.keys (neurons self)) (propagate_target self) new_state ;;
  ret (set_state new_state self).

Fixpoint propagate_steps (steps : nat) (self : t) : M t :=
  match steps with
  | O => ret self
  | S n => self <- propagate_step self ;; propagate_steps n self
  end.

Definition propagate_activation (steps : nat) (self : t)
    : M (Dict.t string value * t) :=
  self <- propagate_steps steps self ;;
  ret (state self, self).

Definition get_connection_strength (self : t) (source target : string) : float :=
  match Dict.get (connections self) (source, target) with
  | Some c => Connection.get_weight c
  | None => 0%float
  end.

(** [apply_weight_decay]: decay every connection, count those whose weight
    moved by more than 0.0001. *)
Definition apply_weight_decay (env : Env) (self : t) : M (Z * t) :=
  let decay_factor := Dict.get_default (Config.hebbian (config self)) "weight_decay"%string 0.01%float in
  ' (count, conns) <-
    for_each (Dict.keys (connections self))
      (fun (acc : Z * Dict.t (string * string) Connection.t) key =>
         let (count, conns) := acc in
         match Dict.get conns key with
         | Some connection =>
             let old_weight := Connection.get_weight connection in
             ' (new_weight, connection) <- Connection.apply_decay env decay_factor connection ;;
             let conns := Dict.set conns key connection in
             if PrimFloat.ltb 0.0001%float (PrimFloat.abs (new_weight - old_weight)%float)
             then ret ((count + 1)%Z, conns) else ret (count, conns)
         | None => ret acc
         end)
      (0%Z, connections self) ;;
  ret (count, set_connections conns self).

(** One insertion of a stable sort by decreasing key. *)
Fixpoint insert_desc {A} (key : A -> float) (x : A) (l : list A) : list A :=
  match l with
  | [] => [x]
  | y :: l' => if PrimFloat.ltb (key y) (key x) then x :: l else y :: insert_desc key x l'
  end.

(** [sorted(l, key=key, reverse=True)]: stable; CPython's sort agrees with
    this one whenever no key is NaN. *)
Definition sorted_desc {A} (key : A -> float) (l : list A) : list A :=
  fold_left (fun acc x => insert_desc key x acc) l [].

(** [get_strongest_connections(count)] for a count that is not negative. *)
Definition get_strongest_connections (count : nat) (self : t)
    : list (string * string * float) :=
  firstn count
    (sorted_desc (fun x : string * string * float => PrimFloat.abs (snd x))
       (map (fun item : (string * string) * Connection.t =>
               (fst (fst item), snd (fst item), Connection.get_weight (snd item)))
          (Dict.items (connections self)))).

End Network.

(** ** learning/hebbian.py

    The methods of class [HebbianLearning].  [self.network] is the [network]
    argument and [self.config] is its configuration. *)

Module Hebbian.
Import HebbianLearning.

(** [HebbianLearning(network)] *)
Definition init (env : Env) (network : Network.t) : M HebbianLearning.t :=
  now <- time env ;;
  ret {| last_learning_time := now;
         learning_events := [];
         excluded_neurons := [];
         learning_rate :=
           Dict.get_default (Config.hebbian (Network.config network))
             "base_learning_rate"%string 0.1%float |}.

Definition set_last_learning_time (v : float) (self : t) : t :=
  {| last_learning_time := v; learning_events := learning_events self;
     excluded_neurons := excluded_neurons self; learning_rate := learning_rate self |}.

Definition set_learning_events (v : list event) (self : t) : t :=
  {| last_learning_time := last_learning_time self; learning_events := v;
     excluded_neurons := excluded_neurons self; learning_rate := learning_rate self |}.

Definition modify_learning_rate (factor : float) (network : Network.t) (self : t)
    : float * t :=
  let base_rate :=
    Dict.get_default (Config.hebbian (Network.config network))
      "base_learning_rate"%string 0.1%float in
  let rate := (base_rate * factor)%float in
  (rate,
   {| last_learning_time := last_learning_time self;
      learning_events := learning_events self;
      excluded_neurons := excluded_neurons self; learning_rate := rate |}).

(** [self.network.connections[key]] *)
Definition lookup_connection (network : Network.t) (key : string * string)
    : M Connection.t :=
  match Dict.get (Network.connections network) key with
  | Some c => ret c
  | None => raise KeyError
  end.

(** [_update_connection]: both directions receive the same increment.  The
    two connection objects are mutated in place, so each is read back from
    the table when it is written. *)
Definition _update_connection (env : Env) (neuron1 neuron2 : string)
    (value1 value2 : float) (self : t) (network : Network.t) : M (t * Network.t) :=
  let key_forward := (neuron1, neuron2) in
  let key_backward := (neuron2, neuron1) in
  network <-
    (if negb (Dict.mem (Network.connections network) key_forward)
     then ' (_, n) <- Network.connect env neuron1 neuron2 0.0%float false network ;; ret n
     else ret network) ;;
  network <-
    (if negb (Dict.mem (Network.connections network) key_backward)
     then ' (_, n) <- Network.connect env neuron2 neuron1 0.0%float false network ;; ret n
     else ret network) ;;
  forward_conn <- lookup_connection network key_forward ;;
  backward_conn <- lookup_connection network key_backward ;;
  let prev_weight_forward := Connection.get_weight forward_conn in
  let prev_weight_backward := Connection.get_weight backward_conn in
  let norm1 := (value1 / 100.0)%float in
  let norm2 := (value2 / 100.0)%float in
  let learning_rate := learning_rate self in
  let weight_change := (learning_rate * norm1 * norm2)%float in
  ' (_, forward_conn) <-
    Connection.set_weight env (prev_weight_forward + weight_change)%float forward_conn ;;
  let network :=
    Network.set_connections
      (Dict.set (Network.connections network) key_forward forward_conn) network in
  backward_conn <- lookup_connection network key_backward ;;
  ' (_, backward_conn) <-
    Connection.set_weight env (prev_weight_backward + weight_change)%float backward_conn ;;
  let network :=
    Network.set_connections
      (Dict.set (Network.connections network) key_backward backward_conn) network in
  forward_conn <- lookup_connection network key_forward ;;
  now <- time env ;;
  let event :=
    {| timestamp := now; neuron1 := neuron1; neuron2 := neuron2;
       value1 := value1; value2 := value2;
       prev_weight_forward := prev_weight_forward;
       new_weight_forward := Connection.get_weight forward_conn;
       prev_weight_backward := prev_weight_backward;
       new_weight_backward := Connection.get_weight backward_conn;
       event_learning_rate := learning_rate |} in
  let events := learning_events self ++ [event] in
  let events := if (100 <? List.length events)%nat then last_n 100 events else events in
  ret (set_learning_events events self, network).

(** [[(i, j) for i in range(n) for j in range(i+1, n)]] *)
Definition index_pairs (n : nat) : list (nat * nat) :=
  flat_map (fun i => map (fun j => (i, j)) (seq (S i) (n - S i))) (seq 0 n).

(** [active_neurons[i]] *)
Definition index {A} (l : list A) (i : nat) : M A :=
  match nth_error l i with
  | Some x => ret x
  | None => raise IndexError
  end.

Definition perform_hebbian_learning (env : Env) (self : t) (network : Network.t)
    : M (list (string * string) * t * Network.t) :=
  current_time <- time env ;;
  let min_interval := 5%float in
  if PrimFloat.ltb (current_time - last_learning_time self)%float min_interval
  then ret ([], self, network)
  else
    let self := set_last_learning_time current_time self in
    let threshold :=
      Dict.get_default (Config.hebbian (Network.config network))
        "active_threshold"%string 50%float in
    active_neurons <-
      for_each (Dict.items (Network.state network))
        (fun (active_neurons : list string) (item : string * value) =>
           let name := fst item in
           if existsb (String.eqb name) (excluded_neurons self) then ret active_neurons
           else
             numeric_value <- lift (Network.get_neuron_value network name) ;;
             if PrimFloat.ltb threshold numeric_value
             then ret (active_neurons ++ [name])
             else ret active_neurons)
        [] ;;
    let n := List.length active_neurons in
    if (n <? 2)%nat then ret ([], self, network)
    else
      let sample_size := Nat.min 2 (n * (n - 1) / 2) in
      let neuron_pairs := index_pairs n in
      sampled_pairs <-
        (if (sample_size <? List.length neuron_pairs)%nat
         then k <- draw ;; ret (random_sample env k neuron_pairs sample_size)
         else ret neuron_pairs) ;;
      for_each sampled_pairs
        (fun (acc : list (string * string) * t * Network.t) (pair : nat * nat) =>
           let '(updated_pairs, self, network) := acc in
           let (i, j) := pair in
           neuron1 <- index active_neurons i ;;
           neuron2 <- index active_neurons j ;;
           value1 <- lift (Network.get_neuron_value network neuron1) ;;
           value2 <- lift (Network.get_neuron_value network neuron2) ;;
           if PrimFloat.ltb threshold value1 && PrimFloat.ltb threshold value2
           then
             ' (self, network) <-
               _update_connection env neuron1 neuron2 value1 value2 self network ;;
             ret (updated_pairs ++ [(neuron1, neuron2)], self, network)
           else ret acc)
        ([], self, network).

(** [l[start:]] for any integer [start]: a negative one counts from the
    end. *)
Definition slice_from {A} (start : Z) (l : list A) : list A :=
  let len := Z.of_nat (List.length l) in
  let start := if (start <? 0)%Z then Z.max (len + start) 0 else Z.min start len in
  List.skipn (Z.to_nat start) l.

(** [get_recent_learning_events(count)]: [self.learning_events[-count:]] *)
Definition get_recent_learning_events (count : Z) (self : t) : list event :=
  slice_from (- count)%Z (learning_events self).

(** [reset_learning_history] *)
Definition reset_learning_history (self : t) : t := set_learning_events [] self.

End Hebbian.

(** ** utils/neurogenesis.py

    The methods of class [Neurogenesis], with the owning network as an
    argument. *)

Module Genesis.
Import Neurogenesis.

(** [Neurogenesis(network)] *)
Definition init (env : Env) (network : Network.t) : M Neurogenesis.t :=
  now <- time env ;;
  ret {| novelty_counter := 0; stress_counter := 0; reward_counter := 0;
         new_neurons := []; last_neuron_time := now |}.

Definition math_pi : float := 3.141592653589793%float.

(** One insertion of a stable sort by decreasing value. *)
Fixpoint insert_desc (x : string * float) (l : list (string * float))
    : list (string * float) :=
  match l with
  | [] => [x]
  | y :: l' => if PrimFloat.ltb (snd y) (snd x) then x :: l else y :: insert_desc x l'
  end.

(** [sorted(l, key=lambda x: x[1], reverse=True)]: stable, so entries of
    equal value keep their order.  CPython's sort agrees with this one
    whenever no value is NaN. *)
Definition sorted_desc (l : list (string * float)) : list (string * float) :=
  fold_left (fun acc x => insert_desc x acc) l [].

Definition _find_position_for_new_neuron (env : Env) (neuron_type : string)
    (network : Network.t) : M (float * float) :=
  valued <-
    for_each (Dict.keys (Network.neurons network))
      (fun (valued : list (string * float)) (name : string) =>
         numeric <- lift (Network.get_neuron_value network name) ;;
         ret (valued ++ [(name, numeric)]))
      [] ;;
  let active_neurons := firstn 3 (sorted_desc valued) in
  match active_neurons with
  | (anchor_name, _) :: _ =>
      match Dict.get (Network.neurons network) anchor_name with
      | None => raise KeyError
      | Some anchor =>
          let (base_x, base_y) := Neuron.get_position anchor in
          angle <- uniform env 0 (2 * math_pi)%float ;;
          distance <- uniform env 50 100 ;;
          let angle :=
            if String.eqb neuron_type "novelty" then (angle + math_pi / 6)%float
            else if String.eqb neuron_type "stress" then (angle + math_pi / 2)%float
            else if String.eqb neuron_type "reward" then (angle + math_pi)%float
            else angle in
          let x := (base_x + math_cos env angle * distance)%float in
          let y := (base_y + math_sin env angle * distance)%float in
          ret (x, y)
      end
  | [] =>
      x <- uniform env 100 900 ;;
      y <- uniform env 100 500 ;;
      ret (x, y)
  end.

Definition _create_connections_for_new_neuron (env : Env) (new_name neuron_type : string)
    (network : Network.t) : M Network.t :=
  let conn_strength :=
    Dict.get_default (Config.neurogenesis (Network.config network))
      "new_neuron_connection_strength"%string 0.3%float in
  let related_neurons : list string :=
    if String.eqb neuron_type "novelty" then ["curiosity"%string]
    else if String.eqb neuron_type "stress" then ["anxiety"%string]
    else if String.eqb neuron_type "reward" then ["satisfaction"%string; "happiness"%string]
    else [] in
  for_each (Dict.keys (Network.neurons network))
    (fun (network : Network.t) (existing_name : string) =>
       if negb (String.eqb existing_name new_name)
          && negb (existsb (String.eqb existing_name) (Network.excluded_neurons network))
       then
         weight <-
           (if existsb (String.eqb existing_name) related_neurons
            then ret (conn_strength * 2.0)%float
            else uniform env (- conn_strength)%float conn_strength) ;;
         ' (_, network) <- Network.connect env new_name existing_name weight true network ;;
         ret network
       else ret network)
    network.

(** [_create_neuron]: the name is the base of the trigger type followed by
    the number of neurons created so far. *)
Definition _create_neuron (env : Env) (neuron_type : string) (self : t)
    (network : Network.t) : M (string * t * Network.t) :=
  let base_name :=
    if String.eqb neuron_type "novelty" then "novel"%string
    else if String.eqb neuron_type "stress" then "stress"%string
    else if String.eqb neuron_type "reward" then "reward"%string
    else "new"%string in
  let new_name :=
    (base_name ++ "_"
       ++ NilEmpty.string_of_uint (Nat.to_uint (List.length (new_neurons self))))%string in
  position <- _find_position_for_new_neuron env neuron_type network ;;
  ' (_, network) <-
    Network.add_neuron new_name (VInt 50) (Some position) neuron_type None network ;;
  network <- _create_connections_for_new_neuron env new_name neuron_type network ;;
  let self :=
    {| novelty_counter := novelty_counter self; stress_counter := stress_counter self;
       reward_counter := reward_counter self;
       new_neurons := new_neurons self ++ [new_name];
       last_neuron_time := last_neuron_time self |} in
  ret (new_name, self, network).

(** [counter += state.get(key, 0)]: a float plus whatever the caller put
    in [state]; adding a string or [None] raises [TypeError], adding an
    integer beyond the range of floats raises [OverflowError]. *)
Definition add_signal (counter : float) (state : Dict.t string value) (key : string)
    : M float :=
  match as_int_or_float (Dict.get_default state key (VInt 0)) with
  | Some converted =>
      signal <- lift converted ;;
      ret (counter + signal)%float
  | None => raise TypeError
  end.

(** A non-empty string is true. *)
Definition truthy (s : string) : bool := negb (String.eqb s "").

Definition check_neurogenesis (env : Env) (state : Dict.t string value) (self : t)
    (network : Network.t) : M (bool * t * Network.t) :=
  let cfg := Config.neurogenesis (Network.config network) in
  current_time <- time env ;;
  let decay := Dict.get_default cfg "decay_rate"%string 0.95%float in
  let novelty := (novelty_counter self * decay)%float in
  let stress := (stress_counter self * decay)%float in
  let reward := (reward_counter self * decay)%float in
  novelty <- add_signal novelty state "novelty_exposure" ;;
  stress <- add_signal stress state "sustained_stress" ;;
  reward <- add_signal reward state "recent_rewards" ;;
  let cooldown := Dict.get_default cfg "cooldown"%string 300%float in
  if PrimFloat.leb (current_time - last_neuron_time self)%float cooldown
  then
    ret (false,
         {| novelty_counter := novelty; stress_counter := stress;
            reward_counter := reward; new_neurons := new_neurons self;
            last_neuron_time := last_neuron_time self |},
         network)
  else
    let novelty_threshold := Dict.get_default cfg "novelty_threshold"%string 3.0%float in
    let stress_threshold := Dict.get_default cfg "stress_threshold"%string 0.7%float in
    let reward_threshold := Dict.get_default cfg "reward_threshold"%string 0.6%float in
    let fire_novelty := PrimFloat.ltb novelty_threshold novelty in
    let fire_stress := PrimFloat.ltb stress_threshold stress in
    let fire_reward := PrimFloat.ltb reward_threshold reward in
    let trigger_types :=
      ((if fire_novelty then ["novelty"%string] else [])
         ++ (if fire_stress then ["stress"%string] else [])
         ++ (if fire_reward then ["reward"%string] else []))%list in
    let self :=
      {| novelty_counter := if fire_novelty then 0%float else novelty;
         stress_counter := if fire_stress then 0%float else stress;
         reward_counter := if fire_reward then 0%float else reward;
         new_neurons := new_neurons self;
         last_neuron_time := last_neuron_time self |} in
    ' (created, self, network) <-
      for_each trigger_types
        (fun (acc : bool * t * Network.t) (trigger_type : string) =>
           let '(created, self, network) := acc in
           ' (new_neuron_name, self, network) <-
             _create_neuron env trigger_type self network ;;
           ret (if truthy new_neuron_name then true else created, self, network))
        (false, self, network) ;;
    if created then
      let self :=
        {| novelty_counter := novelty_counter self; stress_counter := stress_counter self;
           reward_counter := reward_counter self; new_neurons := new_neurons self;
           last_neuron_time := current_time |} in
      let network :=
        match Network.learning network with
        | Some learning =>
            let boost :=
              Dict.get_default (Config.combined (Network.config network))
                "neurogenesis_learning_boost"%string 1.5%float in
            Network.set_learning
              (Some (snd (Hebbian.modify_learning_rate boost network learning))) network
        | None => network
        end in
      ret (created, self, network)
    else ret (created, self, network).

(** [reset_counters] *)
Definition reset_counters (self : t) : t :=
  {| novelty_counter := 0; stress_counter := 0; reward_counter := 0;
     new_neurons := new_neurons self; last_neuron_time := last_neuron_time self |}.

End Genesis.

(** ** core/network.py, continued: the methods that use the helpers *)

Module NetworkLearning.

(** The modules of the package [learning]: it holds [hebbian.py] and
    nothing else; the classes [Neurogenesis] and [BackpropNetwork] live in
    [utils/]. *)
Definition learning_package : list string := ["hebbian"%string].

(** What [learning/__init__.py] imports, in order. *)
Definition learning_init : list string :=
  ["hebbian"%string; "neurogenesis"%string; "backprop"%string].

(** [import package.module]: a module the package does not hold raises. *)
Definition import_module (package : list string) (module : string) : M unit :=
  if existsb (String.eqb module) package then ret tt else raise ModuleNotFoundError.

(** [from ..learning.module import ...]: the package is imported first,
    which runs [learning/__init__.py]; a package whose initialisation
    raised is initialised again by the next import. *)
Definition from_learning_import (module : string) : M unit :=
  _ <- for_each learning_init (fun (_ : unit) m => import_module learning_package m) tt ;;
  import_module learning_package module.

(** [initialize_learning]: the two imports, then the two helpers. *)
Definition initialize_learning (env : Env) (self : Network.t) : M Network.t :=
  _ <- from_learning_import "hebbian" ;;
  _ <- from_learning_import "neurogenesis" ;;
  learning <- Hebbian.init env self ;;
  let self := Network.set_learning (Some learning) self in
  neurogenesis <- Genesis.init env self ;;
  ret (Network.set_neurogenesis (Some neurogenesis) self).

(** [perform_learning]: the helper is built on first use. *)
Definition perform_learning (env : Env) (self : Network.t)
    : M (list (string * string) * Network.t) :=
  self <-
    (match Network.learning self with
     | None => initialize_learning env self
     | Some _ => ret self
     end) ;;
  match Network.learning self with
  | None => raise AttributeError
  | Some learning =>
      ' (pairs, learning, self) <- Hebbian.perform_hebbian_learning env learning self ;;
      ret (pairs, Network.set_learning (Some learning) self)
  end.

(** [check_neurogenesis] *)
Definition check_neurogenesis (env : Env) (state : Dict.t string value)
    (self : Network.t) : M (bool * Network.t) :=
  self <-
    (match Network.neurogenesis self with
     | None => initialize_learning env self
     | Some _ => ret self
     end) ;;
  match Network.neurogenesis self with
  | None => raise AttributeError
  | Some neurogenesis =>
      ' (created, neurogenesis, self) <-
        Genesis.check_neurogenesis env state neurogenesis self ;;
      ret (created, Network.set_neurogenesis (Some neurogenesis) self)
  end.

End NetworkLearning.

(** ** core/network.py, continued: [save] and [load]

    [save] builds a JSON document and writes it to a file, [load] reads the
    document back and replays [add_neuron] and [connect].  The document is
    modelled as structured data; what [json.dump] followed by [json.load]
    does to it (tuples become lists) does not show at this level.  A key
    that [load] reads with [.get] is optional in the document. *)

Module Snapshot.

Record neuron_data : Type := {
  nd_position : option (float * float);
  nd_type : option string;
  nd_attributes : option (Dict.t string value)
}.

Record connection_data : Type := {
  cd_weight : option float;
  cd_creation_time : option float
}.

Record config_data : Type := {
  cf_hebbian : option (Dict.t string float);
  cf_neurogenesis : option (Dict.t string float)
}.

Record metadata : Type := {
  md_creation_time : option float;
  md_last_update : option float;
  md_update_count : option Z
}.

Record document : Type := {
  doc_neurons : option (Dict.t string neuron_data);
  doc_connections : option (Dict.t string connection_data);
  doc_state : option (Dict.t string value);
  doc_config : option config_data;
  doc_metadata : option metadata
}.

(** [{k(x): v(x) for x in items}]: a later entry with the same key replaces
    the value of the earlier one. *)
Definition dict_of {A K V} `{Key K} (key : A -> K) (val : A -> V) (items : list A)
    : Dict.t K V :=
  fold_left (fun d x => Dict.set d (key x) (val x)) items [].

(** [f"{src}_{tgt}"] *)
Definition connection_key (k : string * string) : string :=
  (fst k ++ "_" ++ snd k)%string.

(** The [data] dictionary of [save]. *)
Definition save (self : Network.t) : document :=
  {| doc_neurons :=
       Some (dict_of fst
               (fun item : string * Neuron.t =>
                  {| nd_position := Some (Neuron.get_position (snd item));
                     nd_type := Some (Neuron.type (snd item));
                     nd_attributes := Some (Neuron.attributes (snd item)) |})
               (Dict.items (Network.neurons self)));
     doc_connections :=
       Some (dict_of (fun item : (string * string) * Connection.t => connection_key (fst item))
               (fun item : (string * string) * Connection.t =>
                  {| cd_weight := Some (Connection.get_weight (snd item));
                     cd_creation_time := Some (Connection.creation_time (snd item)) |})
               (Dict.items (Network.connections self)));
     doc_state := Some (Network.state self);
     doc_config :=
       Some {| cf_hebbian := Some (Config.hebbian (Network.config self));
               cf_neurogenesis := Some (Config.neurogenesis (Network.config self)) |};
     doc_metadata :=
       Some {| md_creation_time := Some (Network.creation_time self);
               md_last_update := Some (Network.last_update_time self);
               md_update_count := Some (Network.update_count self) |} |}.

(** [s.split(sep)] for a one-character separator: the pieces between the
    occurrences of [sep], one more than there are occurrences. *)
Fixpoint split (sep : ascii) (s : string) : list string :=
  match s with
  | EmptyString => [EmptyString]
  | String c s' =>
      if Ascii.eqb c sep then EmptyString :: split sep s'
      else match split sep s' with
           | piece :: pieces => String c piece :: pieces
           | [] => [String c EmptyString]
           end
  end.

(** [src, tgt = key.split("_")]: unpacking anything but two pieces raises. *)
Definition split_key (key : string) : M (string * string) :=
  match split "_"%char key with
  | [src; tgt] => ret (src, tgt)
  | _ => raise ValueError
  end.

Definition opt {A} (o : option A) (default : A) : A :=
  match o with Some a => a | None => default end.

Definition and_then {A B} (o : option A) (f : A -> option B) : option B :=
  match o with Some a => f a | None => None end.

(** The body of the [try] block of [load]. *)
Definition load_body (env : Env) (data : document) : M Network.t :=
  let config := Config.init in
  let config :=
    {| Config.hebbian :=
         opt (and_then (doc_config data) cf_hebbian) (Config.hebbian config);
       Config.neurogenesis := Config.neurogenesis config;
       Config.combined := Config.combined config |} in
  let config :=
    {| Config.hebbian := Config.hebbian config;
       Config.neurogenesis :=
         opt (and_then (doc_config data) cf_neurogenesis) (Config.neurogenesis config);
       Config.combined := Config.combined config |} in
  network <- Network.init env (Some config) ;;
  now1 <- time env ;;
  now2 <- time env ;;
  let network :=
    {| Network.config := Network.config network;
       Network.neurons := Network.neurons network;
       Network.connections := Network.connections network;
       Network.state := Network.state network;
       Network.creation_time := opt (and_then (doc_metadata data) md_creation_time) now1;
       Network.last_update_time := opt (and_then (doc_metadata data) md_last_update) now2;
       Network.update_count := opt (and_then (doc_metadata data) md_update_count) 0%Z;
       Network.excluded_neurons := Network.excluded_neurons network;
       Network.learning := Network.learning network;
       Network.neurogenesis := Network.neurogenesis network |} in
  network <-
    for_each (Dict.items (opt (doc_neurons data) []))
      (fun (network : Network.t) (item : string * neuron_data) =>
         let (name, neuron_data) := item in
         ' (_, network) <-
           Network.add_neuron name (VInt 0) (nd_position neuron_data)
             (opt (nd_type neuron_data) "default"%string)
             (Some (opt (nd_attributes neuron_data) [])) network ;;
         ret network)
      network ;;
  network <-
    for_each (Dict.items (opt (doc_connections data) []))
      (fun (network : Network.t) (item : string * connection_data) =>
         let (key, conn_data) := item in
         ' (src, tgt) <- split_key key ;;
         ' (_, network) <-
           Network.connect env src tgt (opt (cd_weight conn_data) 0%float) false network ;;
         match Dict.get (Network.connections network) (src, tgt) with
         | Some c =>
             now <- time env ;;
             let c := Connection.set_creation_time (opt (cd_creation_time conn_data) now) c in
             ret (Network.set_connections
                    (Dict.set (Network.connections network) (src, tgt) c) network)
         | None => ret network
         end)
      network ;;
  ret (Network.set_state (opt (doc_state data) []) network).

(** [Network.load]: any exception yields [None]. *)
Definition load (env : Env) (data : document) : M (option Network.t) :=
  try_except (network <- load_body env data ;; ret (Some network))
    (fun _ => ret None).

End Snapshot.

(** ** utils/backprop.py *)

Module BackpropNetwork.

(** [sigmoid]: [math.exp] raises [OverflowError] on large arguments, which
    the function catches. *)
Definition sigmoid (env : Env) (x : float) : M float :=
  if PrimFloat.ltb x (-700)%float then ret 0%float
  else
    match math_exp env (- x)%float with
    | Ok e => ret (1.0 / (1.0 + e))%float
    | Raise OverflowError => ret (if PrimFloat.ltb x 0%float then 0%float else 1%float)
    | Raise e => raise e
    end.

Record t : Type := {
  network : Network.t;
  learning_rate : float;
  momentum : float;
  layers : list (list string);
  prev_weight_changes : Dict.t (string * string) float
}.

Definition init (network : Network.t) : t :=
  {| network := network; learning_rate := 0.1%float; momentum := 0.9%float;
     layers := []; prev_weight_changes := [] |}.

Definition set_layers (layers : list (list string)) (self : t) : t :=
  {| network := network self; learning_rate := learning_rate self;
     momentum := momentum self; layers := layers; prev_weight_changes := [] |}.

Definition set_network (v : Network.t) (self : t) : t :=
  {| network := v; learning_rate := learning_rate self; momentum := momentum self;
     layers := layers self; prev_weight_changes := prev_weight_changes self |}.

(** [self.network.state[name]] *)
Definition state_at (network : Network.t) (name : string) : M value :=
  match Dict.get (Network.state network) name with
  | Some v => ret v
  | None => raise KeyError
  end.

(** [self.network.state[name] / 100.0]: the division converts an integer
    as [float(value)] does. *)
Definition normalized_state (network : Network.t) (name : string) : M float :=
  v <- state_at network name ;;
  match as_int_or_float v with
  | Some converted =>
      f <- lift converted ;;
      ret (f / 100.0)%float
  | None => raise TypeError
  end.

(** [deltas[name]] *)
Definition delta_at (deltas : Dict.t string float) (name : string) : M float :=
  match Dict.get deltas name with
  | Some d => ret d
  | None => raise KeyError
  end.

(** The pairs of adjacent layers, [(layers[i], layers[i+1])], in order. *)
Fixpoint consecutive (layers : list (list string)) : list (list string * list string) :=
  match layers with
  | prev :: ((cur :: _) as rest) => (prev, cur) :: consecutive rest
  | _ => []
  end.

Definition forward_pass (env : Env) (inputs : list float) (self : t)
    : M (list value * t) :=
  match layers self with
  | [] => raise ValueError
  | input_layer :: _ =>
      let net := network self in
      let net :=
        fold_left
          (fun (net : Network.t) (item : string * float) =>
             Network.set_state
               (Dict.set (Network.state net) (fst item) (VFloat (snd item))) net)
          (combine input_layer inputs) net in
      net <-
        for_each (consecutive (layers self))
          (fun (net : Network.t) (pair : list string * list string) =>
             let (prev_layer, current_layer) := pair in
             for_each current_layer
               (fun (net : Network.t) (neuron_name : string) =>
                  weighted_sum <-
                    for_each prev_layer
                      (fun (weighted_sum : float) (prev_neuron : string) =>
                         match Dict.get (Network.connections net) (prev_neuron, neuron_name) with
                         | Some conn =>
                             let weight := Connection.get_weight conn in
                             value <- normalized_state net prev_neuron ;;
                             ret (weighted_sum + weight * value)%float
                         | None => ret weighted_sum
                         end)
                      0%float ;;
                  activation <- sigmoid env weighted_sum ;;
                  ret (Network.set_state
                         (Dict.set (Network.state net) neuron_name
                            (VFloat (activation * 100.0)%float)) net))
               net)
          net ;;
      outputs <-
        for_each (List.last (layers self) [])
          (fun (acc : list value) (n : string) =>
             v <- state_at net n ;; ret (acc ++ [v]))
          [] ;;
      ret (outputs, set_network net self)
  end.

Definition backward_pass (env : Env) (targets : list float) (self : t)
    : M (float * float * t) :=
  match layers self with
  | [] => raise ValueError
  | _ :: _ =>
      let output_layer := List.last (layers self) [] in
      if negb (List.length targets =? List.length output_layer)%nat then raise ValueError
      else
        let net := network self in
        let normalized_targets := map (fun t => (t / 100.0)%float) targets in
        deltas <-
          for_each (combine output_layer normalized_targets)
            (fun (deltas : Dict.t string float) (item : string * float) =>
               let (neuron_name, target) := item in
               output <- normalized_state net neuron_name ;;
               let error := (target - output)%float in
               ret (Dict.set deltas neuron_name (error * output * (1 - output))%float))
            [] ;;
        deltas <-
          for_each (rev (consecutive (layers self)))
            (fun (deltas : Dict.t string float) (pair : list string * list string) =>
               let (current_layer, next_layer) := pair in
               for_each current_layer
                 (fun (deltas : Dict.t string float) (neuron_name : string) =>
                    error_sum <-
                      for_each next_layer
                        (fun (error_sum : float) (next_neuron : string) =>
                           match Dict.get (Network.connections net) (neuron_name, next_neuron) with
                           | Some connection =>
                               let weight := Connection.get_weight connection in
                               d <- delta_at deltas next_neuron ;;
                               ret (error_sum + weight * d)%float
                           | None => ret error_sum
                           end)
                        0%float ;;
                    output <- normalized_state net neuron_name ;;
                    ret (Dict.set deltas neuron_name (error_sum * output * (1 - output))%float))
                 deltas)
            deltas ;;
        ' (total_changes, self) <-
          for_each (consecutive (layers self))
            (fun (acc : float * t) (pair : list string * list string) =>
               let (current_layer, next_layer) := pair in
               for_each current_layer
                 (fun (acc : float * t) (neuron_name : string) =>
                    output <- normalized_state (network (snd acc)) neuron_name ;;
                    for_each next_layer
                      (fun (acc : float * t) (next_neuron : string) =>
                         let (total_changes, self) := acc in
                         let conn_key := (neuron_name, next_neuron) in
                         match Dict.get (Network.connections (network self)) conn_key with
                         | Some connection =>
                             d <- delta_at deltas next_neuron ;;
                             let delta_w := (learning_rate self * d * output)%float in
                             let delta_w :=
                               match Dict.get (prev_weight_changes self) conn_key with
                               | Some prev => (delta_w + momentum self * prev)%float
                               | None => delta_w
                               end in
                             let changes := Dict.set (prev_weight_changes self) conn_key delta_w in
                             let old_weight := Connection.get_weight connection in
                             ' (_, connection) <-
                               Connection.set_weight env (old_weight + delta_w)%float connection ;;
                             let net :=
                               Network.set_connections
                                 (Dict.set (Network.connections (network self)) conn_key connection)
                                 (network self) in
                             ret ((total_changes + PrimFloat.abs delta_w)%float,
                                  {| network := net; learning_rate := learning_rate self;
                                     momentum := momentum self; layers := layers self;
                                     prev_weight_changes := changes |})
                         | None => ret acc
                         end)
                      acc)
                 acc)
            (0%float, self) ;;
        mse <-
          for_each (combine output_layer normalized_targets)
            (fun (mse : float) (item : string * float) =>
               let (neuron_name, target) := item in
               output <- normalized_state (network self) neuron_name ;;
               ret (mse + (target - output) * (target - output))%float)
            0%float ;;
        match output_layer with
        | [] => raise ZeroDivisionError
        | _ :: _ =>
            ret ((mse / float_of_Z (Z.of_nat (List.length output_layer)))%float,
                 total_changes, self)
        end
  end.

(** One epoch of [train]: shuffle, then a forward and a backward pass per
    example; the error of the epoch is the Python integer [0] until the
    first example adds a float to it. *)
Definition run_epoch (env : Env) (training_data : list (list float * list float))
    (self : t) : M (float * list (list float * list float) * t) :=
  training_data <- shuffle env training_data ;;
  ' (epoch_error, self) <-
    for_each training_data
      (fun (acc : float * t) (example : list float * list float) =>
         let (epoch_error, self) := acc in
         let (inputs, targets) := example in
         ' (_, self) <- forward_pass env inputs self ;;
         ' (error, _, self) <- backward_pass env targets self ;;
         ret ((epoch_error + error)%float, self))
      (0%float, self) ;;
  ret (epoch_error, training_data, self).

(** The loop of [train] from epoch [epoch] on, [remaining] epochs left. *)
Fixpoint train_from (env : Env) (remaining : nat) (epoch : Z)
    (training_data : list (list float * list float)) (target_error : float)
    (callback : option (Z -> float -> bool)) (errors : list float) (self : t)
    : M (list float * t) :=
  match remaining with
  | O => ret (errors, self)
  | S remaining' =>
      ' (epoch_error, training_data, self) <- run_epoch env training_data self ;;
      match training_data with
      | [] => raise ZeroDivisionError
      | _ :: _ =>
          let avg_error :=
            (epoch_error / float_of_Z (Z.of_nat (List.length training_data)))%float in
          let errors := errors ++ [avg_error] in
          let stop_by_callback :=
            match callback with
            | Some cb => negb (cb epoch avg_error)
            | None => false
            end in
          if stop_by_callback then ret (errors, self)
          else if PrimFloat.leb avg_error target_error then ret (errors, self)
          else train_from env remaining' (epoch + 1)%Z training_data target_error
                 callback errors self
      end
  end.

(** [train(training_data, epochs, target_error, callback)] *)
Definition train (env : Env) (training_data : list (list float * list float))
    (epochs : nat) (target_error : float) (callback : option (Z -> float -> bool))
    (self : t) : M (list float * t) :=
  train_from env epochs 0%Z training_data target_error callback [] self.

(** The index of the first greatest element, [l.index(max(l))]; [max] of an
    empty list raises. *)
Definition index_of_max (l : list float) : M nat :=
  match l with
  | [] => raise ValueError
  | x :: l' =>
      ret (fst (fst (fold_left
                       (fun (acc : nat * float * nat) (y : float) =>
                          let '(best, m, i) := acc in
                          if PrimFloat.ltb m y then (i, y, S i) else (best, m, S i))
                       l' (0%nat, x, 1%nat))))
  end.

(** [test(test_data)]: the fraction of examples whose greatest output is
    at the index of the greatest target; [0] for an empty dataset. *)
Definition test (env : Env) (test_data : list (list float * list float)) (self : t)
    : M (float * t) :=
  match test_data with
  | [] => ret (0%float, self)
  | _ :: _ =>
      ' (correct, self) <-
        for_each test_data
          (fun (acc : Z * t) (example : list float * list float) =>
             let (correct, self) := acc in
             let (inputs, targets) := example in
             ' (outputs, self) <- forward_pass env inputs self ;;
             outputs <-
               for_each outputs
                 (fun (acc : list float) (v : value) =>
                    match compared_as v with
                    | Some f => ret (acc ++ [f])
                    | None => raise TypeError
                    end)
                 [] ;;
             max_idx <- index_of_max outputs ;;
             target_idx <- index_of_max targets ;;
             ret (if (max_idx =? target_idx)%nat then (correct + 1)%Z else correct, self))
          (0%Z, self) ;;
      ret ((float_of_Z correct / float_of_Z (Z.of_nat (List.length test_data)))%float, self)
  end.

End BackpropNetwork.

(** ** Vocabulary of the statements *)

(** [x] lies in the closed interval from [lo] to [hi]. *)
Definition in_interval (lo hi x : float) : Prop :=
  PrimFloat.leb lo x = true /\ PrimFloat.leb x hi = true.

(** The world after [n] more clock readings. *)
Definition later (n : nat) (w : World) : World :=
  {| ticks := n + ticks w; draws := draws w |}.

(** Partial correctness of a computation: from any world, if it returns, the
    result satisfies [Q]. *)
Definition returns {A} (m : M A) (Q : A -> Prop) : Prop :=
  forall w, match fst (m w) with Ok a => Q a | Raise _ => True end.

(** A connection whose stored weight is in [[-1, 1]] and is the weight of
    the last entry of its history. *)
Definition logged (c : Connection.t) : Prop :=
  in_interval (-1) 1 (Connection.get_weight c)
  /\ exists older t, Connection.weight_history c = older ++ [(t, Connection.get_weight c)].

(** Every connection of the table is [logged]. *)
Definition all_logged (conns : Dict.t (string * string) Connection.t) : Prop :=
  Forall (fun kc => logged (snd kc)) conns.

(** The clamp of [set_weight]. *)
Definition clamp_unit_weight (weight : float) : float :=
  Py.max PrimFloat.ltb (-1.0)%float (Py.min PrimFloat.ltb 1.0%float weight).

(** [c'] is [c] after one write: at the [n]-th reading of the clock some
    requested weight was clamped and stored, that reading became the time
    of the last update, and the entry (next reading, stored weight) was
    appended to the history, of which the last 100 entries are kept.
    Nothing else differs. *)
Definition written (env : Env) (c c' : Connection.t) : Prop :=
  exists requested n,
    c' = {| Connection.source := Connection.source c;
            Connection.target := Connection.target c;
            Connection._weight := clamp_unit_weight requested;
            Connection.weight_history :=
              last_n 100
                (Connection.weight_history c
                   ++ [(time_time env (S n), clamp_unit_weight requested)]);
            Connection.last_update := time_time env n;
            Connection.creation_time := Connection.creation_time c;
            Connection.bidirectional := Connection.bidirectional c |}.

(** A connection as its constructor leaves it: one write on an empty
    history. *)
Definition created (env : Env) (c : Connection.t) : Prop :=
  exists requested n,
    Connection.get_weight c = clamp_unit_weight requested
    /\ Connection.weight_history c = [(time_time env (S n), clamp_unit_weight requested)]
    /\ Connection.last_update c = time_time env n.

(** [c'] is [c] after any number of writes, possibly none. *)
Inductive rewritten (env : Env) : Connection.t -> Connection.t -> Prop :=
| rewritten_none : forall c, rewritten env c c
| rewritten_more : forall c c' c'',
    rewritten env c c' -> written env c' c'' -> rewritten env c c''.

(** The table [conns'] comes from the table [conns] through creations and
    writes only: no connection has been removed, and every connection of
    [conns'] is the connection [conns] holds under the same key after some
    writes, or, under a key new to the table, a created connection after
    some writes. *)
Definition written_table (env : Env)
    (conns conns' : Dict.t (string * string) Connection.t) : Prop :=
  (forall key, Dict.mem conns key = true -> Dict.mem conns' key = true)
  /\ forall key c',
       Dict.get conns' key = Some c' ->
       match Dict.get conns key with
       | Some c => rewritten env c c'
       | None => exists c0, created env c0 /\ rewritten env c0 c'
       end.

(** A writer's view of a network: the table is [all_logged] and comes from
    [conns0] through creations and writes; state and configuration are
    those of [net0]. *)
Definition kept (env : Env) (conns0 : Dict.t (string * string) Connection.t)
    (net0 net : Network.t) : Prop :=
  all_logged (Network.connections net)
  /\ written_table env conns0 (Network.connections net)
  /\ Network.state net = Network.state net0
  /\ Network.config net = Network.config net0.

(** [target] has an incoming connection from a neuron of the network. *)
Definition has_incoming (net : Network.t) (target : string) : Prop :=
  exists source,
    In source (Dict.keys (Network.neurons net))
    /\ Dict.mem (Network.connections net) (source, target) = true.

(** A state value that [float] converts, or that needs no conversion:
    anything but an integer beyond the range of floats. *)
Definition representable (v : value) : bool :=
  match v with
  | VInt z => negb (PrimFloat.is_infinity (float_of_Z z))
  | _ => true
  end.

(** A dictionary all of whose integers are within the range of floats. *)
Definition in_float_range (d : Dict.t string value) : Prop :=
  forallb (fun item : string * value => representable (snd item)) d = true.

(** The float a representable state value stands for, as
    [get_neuron_value] reads it. *)
Definition normalized (v : value) : float :=
  match v with
  | VInt z => float_of_Z z
  | VFloat f => f
  | VBool b => if b then 1%float else 0%float
  | VStr _ => 75%float
  | VNone => 0%float
  end.

(** The float the entry of [name] stands for; a missing entry counts as 0. *)
Definition value_of (net : Network.t) (name : string) : float :=
  normalized (Dict.get_default (Network.state net) name (VInt 0)).

(** The sum of the weighted inputs of [target] and their number, over the
    neurons in the order of the table. *)
Definition weighted_inputs (net : Network.t) (target : string) : float * nat :=
  fold_left
    (fun (acc : float * nat) (source : string) =>
       match Dict.get (Network.connections net) (source, target) with
       | Some connection =>
           ((fst acc + value_of net source * Connection.get_weight connection)%float,
            S (snd acc))
       | None => acc
       end)
    (Dict.keys (Network.neurons net)) (0%float, 0%nat).

(** The value one propagation step writes for a target with incoming
    connections, as a function of the network before the step: the blend
    of 70% of its value and 30% of the mean of its weighted inputs, kept
    within 0 and 100. *)
Definition step_value (net : Network.t) (target : string) : value :=
  let (incoming, count) := weighted_inputs net target in
  let mean := (incoming / float_of_Z (Z.of_nat count))%float in
  Py.max value_ltb (VInt 0)
    (Py.min value_ltb (VInt 100) (VFloat (value_of net target * 0.7 + mean * 0.3)%float)).

(** The state after the targets of [order] have been visited, each with
    the values of the network before the step. *)
Definition stepped_state (net : Network.t) (order : list string) : Dict.t string value :=
  fold_left
    (fun (st : Dict.t string value) (target : string) =>
       if (0 <? snd (weighted_inputs net target))%nat
       then Dict.set st target (step_value net target)
       else st)
    order (Network.state net).

(** The network after one step, and after [steps] steps, when every value
    read on the way can be read. *)
Definition stepped (net : Network.t) : Network.t :=
  Network.set_state (stepped_state net (Dict.keys (Network.neurons net))) net.

Fixpoint stepped_times (steps : nat) (net : Network.t) : Network.t :=
  match steps with
  | O => net
  | S n => stepped_times n (stepped net)
  end.

(** The scenario of two neurons: [Network()], [add_neuron("A")],
    [add_neuron("B")], [connect("A", "B", 0.5)],
    [update_state({"A": 80, "B": 90})], then one [propagate_activation()]. *)
Definition two_neuron_scenario (env : Env) : M (Dict.t string value * Network.t) :=
  net <- Network.init env None ;;
  ' (_, net) <- Network.add_neuron "A" (VInt 0) None "default" None net ;;
  ' (_, net) <- Network.add_neuron "B" (VInt 0) None "default" None net ;;
  ' (_, net) <- Network.connect env "A" "B" 0.5%float false net ;;
  ' (_, net) <- Network.update_state env [("A"%string, VInt 80); ("B"%string, VInt 90)] net ;;
  Network.propagate_activation 1 net.

(** A network whose state holds the Python value [True] for ["A"]. *)
Definition network_with_flag (net : Network.t) : Network.t :=
  Network.set_state [("A"%string, VBool true)] net.

(** The claim that any two calls fewer than 5 seconds apart leave the second
    one without effect. *)
Definition debounce_between_any_two_calls : Prop :=
  forall env self net w pairs self1 net1 w1,
    Hebbian.perform_hebbian_learning env self net w = (Ok (pairs, self1, net1), w1) ->
    PrimFloat.ltb (time_time env (ticks w1) - time_time env (ticks w)) 5 = true ->
    Hebbian.perform_hebbian_learning env self1 net1 w1 = (Ok ([], self1, net1), later 1 w1).

(** A clock that shows 3 at its first reading and 6 afterwards; the other
    oracles are constant. *)
Definition clock_3_then_6 : Env :=
  {| time_time := fun n => match n with O => 3%float | S _ => 6%float end;
     random_random := fun _ => 0%float;
     random_below := fun _ _ => 0%nat;
     random_sample := fun _ l k => firstn k l;
     math_exp := fun _ => Ok 1%float;
     math_cos := fun _ => 1%float;
     math_sin := fun _ => 0%float |}.

(** Two neurons, both above the activity threshold, and no connection. *)
Definition two_active_neurons : Network.t :=
  {| Network.config := Config.init;
     Network.neurons :=
       [("A"%string, Neuron.init "A" None "default" None);
        ("B"%string, Neuron.init "B" None "default" None)];
     Network.connections := [];
     Network.state := [("A"%string, VInt 80); ("B"%string, VInt 90)];
     Network.creation_time := 0; Network.last_update_time := 0;
     Network.update_count := 0; Network.excluded_neurons := [];
     Network.learning := None; Network.neurogenesis := None |}.

(** A helper built at time 0. *)
Definition helper_built_at_0 : HebbianLearning.t :=
  {| HebbianLearning.last_learning_time := 0;
     HebbianLearning.learning_events := [];
     HebbianLearning.excluded_neurons := [];
     HebbianLearning.learning_rate := 0.1 |}.

Definition world0 : World := {| ticks := 0; draws := 0 |}.

(** A clock that shows 0 for its first five readings and 1000 afterwards. *)
Definition clock_0_then_1000 : Env :=
  {| time_time := fun n => if (n <? 5)%nat then 0%float else 1000%float;
     random_random := fun _ => 0%float;
     random_below := fun _ _ => 0%nat;
     random_sample := fun _ l k => firstn k l;
     math_exp := fun _ => Ok 1%float;
     math_cos := fun _ => 1%float;
     math_sin := fun _ => 0%float |}.

(** A network that already holds a neuron called [first], with the two
    helpers built at time 0; a first [check_neurogenesis] at time 0 falls in
    the cooldown, a second one at time 1000, past the cooldown, receives a
    novelty signal of 4.0. *)
Definition novelty_after_cooldown (first : string)
    : M (bool * Neurogenesis.t * Network.t) :=
  net <- Network.init clock_0_then_1000 None ;;
  ' (_, net) <- Network.add_neuron first (VInt 0) None "default" None net ;;
  learning <- Hebbian.init clock_0_then_1000 net ;;
  let net := Network.set_learning (Some learning) net in
  neurogenesis <- Genesis.init clock_0_then_1000 net ;;
  ' (_, neurogenesis, net) <-
    Genesis.check_neurogenesis clock_0_then_1000 [] neurogenesis net ;;
  Genesis.check_neurogenesis clock_0_then_1000
    [("novelty_exposure"%string, VFloat 4.0)] neurogenesis net.

(** The network the builder makes for layers of one neuron each:
    ["input_1"] connected to ["output_1"]. *)
Definition feedforward_1_1 (env : Env) : M Network.t :=
  net <- Network.init env None ;;
  ' (_, net) <- Network.add_neuron "input_1" (VInt 50) (Some (100, 300)%float) "default" None net ;;
  ' (_, net) <- Network.add_neuron "output_1" (VInt 50) (Some (250, 300)%float) "default" None net ;;
  ' (_, net) <- Network.connect env "input_1" "output_1" 0.25%float false net ;;
  ret net.

(** The same network with names free of underscores. *)
Definition feedforward_plain (env : Env) : M Network.t :=
  net <- Network.init env None ;;
  ' (_, net) <- Network.add_neuron "input1" (VInt 50) (Some (100, 300)%float) "default" None net ;;
  ' (_, net) <- Network.add_neuron "output1" (VInt 50) (Some (250, 300)%float) "default" None net ;;
  ' (_, net) <- Network.connect env "input1" "output1" 0.25%float false net ;;
  ret net.

(** The network of the scenario of two neurons before the step, built with
    the clock [clock_3_then_6]. *)
Definition scenario_network : Network.t :=
  Eval vm_compute in
    match
      (net <- Network.init clock_3_then_6 None ;;
       ' (_, net) <- Network.add_neuron "A" (VInt 0) None "default" None net ;;
       ' (_, net) <- Network.add_neuron "B" (VInt 0) None "default" None net ;;
       ' (_, net) <- Network.connect clock_3_then_6 "A" "B" 0.5%float false net ;;
       ' (_, net) <-
         Network.update_state clock_3_then_6
           [("A"%string, VInt 80); ("B"%string, VInt 90)] net ;;
       ret net) world0
    with
    | (Ok net, _) => net
    | (Raise _, _) => two_active_neurons
    end.

(** A clock that shows 6 at its first reading and 8 afterwards. *)
Definition clock_6_then_8 : Env :=
  {| time_time := fun n => match n with O => 6%float | S _ => 8%float end;
     random_random := fun _ => 0%float;
     random_below := fun _ _ => 0%nat;
     random_sample := fun _ l k => firstn k l;
     math_exp := fun _ => Ok 1%float;
     math_cos := fun _ => 1%float;
     math_sin := fun _ => 0%float |}.

(** A neurogenesis helper built at time 0 whose novelty counter stands at 2. *)
Definition helper_with_novelty_2 : Neurogenesis.t :=
  {| Neurogenesis.novelty_counter := 2; Neurogenesis.stress_counter := 0;
     Neurogenesis.reward_counter := 0; Neurogenesis.new_neurons := [];
     Neurogenesis.last_neuron_time := 0 |}.

(** ** Further vocabulary *)

(** A connection from ["A"] to ["B"] of weight 0.5, written once at time 6. *)
Definition connection_A_B : Connection.t :=
  {| Connection.source := "A"; Connection.target := "B"; Connection._weight := 0.5;
     Connection.weight_history := [(6%float, 0.5%float)]; Connection.last_update := 6;
     Connection.creation_time := 6; Connection.bidirectional := false |}.

(** The entry of [name] after an update with the dictionary [l]. *)
Definition updated_entry (l : Dict.t string value) (name : string) (old : option value)
    : option value :=
  match old with
  | None => None
  | Some v => Some (Dict.get_default l name v)
  end.

(** The neuron [name] after an update with the dictionary [l]. *)
Definition updated_neuron (l : Dict.t string value) (name : string) (old : option value)
    (n : Neuron.t) : Neuron.t :=
  match old, Dict.get l name with
  | Some _, Some v => Neuron.record_activity (normalized v) 10 n
  | _, _ => n
  end.


(** The network after one item of an update whose value is representable:
    a tracked name takes the value, and its neuron, if it has one, records
    the float the value stands for. *)
Definition updated_by (self : Network.t) (item : string * value) : Network.t :=
  let (name, value) := item in
  if Dict.mem (Network.state self) name then
    let self := Network.set_state (Dict.set (Network.state self) name value) self in
    match Dict.get (Network.neurons self) name with
    | Some neuron =>
        let neuron := Neuron.record_activity (normalized value) 10 neuron in
        Network.set_neurons (Dict.set (Network.neurons self) name neuron) self
    | None => self
    end
  else self.

(** The body of the loop of [apply_weight_decay]. *)
Definition decay_body (env : Env) (decay_factor : float)
    (acc : Z * Dict.t (string * string) Connection.t) (key : string * string)
    : M (Z * Dict.t (string * string) Connection.t) :=
  let (count, conns) := acc in
  match Dict.get conns key with
  | Some connection =>
      let old_weight := Connection.get_weight connection in
      ' (new_weight, connection) <- Connection.apply_decay env decay_factor connection ;;
      let conns := Dict.set conns key connection in
      if PrimFloat.ltb 0.0001%float (PrimFloat.abs (new_weight - old_weight)%float)
      then ret ((count + 1)%Z, conns) else ret (count, conns)
  | None => ret acc
  end.

(** What decay makes of a connection: the weight is rescaled and clamped,
    the endpoints and the creation time stay. *)
Definition decayed (decay_factor : float) (c c' : Connection.t) : Prop :=
  Connection.get_weight c'
  = clamp_unit_weight (Connection.get_weight c * (1 - decay_factor))%float
  /\ Connection.source c' = Connection.source c
  /\ Connection.target c' = Connection.target c
  /\ Connection.creation_time c' = Connection.creation_time c
  /\ Connection.bidirectional c' = Connection.bidirectional c.

(** The names [perform_hebbian_learning] finds active: the keys of the
    state, in order, that are not excluded and whose normalized value is
    above the configured threshold (50 by default). *)
Definition active_names (self : HebbianLearning.t) (net : Network.t) : list string :=
  map fst
    (filter
       (fun item : string * value =>
          negb (existsb (String.eqb (fst item)) (HebbianLearning.excluded_neurons self))
          && PrimFloat.ltb
               (Dict.get_default (Config.hebbian (Network.config net))
                  "active_threshold"%string 50%float)
               (value_of net (fst item)))
       (Dict.items (Network.state net))).

(** A generator whose [sample] returns no more elements than it is asked
    for, as [random.sample] does. *)
Definition sample_within_size (env : Env) : Prop :=
  forall k l n, (List.length (random_sample env k l n) <= n)%nat.

(** An entry of the event log. *)
Definition sample_event : HebbianLearning.event :=
  {| HebbianLearning.timestamp := 6; HebbianLearning.neuron1 := "A";
     HebbianLearning.neuron2 := "B"; HebbianLearning.value1 := 80;
     HebbianLearning.value2 := 90; HebbianLearning.prev_weight_forward := 0;
     HebbianLearning.new_weight_forward := 0.07200000000000002;
     HebbianLearning.prev_weight_backward := 0;
     HebbianLearning.new_weight_backward := 0.07200000000000002;
     HebbianLearning.event_learning_rate := 0.1 |}.

(** A helper whose log holds three events. *)
Definition helper_with_three_events : HebbianLearning.t :=
  Hebbian.set_learning_events [sample_event; sample_event; sample_event] helper_built_at_0.

(** The first statements of [_update_connection]: create the connection at
    weight 0.0 unless the pair has one. *)
Definition ensure_connection (env : Env) (a b : string) (network : Network.t) : M Network.t :=
  if negb (Dict.mem (Network.connections network) (a, b))
  then ' (_, n) <- Network.connect env a b 0.0%float false network ;; ret n
  else ret network.

(** The increment of the Hebbian rule. *)
Definition weight_change (self : HebbianLearning.t) (value1 value2 : float) : float :=
  (HebbianLearning.learning_rate self * (value1 / 100.0) * (value2 / 100.0))%float.

(** The number of occurrences of a character in a string. *)
Fixpoint occurrences (c : ascii) (s : string) : nat :=
  match s with
  | EmptyString => 0
  | String a s' => (if Ascii.eqb a c then 1 else 0) + occurrences c s'
  end.

(** A name without underscore. *)
Definition plain (s : string) : Prop := occurrences "_"%char s = 0%nat.

(** The body of the loop of [load] over the saved neurons. *)
Definition load_neuron_body (network : Network.t) (item : string * Snapshot.neuron_data)
    : M Network.t :=
  let (name, neuron_data) := item in
  ' (_, network) <-
    Network.add_neuron name (VInt 0) (Snapshot.nd_position neuron_data)
      (Snapshot.opt (Snapshot.nd_type neuron_data) "default"%string)
      (Some (Snapshot.opt (Snapshot.nd_attributes neuron_data) [])) network ;;
  ret network.

(** The body of the loop of [load] over the saved connections. *)
Definition load_connection_body (env : Env) (network : Network.t)
    (item : string * Snapshot.connection_data) : M Network.t :=
  let (key, conn_data) := item in
  ' (src, tgt) <- Snapshot.split_key key ;;
  ' (_, network) <-
    Network.connect env src tgt (Snapshot.opt (Snapshot.cd_weight conn_data) 0%float)
      false network ;;
  match Dict.get (Network.connections network) (src, tgt) with
  | Some c =>
      now <- time env ;;
      let c :=
        Connection.set_creation_time
          (Snapshot.opt (Snapshot.cd_creation_time conn_data) now) c in
      ret (Network.set_connections
             (Dict.set (Network.connections network) (src, tgt) c) network)
  | None => ret network
  end.

(** What [save] writes for a neuron and for a connection. *)
Definition saved_neuron (item : string * Neuron.t) : Snapshot.neuron_data :=
  {| Snapshot.nd_position := Some (Neuron.get_position (snd item));
     Snapshot.nd_type := Some (Neuron.type (snd item));
     Snapshot.nd_attributes := Some (Neuron.attributes (snd item)) |}.

Definition saved_connection (item : (string * string) * Connection.t)
    : Snapshot.connection_data :=
  {| Snapshot.cd_weight := Some (Connection.get_weight (snd item));
     Snapshot.cd_creation_time := Some (Connection.creation_time (snd item)) |}.

(** A neuron as [load] rebuilds it from what [save] wrote: same position,
    type and attributes under the saved name, and an empty history. *)
Definition reloaded_neuron (item : string * Neuron.t) : string * Neuron.t :=
  (fst item,
   {| Neuron.name := fst item; Neuron.position := Neuron.position (snd item);
      Neuron.type := Neuron.type (snd item);
      Neuron.attributes := Neuron.attributes (snd item);
      Neuron.activity_history := [] |}).

(** A connection as [load] rebuilds it: the saved weight, clamped again,
    and the saved creation time under the same pair; the flag of a
    bidirectional pair is not saved and comes back false. *)
Definition reloaded_connection (key : string * string) (c c' : Connection.t) : Prop :=
  Connection.get_weight c' = clamp_unit_weight (Connection.get_weight c)
  /\ Connection.creation_time c' = Connection.creation_time c
  /\ Connection.source c' = fst key
  /\ Connection.target c' = snd key
  /\ Connection.bidirectional c' = false
  /\ List.length (Connection.weight_history c') = 1%nat.

(** A network [save] and [load] can carry: the two tables have unique keys
    and every connection joins two neurons of the network whose names are
    free of underscores. *)
Definition portable (net : Network.t) : Prop :=
  NoDup (Dict.keys (Network.neurons net))
  /\ NoDup (Dict.keys (Network.connections net))
  /\ forall key,
       In key (Dict.keys (Network.connections net)) ->
       plain (fst key) /\ plain (snd key)
       /\ Dict.mem (Network.neurons net) (fst key) = true
       /\ Dict.mem (Network.neurons net) (snd key) = true.

(** An entry of the connection table and the entry [load] rebuilds. *)
Definition reloaded_entry (item item' : (string * string) * Connection.t) : Prop :=
  fst item' = fst item /\ reloaded_connection (fst item) (snd item) (snd item').

(** A list in which no element has a smaller key than its successor. *)
Inductive descending {A} (key : A -> float) : list A -> Prop :=
| descending_nil : descending key []
| descending_one : forall x, descending key [x]
| descending_cons : forall x y l,
    PrimFloat.ltb (key x) (key y) = false ->
    descending key (y :: l) -> descending key (x :: y :: l).

(** The neurons a trigger type is related to. *)
Definition related_neurons (neuron_type : string) : list string :=
  if String.eqb neuron_type "novelty" then ["curiosity"%string]
  else if String.eqb neuron_type "stress" then ["anxiety"%string]
  else if String.eqb neuron_type "reward" then ["satisfaction"%string; "happiness"%string]
  else [].

(** The body of the loop of [_create_connections_for_new_neuron]. *)
Definition connect_new_body (env : Env) (new_name neuron_type : string)
    (conn_strength : float) (network : Network.t) (existing_name : string) : M Network.t :=
  if negb (String.eqb existing_name new_name)
     && negb (existsb (String.eqb existing_name) (Network.excluded_neurons network))
  then
    weight <-
      (if existsb (String.eqb existing_name) (related_neurons neuron_type)
       then ret (conn_strength * 2.0)%float
       else uniform env (- conn_strength)%float conn_strength) ;;
    ' (_, network) <- Network.connect env new_name existing_name weight true network ;;
    ret network
  else ret network.

(** The name [_create_neuron] gives to the next neuron of a novelty
    trigger. *)
Definition next_novel_name (self : Neurogenesis.t) : string :=
  ("novel_"
     ++ NilEmpty.string_of_uint (Nat.to_uint (List.length (Neurogenesis.new_neurons self))))%string.

(** The counters after decay and signals. *)
Definition fed_counter (counter decay signal : float) : float :=
  (counter * decay + signal)%float.

(** The configuration values of the neurogenesis helper, with the defaults
    of the source. *)
Definition neurogenesis_setting (net : Network.t) (key : string) (default : float) : float :=
  Dict.get_default (Config.neurogenesis (Network.config net)) key default.

(** The same network with the learning rate of its Hebbian helper, if it
    has one, set to the base rate times the configured boost. *)
Definition boosted (net : Network.t) : option HebbianLearning.t :=
  match Network.learning net with
  | Some learning =>
      Some (snd (Hebbian.modify_learning_rate
                   (Dict.get_default (Config.combined (Network.config net))
                      "neurogenesis_learning_boost"%string 1.5%float)
                   net learning))
  | None => None
  end.

(** The network after [add_neuron name 50 position neuron_type]. *)
Definition with_new_neuron (name : string) (position : float * float)
    (neuron_type : string) (net : Network.t) : Network.t :=
  Network.set_state (Dict.set (Network.state net) name (VInt 50))
    (Network.set_neurons
       (Dict.set (Network.neurons net) name
          (Neuron.init name (Some position) neuron_type None))
       net).

(** The helper after [name] has been created. *)
Definition with_created (name : string) (self : Neurogenesis.t) : Neurogenesis.t :=
  {| Neurogenesis.novelty_counter := Neurogenesis.novelty_counter self;
     Neurogenesis.stress_counter := Neurogenesis.stress_counter self;
     Neurogenesis.reward_counter := Neurogenesis.reward_counter self;
     Neurogenesis.new_neurons := Neurogenesis.new_neurons self ++ [name];
     Neurogenesis.last_neuron_time := Neurogenesis.last_neuron_time self |}.

(** What the connection table [conns] of the network after the creation of
    [name] has to do with the table of the network [net] before: the new
    neuron is linked both ways with every neuron of [net] that is not
    excluded, no connection of [net] is removed, and the connections that
    do not touch the new neuron are the same objects. *)
Definition links_new_neuron (name : string) (net : Network.t)
    (conns : Dict.t (string * string) Connection.t) : Prop :=
  (forall e, Dict.mem (Network.neurons net) e = true ->
     existsb (String.eqb e) (Network.excluded_neurons net) = false ->
     Dict.mem conns (name, e) = true /\ Dict.mem conns (e, name) = true)
  /\ (forall key, Dict.mem (Network.connections net) key = true ->
        Dict.mem conns key = true)
  /\ (forall key, fst key <> name -> snd key <> name ->
        Dict.get conns key = Dict.get (Network.connections net) key).

(** Two networks with the same neurons and the same connections. *)
Definition same_structure (net net' : Network.t) : Prop :=
  Network.neurons net' = Network.neurons net
  /\ Network.connections net' = Network.connections net.

Arguments Hebbian.perform_hebbian_learning : simpl never.

(** * Properties *)

(** ** Floating-point comparisons *)

Lemma ltb_leb (x y : float) : PrimFloat.ltb x y = true -> PrimFloat.leb x y = true.
Proof.
  rewrite ltb_spec, leb_spec. unfold SFltb, SFleb.
  destruct (SFcompare (Prim2SF x) (Prim2SF y)) as [[ | | ] | ]; congruence.
Qed.

(** The clamp of [set_weight] lands in [[-1, 1]] whatever it is given, NaN
    and the infinities included. *)
Lemma clamp_unit (weight : float) :
  in_interval (-1) 1 (Py.max PrimFloat.ltb (-1.0)%float (Py.min PrimFloat.ltb 1.0%float weight)).
Proof.
  unfold Py.max, Py.min, in_interval.
  destruct (PrimFloat.ltb weight 1) eqn:Hhi.
  - destruct (PrimFloat.ltb (-1) weight) eqn:Hlo.
    + split; apply ltb_leb; assumption.
    + split; reflexivity.
  - split; reflexivity.
Qed.

(** ** Dictionaries *)

Section DictFacts.
Context {K V : Type} `{Key K}.

Lemma keyb_refl (k : K) : keyb k k = true.
Proof. apply keyb_eq. reflexivity. Qed.

Lemma keyb_neq (a b : K) : a <> b -> keyb a b = false.
Proof.
  intro N. destruct (keyb a b) eqn:E; [ | reflexivity ].
  apply keyb_eq in E. contradiction.
Qed.

Lemma get_set_same (d : Dict.t K V) (k : K) (v : V) : Dict.get (Dict.set d k v) k = Some v.
Proof.
  induction d as [ | [k' v'] d IH ]; simpl.
  - rewrite keyb_refl. reflexivity.
  - destruct (keyb k k') eqn:E; simpl; rewrite E; [ reflexivity | exact IH ].
Qed.

Lemma get_set_other (d : Dict.t K V) (k k' : K) (v : V) :
  k' <> k -> Dict.get (Dict.set d k v) k' = Dict.get d k'.
Proof.
  intro N. induction d as [ | [k0 v0] d IH ]; simpl.
  - rewrite (keyb_neq N). reflexivity.
  - destruct (keyb k k0) eqn:E; simpl.
    + apply keyb_eq in E. subst k0. rewrite (keyb_neq N). reflexivity.
    + rewrite IH. reflexivity.
Qed.

Lemma set_Forall (P : V -> Prop) (d : Dict.t K V) (k : K) (v : V) :
  P v -> Forall (fun kv => P (snd kv)) d -> Forall (fun kv => P (snd kv)) (Dict.set d k v).
Proof.
  intros Pv F. induction F as [ | [k0 v0] d P0 F IH ]; simpl.
  - constructor; [ exact Pv | constructor ].
  - destruct (keyb k k0); constructor; auto.
Qed.

Lemma get_Forall (P : V -> Prop) (d : Dict.t K V) (k : K) (v : V) :
  Forall (fun kv => P (snd kv)) d -> Dict.get d k = Some v -> P v.
Proof.
  intros F. induction F as [ | [k0 v0] d P0 F IH ]; simpl; [ discriminate | ].
  destruct (keyb k k0).
  - intros E; inversion E; subst. exact P0.
  - exact IH.
Qed.

End DictFacts.

Lemma mem_get {K V} `{Key K} (d : Dict.t K V) (k : K) :
  Dict.mem d k = true <-> exists v, Dict.get d k = Some v.
Proof.
  unfold Dict.mem. destruct (Dict.get d k) as [ v | ].
  - split; [ eauto | reflexivity ].
  - split; [ discriminate | intros (v & E); discriminate ].
Qed.

Lemma mem_set_same {K V} `{Key K} (d : Dict.t K V) (k : K) (v : V) :
  Dict.mem (Dict.set d k v) k = true.
Proof. unfold Dict.mem. rewrite get_set_same. reflexivity. Qed.

Lemma mem_set_other {K V} `{Key K} (d : Dict.t K V) (k k' : K) (v : V) :
  k' <> k -> Dict.mem (Dict.set d k v) k' = Dict.mem d k'.
Proof. intros N. unfold Dict.mem. rewrite get_set_other by exact N. reflexivity. Qed.

(** ** Rules for [returns] *)

Section Returns.
Context {A B : Type}.

Lemma returns_ret (a : A) (Q : A -> Prop) : Q a -> returns (ret a) Q.
Proof. intros q w. exact q. Qed.

Lemma returns_raise (e : exn) (Q : A -> Prop) : returns (raise e) Q.
Proof. intros w. exact I. Qed.

Lemma returns_bind (m : M A) (f : A -> M B) (P : A -> Prop) (Q : B -> Prop) :
  returns m P -> (forall a, P a -> returns (f a) Q) -> returns (bind m f) Q.
Proof.
  intros Hm Hf w. unfold bind. specialize (Hm w).
  destruct (m w) as [[a | e] w']; simpl in *.
  - apply Hf. exact Hm.
  - exact I.
Qed.

Lemma returns_weaken (m : M A) (P Q : A -> Prop) :
  returns m P -> (forall a, P a -> Q a) -> returns m Q.
Proof.
  intros Hm PQ w. specialize (Hm w). destruct (fst (m w)); auto.
Qed.

End Returns.

Lemma returns_any {A} (m : M A) : returns m (fun _ => True).
Proof. intros w. destruct (fst (m w)); exact I. Qed.

Lemma returns_for_each {A B} (l : list B) (body : A -> B -> M A) (I : A -> Prop) :
  (forall s x, I s -> returns (body s x) I) ->
  forall s, I s -> returns (for_each l body s) I.
Proof.
  intros Hbody. induction l as [ | x l IH ]; intros s Hs; simpl.
  - apply returns_ret. exact Hs.
  - apply returns_bind with (P := I); [ apply Hbody; exact Hs | exact IH ].
Qed.


(** A loop whose body returns at every element and leaves the world alone
    is the fold of what the body returns. *)
Lemma for_each_fold {A B} (f : A -> B -> A) (body : A -> B -> M A) (l : list B) (w : World) :
  (forall s x, In x l -> body s x w = (Ok (f s x), w)) ->
  forall s, for_each l body s w = (Ok (fold_left f l s), w).
Proof.
  induction l as [ | x l IH ]; intros Hbody s; cbn [for_each fold_left].
  - reflexivity.
  - unfold bind. rewrite (Hbody s x (or_introl eq_refl)).
    apply IH. intros s' x' I. apply Hbody. right. exact I.
Qed.

Lemma returns_time (env : Env) (Q : float -> Prop) :
  (forall t, Q t) -> returns (time env) Q.
Proof. intros q w. apply q. Qed.

Lemma returns_draw (Q : nat -> Prop) : (forall n, Q n) -> returns draw Q.
Proof. intros q w. apply q. Qed.

Lemma returns_uniform (env : Env) (a b : float) (Q : float -> Prop) :
  (forall x, Q x) -> returns (uniform env a b) Q.
Proof. intros q w. apply q. Qed.

(** ** Connections: every write clamps and is recorded *)

Lemma last_n_snoc {A} (n : nat) (l : list A) (x : A) :
  (0 < n)%nat -> exists older, last_n n (l ++ [x]) = older ++ [x].
Proof.
  intros Hn. unfold last_n. rewrite length_app. simpl.
  rewrite skipn_app.
  replace (List.length l + 1 - n - List.length l)%nat with 0%nat by lia.
  simpl. eexists. reflexivity.
Qed.

(** What one call of [set_weight] does, from any connection and world. *)
Lemma set_weight_spec (env : Env) (weight : float) (self : Connection.t) (w : World) :
  exists c,
    Connection.set_weight env weight self w = (Ok (Connection.get_weight c, c), later 2 w)
    /\ Connection.get_weight c
       = Py.max PrimFloat.ltb (-1.0)%float (Py.min PrimFloat.ltb 1.0%float weight)
    /\ in_interval (-1) 1 (Connection.get_weight c)
    /\ Connection.last_update c = time_time env (ticks w)
    /\ (exists older,
          Connection.weight_history c
          = older ++ [(time_time env (S (ticks w)), Connection.get_weight c)])
    /\ Connection.source c = Connection.source self
    /\ Connection.target c = Connection.target self
    /\ Connection.creation_time c = Connection.creation_time self.
Proof.
  unfold Connection.set_weight, bind, time, ret; simpl.
  eexists (Connection.Build_t _ _ _ _ _ _ _). split; [ reflexivity | ]. simpl.
  split; [ reflexivity | ].
  split; [ apply clamp_unit | ].
  split; [ reflexivity | ].
  split; [ | auto ].
  destruct (100 <? _)%nat.
  - apply last_n_snoc. lia.
  - eexists. reflexivity.
Qed.

Lemma init_spec (env : Env) (source target : string) (weight : float)
    (bidirectional : bool) (w : World) :
  exists c,
    Connection.init env source target weight bidirectional w = (Ok c, later 4 w)
    /\ logged c
    /\ Connection.last_update c = time_time env (2 + ticks w)
    /\ Connection.weight_history c
       = [(time_time env (3 + ticks w), Connection.get_weight c)]
    /\ Connection.get_weight c
       = Py.max PrimFloat.ltb (-1.0)%float (Py.min PrimFloat.ltb 1.0%float weight).
Proof.
  unfold Connection.init, Connection.set_weight, bind, time, ret; simpl.
  eexists (Connection.Build_t _ _ _ _ _ _ _). split; [ reflexivity | ]. simpl.
  split; [ | auto ].
  split; [ apply clamp_unit | ].
  exists [], (time_time env (S (S (S (ticks w))))). reflexivity.
Qed.

(** ** Connections: every write appends to the history *)

Lemma last_n_all {A} (n : nat) (l : list A) :
  (List.length l <= n)%nat -> last_n n l = l.
Proof.
  intros L. unfold last_n.
  replace (List.length l - n)%nat with 0%nat by lia. reflexivity.
Qed.

(** Keeping the last 100 entries only when there are more than 100 is
    keeping the last 100 entries. *)
Lemma capped_history {A} (l : list A) :
  (if (100 <? List.length l)%nat then last_n 100 l else l) = last_n 100 l.
Proof.
  destruct (100 <? List.length l)%nat eqn:C; [ reflexivity | ].
  apply Nat.ltb_ge in C. symmetry. apply last_n_all. exact C.
Qed.

(** One call of [set_weight], exactly. *)
Lemma set_weight_exact (env : Env) (weight : float) (self : Connection.t) (w : World) :
  Connection.set_weight env weight self w
  = (Ok (clamp_unit_weight weight,
         {| Connection.source := Connection.source self;
            Connection.target := Connection.target self;
            Connection._weight := clamp_unit_weight weight;
            Connection.weight_history :=
              last_n 100
                (Connection.weight_history self
                   ++ [(time_time env (S (ticks w)), clamp_unit_weight weight)]);
            Connection.last_update := time_time env (ticks w);
            Connection.creation_time := Connection.creation_time self;
            Connection.bidirectional := Connection.bidirectional self |}),
     later 2 w).
Proof.
  unfold Connection.set_weight, bind, time, ret. cbn [ticks draws].
  rewrite capped_history. reflexivity.
Qed.

Lemma set_weight_written (env : Env) (weight : float) (self : Connection.t) :
  returns (Connection.set_weight env weight self) (fun r => written env self (snd r)).
Proof.
  intros w. rewrite set_weight_exact. cbn [fst snd].
  exists weight, (ticks w). reflexivity.
Qed.

(** A written connection is [logged]. *)
Lemma written_logged (env : Env) (c c' : Connection.t) : written env c c' -> logged c'.
Proof.
  intros (requested & n & ->). split.
  - apply clamp_unit.
  - unfold Connection.get_weight. cbn [Connection._weight Connection.weight_history].
    destruct (@last_n_snoc _ 100 (Connection.weight_history c)
                (time_time env (S n), clamp_unit_weight requested)) as (older & E); [ lia | ].
    exists older, (time_time env (S n)). exact E.
Qed.

(** The constructor, exactly: the connection it returns is [created]. *)
Lemma init_created (env : Env) (source target : string) (weight : float) (bidi : bool) :
  returns (Connection.init env source target weight bidi)
    (fun c => created env c /\ logged c).
Proof.
  intros w. destruct (init_spec env source target weight bidi w) as (c & E & L & U & H & W).
  rewrite E. cbn [fst]. split; [ | exact L ].
  exists weight, (2 + ticks w)%nat. unfold clamp_unit_weight. rewrite <- W.
  split; [ reflexivity | ]. split; [ exact H | exact U ].
Qed.

Lemma rewritten_trans (env : Env) (a b c : Connection.t) :
  rewritten env a b -> rewritten env b c -> rewritten env a c.
Proof.
  intros Hab Hbc. induction Hbc as [ | b c' c'' Hbc IH W ]; [ exact Hab | ].
  eapply rewritten_more; [ apply IH; exact Hab | exact W ].
Qed.

Lemma written_rewritten (env : Env) (c c' : Connection.t) :
  written env c c' -> rewritten env c c'.
Proof. intros W. eapply rewritten_more; [ apply rewritten_none | exact W ]. Qed.

(** ** Tables of connections under writes *)

Lemma written_table_refl (env : Env) (conns : Dict.t (string * string) Connection.t) :
  written_table env conns conns.
Proof.
  split; [ auto | ].
  intros key c' G. rewrite G. apply rewritten_none.
Qed.

Lemma written_table_trans (env : Env) (a b c : Dict.t (string * string) Connection.t) :
  written_table env a b -> written_table env b c -> written_table env a c.
Proof.
  intros (Mab & Hab) (Mbc & Hbc). split; [ auto | ].
  intros key c' G. specialize (Hbc key c' G).
  destruct (Dict.get b key) as [ cb | ] eqn:Gb.
  - specialize (Hab key cb Gb).
    destruct (Dict.get a key) as [ ca | ].
    + eapply rewritten_trans; eassumption.
    + destruct Hab as (c0 & C0 & R0). exists c0. split; [ exact C0 | ].
      eapply rewritten_trans; eassumption.
  - destruct (Dict.get a key) as [ ca | ] eqn:Ga; [ | exact Hbc ].
    assert (Ma : Dict.mem a key = true) by (unfold Dict.mem; rewrite Ga; reflexivity).
    apply Mab in Ma. unfold Dict.mem in Ma. rewrite Gb in Ma. discriminate.
Qed.

(** Storing under [key] a connection that comes from the one the table
    held there, or a created one where it held none. *)
Lemma written_table_set (env : Env) (conns : Dict.t (string * string) Connection.t)
    (key : string * string) (c' : Connection.t) :
  match Dict.get conns key with
  | Some c => rewritten env c c'
  | None => exists c0, created env c0 /\ rewritten env c0 c'
  end ->
  written_table env conns (Dict.set conns key c').
Proof.
  intros Hkey. split.
  - intros k M. destruct (keyb k key) eqn:K.
    + apply keyb_eq in K. subst k. apply mem_set_same.
    + rewrite mem_set_other; [ exact M | ].
      intros N. subst k. rewrite keyb_refl in K. discriminate.
  - intros k c G. destruct (keyb k key) eqn:K.
    + apply keyb_eq in K. subst k. rewrite get_set_same in G. inversion G. subst c.
      exact Hkey.
    + rewrite get_set_other in G.
      * rewrite G. apply rewritten_none.
      * intros N. subst k. rewrite keyb_refl in K. discriminate.
Qed.
(** ** The connection table under every writer

    Two invariants are carried through the methods that write weights: the
    table stays [all_logged], and it is reached from the table at the start
    through creations and writes only. *)

Lemma set_logged (conns : Dict.t (string * string) Connection.t) (key : string * string)
    (c : Connection.t) :
  logged c -> all_logged conns -> all_logged (Dict.set conns key c).
Proof. exact (@set_Forall (string * string) Connection.t _ logged conns key c). Qed.

(** [connect] under the guard of [_update_connection]: the pair has no
    connection yet, so one is created and none is replaced. *)
Lemma connect_missing_kept (env : Env) (conns0 : Dict.t (string * string) Connection.t)
    (net0 net : Network.t) (source target : string) :
  kept env conns0 net0 net ->
  returns
    (if negb (Dict.mem (Network.connections net) (source, target))
     then ' (_, n) <- Network.connect env source target 0.0%float false net ;; ret n
     else ret net)
    (kept env conns0 net0).
Proof.
  intros (Hl & Ht & Hs & Hc).
  destruct (Dict.mem (Network.connections net) (source, target)) eqn:M; cbn [negb].
  - apply returns_ret. split; [ | split; [ | split ] ]; assumption.
  - unfold Network.connect.
    destruct (negb (Dict.mem (Network.neurons net) source));
      [ eapply returns_bind with (P := fun _ => False);
        [ apply returns_raise | intros [c n] [] ] | ].
    destruct (negb (Dict.mem (Network.neurons net) target));
      [ eapply returns_bind with (P := fun _ => False);
        [ apply returns_raise | intros [c n] [] ] | ].
    cbn [andb].
    eapply returns_bind with
      (P := fun r => kept env conns0 net0 (snd r)).
    + eapply returns_bind; [ apply init_created | ].
      intros c (Cc & Lc). apply returns_ret. cbn [snd].
      cbn [Network.connections Network.set_connections Network.state Network.config].
      split; [ apply set_logged; assumption | ].
      split; [ | split; assumption ].
      eapply written_table_trans; [ exact Ht | ].
      apply written_table_set.
      unfold Dict.mem in M.
      destruct (Dict.get (Network.connections net) (source, target)); [ discriminate | ].
      exists c. split; [ exact Cc | apply rewritten_none ].
    + intros [c n] K. apply returns_ret. exact K.
Qed.

Lemma lookup_connection_get (net : Network.t) (key : string * string) :
  returns (Hebbian.lookup_connection net key)
    (fun c => Dict.get (Network.connections net) key = Some c).
Proof.
  unfold Hebbian.lookup_connection.
  destruct (Dict.get (Network.connections net) key) as [c | ] eqn:E.
  - apply returns_ret. reflexivity.
  - apply returns_raise.
Qed.

(** Writing the connection read from the table back under its key. *)
Lemma store_written (env : Env) (conns0 : Dict.t (string * string) Connection.t)
    (net0 net : Network.t) (key : string * string) (c c' : Connection.t) :
  kept env conns0 net0 net ->
  Dict.get (Network.connections net) key = Some c ->
  written env c c' ->
  kept env conns0 net0
    (Network.set_connections (Dict.set (Network.connections net) key c') net).
Proof.
  intros (Hl & Ht & Hs & Hc) G W.
  cbn [Network.connections Network.set_connections Network.state Network.config].
  split; [ apply set_logged; [ exact (written_logged W) | exact Hl ] | ].
  split; [ | split; assumption ].
  eapply written_table_trans; [ exact Ht | ].
  apply written_table_set. rewrite G. apply written_rewritten. exact W.
Qed.

(** [_update_connection]: the table is kept, and each of the two
    directions ends on a write. *)
Lemma update_connection_kept (env : Env) (conns0 : Dict.t (string * string) Connection.t)
    (net0 : Network.t) (neuron1 neuron2 : string) (value1 value2 : float)
    (self : HebbianLearning.t) (net : Network.t) :
  kept env conns0 net0 net ->
  returns (Hebbian._update_connection env neuron1 neuron2 value1 value2 self net)
    (fun r => kept env conns0 net0 (snd r)
              /\ (forall key, key = (neuron1, neuron2) \/ key = (neuron2, neuron1) ->
                    exists c c',
                      Dict.get (Network.connections (snd r)) key = Some c'
                      /\ written env c c')
              /\ HebbianLearning.last_learning_time (fst r)
                 = HebbianLearning.last_learning_time self
              /\ HebbianLearning.excluded_neurons (fst r)
                 = HebbianLearning.excluded_neurons self).
Proof.
  intros K0. unfold Hebbian._update_connection.
  eapply returns_bind; [ apply connect_missing_kept; exact K0 | ].
  intros n1 K1.
  eapply returns_bind; [ apply connect_missing_kept; exact K1 | ].
  intros n2 K2.
  eapply returns_bind; [ apply lookup_connection_get | ].
  intros fc Gf.
  eapply returns_bind; [ apply returns_any | ].
  intros bc _.
  eapply returns_bind; [ apply set_weight_written | ].
  intros [wf fc'] Wf. cbn [snd] in Wf.
  pose proof (store_written (neuron1, neuron2) K2 Gf Wf) as K3.
  set (n3 := Network.set_connections
               (Dict.set (Network.connections n2) (neuron1, neuron2) fc') n2) in *.
  eapply returns_bind; [ apply lookup_connection_get | ].
  intros bc2 Gb.
  eapply returns_bind; [ apply set_weight_written | ].
  intros [wb bc'] Wb. cbn [snd] in Wb.
  pose proof (store_written (neuron2, neuron1) K3 Gb Wb) as K4.
  eapply returns_bind; [ apply returns_any | ].
  intros fc2 _.
  eapply returns_bind; [ apply returns_any | ].
  intros now _. apply returns_ret. cbn [fst snd].
  split; [ exact K4 | ].
  split; [ | split; reflexivity ].
  cbn [Network.connections Network.set_connections].
  intros key [ -> | -> ].
  - destruct (keyb (neuron1, neuron2) (neuron2, neuron1)) eqn:Same.
    + apply keyb_eq in Same. rewrite Same.
      exists bc2, bc'. split; [ apply get_set_same | exact Wb ].
    + exists fc, fc'. split; [ | exact Wf ].
      rewrite get_set_other.
      * subst n3. cbn [Network.connections Network.set_connections]. apply get_set_same.
      * intros N. rewrite N in Same. rewrite keyb_refl in Same. discriminate.
  - exists bc2, bc'. split; [ apply get_set_same | exact Wb ].
Qed.

Lemma perform_hebbian_learning_kept (env : Env) (self : HebbianLearning.t)
    (net : Network.t) :
  all_logged (Network.connections net) ->
  returns (Hebbian.perform_hebbian_learning env self net)
    (fun r => kept env (Network.connections net) net (snd r)).
Proof.
  intros Hnet.
  assert (K0 : kept env (Network.connections net) net net).
  { split; [ exact Hnet | ]. split; [ apply written_table_refl | split; reflexivity ]. }
  unfold Hebbian.perform_hebbian_learning.
  eapply returns_bind; [ apply returns_any | ].
  intros now _.
  destruct (PrimFloat.ltb _ _); [ apply returns_ret; exact K0 | ].
  eapply returns_bind; [ apply returns_any | ].
  intros active _.
  destruct (_ <? 2)%nat; [ apply returns_ret; exact K0 | ].
  eapply returns_bind; [ apply returns_any | ].
  intros sampled _.
  apply returns_for_each with
    (I := fun acc => kept env (Network.connections net) net (snd acc));
    [ | exact K0 ].
  intros [[updated self'] net'] [i j] Hacc. cbn [snd] in Hacc.
  eapply returns_bind; [ apply returns_any | intros n1 _ ].
  eapply returns_bind; [ apply returns_any | intros n2 _ ].
  eapply returns_bind; [ apply returns_any | intros v1 _ ].
  eapply returns_bind; [ apply returns_any | intros v2 _ ].
  destruct (_ && _); [ | apply returns_ret; exact Hacc ].
  eapply returns_bind; [ apply update_connection_kept; exact Hacc | ].
  intros [s n] (K & _). apply returns_ret. exact K.
Qed.

Lemma backward_pass_kept (env : Env) (targets : list float) (self : BackpropNetwork.t) :
  all_logged (Network.connections (BackpropNetwork.network self)) ->
  returns (BackpropNetwork.backward_pass env targets self)
    (fun r =>
       kept env (Network.connections (BackpropNetwork.network self))
         (BackpropNetwork.network self) (BackpropNetwork.network (snd r))).
Proof.
  intros Hnet.
  set (net0 := BackpropNetwork.network self) in *.
  assert (K0 : kept env (Network.connections net0) net0 net0).
  { split; [ exact Hnet | ]. split; [ apply written_table_refl | split; reflexivity ]. }
  unfold BackpropNetwork.backward_pass.
  destruct (BackpropNetwork.layers self) as [ | l0 ls ]; [ apply returns_raise | ].
  destruct (negb _); [ apply returns_raise | ].
  eapply returns_bind; [ apply returns_any | ]. intros deltas0 _.
  eapply returns_bind; [ apply returns_any | ]. intros deltas _.
  eapply returns_bind with
    (P := fun acc => kept env (Network.connections net0) net0
                       (BackpropNetwork.network (snd acc))).
  { apply returns_for_each; [ | exact K0 ].
    intros acc [cur next] Hacc.
    apply returns_for_each; [ | exact Hacc ].
    clear acc Hacc. intros acc neuron_name Hacc.
    eapply returns_bind; [ apply returns_any | ]. intros output _.
    apply returns_for_each; [ | exact Hacc ].
    clear acc Hacc. intros [total bp] next_neuron Hacc. cbn [snd] in Hacc.
    destruct (Dict.get (Network.connections (BackpropNetwork.network bp)) _)
      as [ connection | ] eqn:G; [ | apply returns_ret; exact Hacc ].
    eapply returns_bind; [ apply returns_any | ]. intros d _.
    eapply returns_bind; [ apply set_weight_written | ].
    intros [nw c'] Wc. cbn [snd] in Wc.
    apply returns_ret. cbn [snd BackpropNetwork.network].
    exact (store_written _ Hacc G Wc). }
  intros [total bp] Hbp. cbn [snd] in Hbp.
  eapply returns_bind; [ apply returns_any | ]. intros mse _.
  destruct (List.last _ _); [ apply returns_raise | ].
  apply returns_ret. exact Hbp.
Qed.

(** C2: whatever weight is requested, the constructor, [set_weight] and
    [apply_decay] always return, store the requested weight clamped to
    [[-1, 1]], make the reading of the clock the time of the last update,
    and append the entry (time, stored weight) to the history, of which the
    last 100 entries are kept.  Hebbian reinforcement and the weight updates
    of backpropagation change the table of connections through such writes
    only: whenever they return, every connection is the one the table held
    before after some writes, or a connection created in between and then
    written, none is removed, and every stored weight is in [[-1, 1]] and is
    the last entry of its history; after [_update_connection] both
    directions of the pair end on a write. *)
Theorem weights_stay_clamped_and_logged (env : Env) (net : Network.t)
    (Hnet : all_logged (Network.connections net)) :
  (forall source target weight bidirectional w, exists c,
      Connection.init env source target weight bidirectional w = (Ok c, later 4 w)
      /\ in_interval (-1) 1 (Connection.get_weight c)
      /\ Connection.get_weight c = clamp_unit_weight weight
      /\ Connection.last_update c = time_time env (2 + ticks w)
      /\ Connection.weight_history c
         = [(time_time env (3 + ticks w), Connection.get_weight c)])
  /\ (forall weight self w, exists c,
        Connection.set_weight env weight self w
        = (Ok (Connection.get_weight c, c), later 2 w)
        /\ in_interval (-1) 1 (Connection.get_weight c)
        /\ Connection.get_weight c = clamp_unit_weight weight
        /\ Connection.last_update c = time_time env (ticks w)
        /\ Connection.weight_history c
           = last_n 100
               (Connection.weight_history self
                  ++ [(time_time env (S (ticks w)), Connection.get_weight c)])
        /\ written env self c)
  /\ (forall decay_factor self w, exists c,
        Connection.apply_decay env decay_factor self w
        = (Ok (Connection.get_weight c, c), later 2 w)
        /\ in_interval (-1) 1 (Connection.get_weight c)
        /\ Connection.get_weight c
           = clamp_unit_weight (Connection.get_weight self * (1 - decay_factor))
        /\ Connection.last_update c = time_time env (ticks w)
        /\ Connection.weight_history c
           = last_n 100
               (Connection.weight_history self
                  ++ [(time_time env (S (ticks w)), Connection.get_weight c)])
        /\ written env self c)
  /\ (forall neuron1 neuron2 value1 value2 self,
        returns (Hebbian._update_connection env neuron1 neuron2 value1 value2 self net)
          (fun r => all_logged (Network.connections (snd r))
                    /\ written_table env (Network.connections net)
                         (Network.connections (snd r))
                    /\ forall key,
                         key = (neuron1, neuron2) \/ key = (neuron2, neuron1) ->
                         exists c c',
                           Dict.get (Network.connections (snd r)) key = Some c'
                           /\ written env c c'))
  /\ (forall self,
        returns (Hebbian.perform_hebbian_learning env self net)
          (fun r => all_logged (Network.connections (snd r))
                    /\ written_table env (Network.connections net)
                         (Network.connections (snd r))))
  /\ (forall targets self,
        BackpropNetwork.network self = net ->
        returns (BackpropNetwork.backward_pass env targets self)
          (fun r => all_logged (Network.connections (BackpropNetwork.network (snd r)))
                    /\ written_table env (Network.connections net)
                         (Network.connections (BackpropNetwork.network (snd r))))).
Proof.
  assert (K0 : kept env (Network.connections net) net net).
  { split; [ exact Hnet | ]. split; [ apply written_table_refl | split; reflexivity ]. }
  split; [ | split; [ | split; [ | split; [ | split ] ] ] ].
  - intros source target weight bidirectional w.
    destruct (init_spec env source target weight bidirectional w)
      as (c & E & (B & _) & LU & H & W).
    exists c. repeat split; try assumption; apply B.
  - intros weight self w. rewrite set_weight_exact.
    eexists (Connection.Build_t _ _ _ _ _ _ _). split; [ reflexivity | ].
    unfold Connection.get_weight.
    cbn [Connection._weight Connection.last_update Connection.weight_history].
    split; [ apply clamp_unit | ]. repeat split.
    exists weight, (ticks w). reflexivity.
  - intros decay_factor self w. unfold Connection.apply_decay.
    rewrite set_weight_exact.
    eexists (Connection.Build_t _ _ _ _ _ _ _). split; [ reflexivity | ].
    unfold Connection.get_weight.
    cbn [Connection._weight Connection.last_update Connection.weight_history].
    split; [ apply clamp_unit | ]. repeat split.
    eexists _, (ticks w). reflexivity.
  - intros neuron1 neuron2 value1 value2 self.
    eapply returns_weaken; [ apply update_connection_kept; exact K0 | ].
    intros r ((L & T & _) & Both & _). auto.
  - intros self.
    eapply returns_weaken; [ apply perform_hebbian_learning_kept; exact Hnet | ].
    intros r (L & T & _). auto.
  - intros targets self E. subst net.
    eapply returns_weaken; [ apply backward_pass_kept; exact Hnet | ].
    intros r (L & T & _). auto.
Qed.
(** ** Conversion of state values *)

(** When [get_neuron_value] returns, it returns the float the entry stands
    for. *)
Lemma get_neuron_value_inv (net : Network.t) (name : string) (f : float) :
  Network.get_neuron_value net name = Ok f -> f = value_of net name.
Proof.
  unfold Network.get_neuron_value, value_of.
  destruct (Dict.get_default (Network.state net) name (VInt 0)) as [ z | x | b | s | ];
    cbn [as_int_or_float normalized]; try (intros E; inversion E; reflexivity).
  unfold to_float. destruct (PrimFloat.is_infinity (float_of_Z z)); intros E;
    inversion E; reflexivity.
Qed.

(** It returns whenever the entry is representable. *)
Lemma get_neuron_value_representable (net : Network.t) (name : string) :
  representable (Dict.get_default (Network.state net) name (VInt 0)) = true ->
  Network.get_neuron_value net name = Ok (value_of net name).
Proof.
  unfold Network.get_neuron_value, value_of.
  destruct (Dict.get_default (Network.state net) name (VInt 0)) as [ z | x | b | s | ];
    cbn [as_int_or_float normalized representable]; try reflexivity.
  unfold to_float. destruct (PrimFloat.is_infinity (float_of_Z z)); [ discriminate | reflexivity ].
Qed.

Lemma in_float_range_get (d : Dict.t string value) (name : string) (v : value) :
  in_float_range d -> Dict.get d name = Some v -> representable v = true.
Proof.
  unfold in_float_range. induction d as [ | [k x] d IH ]; cbn [forallb Dict.get snd];
    [ discriminate | ].
  intros R. apply andb_prop in R. destruct R as (Rx & Rd).
  destruct (keyb name k); [ intros E; inversion E; subst; exact Rx | apply IH; exact Rd ].
Qed.

Lemma in_float_range_set (d : Dict.t string value) (name : string) (v : value) :
  in_float_range d -> representable v = true -> in_float_range (Dict.set d name v).
Proof.
  unfold in_float_range. intros R Rv.
  induction d as [ | [k x] d IH ]; cbn [forallb Dict.set snd] in *.
  - rewrite Rv. reflexivity.
  - apply andb_prop in R. destruct R as (Rx & Rd).
    destruct (keyb name k); cbn [forallb snd].
    + rewrite Rv, Rd. reflexivity.
    + rewrite Rx, (IH Rd). reflexivity.
Qed.

(** In a state within the range of floats every name can be read. *)
Lemma get_neuron_value_in_range (net : Network.t) (name : string) :
  in_float_range (Network.state net) ->
  Network.get_neuron_value net name = Ok (value_of net name).
Proof.
  intros R. apply get_neuron_value_representable. unfold Dict.get_default.
  destruct (Dict.get (Network.state net) name) as [ v | ] eqn:G; [ | reflexivity ].
  exact (in_float_range_get _ R G).
Qed.

(** An integer beyond the range of floats cannot be read. *)
Lemma get_neuron_value_overflow (net : Network.t) (name : string) (z : Z) :
  Dict.get (Network.state net) name = Some (VInt z) ->
  representable (VInt z) = false ->
  Network.get_neuron_value net name = Raise OverflowError.
Proof.
  intros G R. unfold Network.get_neuron_value, Dict.get_default. rewrite G.
  cbn [as_int_or_float representable] in *. unfold to_float.
  destruct (PrimFloat.is_infinity (float_of_Z z)); [ reflexivity | discriminate ].
Qed.

(** ** Propagation *)

Lemma weighted_inputs_count_fold (net : Network.t) (target : string) (l : list string)
    (acc : float * nat) :
  snd (fold_left
         (fun (acc : float * nat) (source : string) =>
            match Dict.get (Network.connections net) (source, target) with
            | Some connection =>
                ((fst acc + value_of net source * Connection.get_weight connection)%float,
                 S (snd acc))
            | None => acc
            end) l acc)
  = (snd acc
     + List.length
         (filter (fun source => Dict.mem (Network.connections net) (source, target)) l))%nat.
Proof.
  revert acc. induction l as [ | s l IH ]; intros [incoming count]; simpl.
  - lia.
  - rewrite IH. unfold Dict.mem.
    destruct (Dict.get (Network.connections net) (s, target)); simpl; lia.
Qed.

Lemma weighted_inputs_count (net : Network.t) (target : string) :
  snd (weighted_inputs net target)
  = List.length
      (filter (fun source => Dict.mem (Network.connections net) (source, target))
         (Dict.keys (Network.neurons net))).
Proof. unfold weighted_inputs. rewrite weighted_inputs_count_fold. reflexivity. Qed.

Lemma count_pos_iff (net : Network.t) (target : string) :
  (0 <? snd (weighted_inputs net target))%nat = true <-> has_incoming net target.
Proof.
  rewrite weighted_inputs_count, Nat.ltb_lt. unfold has_incoming. split.
  - intros L.
    destruct (filter _ _) as [ | s f ] eqn:E; [ simpl in L; lia | ].
    assert (I : In s (filter (fun source => Dict.mem (Network.connections net) (source, target))
                        (Dict.keys (Network.neurons net)))) by (rewrite E; left; reflexivity).
    apply filter_In in I. exists s. exact I.
  - intros (s & I & Hm).
    assert (I' : In s (filter (fun source => Dict.mem (Network.connections net) (source, target))
                         (Dict.keys (Network.neurons net)))) by (apply filter_In; auto).
    destruct (filter _ _); [ contradiction | simpl; lia ].
Qed.

(** The entry of [name] after the loop over an arbitrary list of targets,
    from an arbitrary copy of the state. *)
Lemma stepped_fold_get (net : Network.t) (l : list string) (st : Dict.t string value)
    (name : string) :
  Dict.get
    (fold_left
       (fun (st : Dict.t string value) (target : string) =>
          if (0 <? snd (weighted_inputs net target))%nat
          then Dict.set st target (step_value net target)
          else st)
       l st) name
  = if existsb (String.eqb name) l && (0 <? snd (weighted_inputs net name))%nat
    then Some (step_value net name)
    else Dict.get st name.
Proof.
  revert st. induction l as [ | x l IH ]; intros st; simpl; [ reflexivity | ].
  rewrite IH.
  destruct (String.eqb name x) eqn:E.
  - apply String.eqb_eq in E. subst x. simpl.
    destruct (0 <? snd (weighted_inputs net name))%nat.
    + rewrite andb_true_r. rewrite get_set_same.
      destruct (existsb _ l); reflexivity.
    + rewrite andb_false_r. reflexivity.
  - simpl. destruct (existsb (String.eqb name) l && _); [ reflexivity | ].
    destruct (0 <? snd (weighted_inputs net x))%nat; [ | reflexivity ].
    apply get_set_other. intro N. subst x. rewrite String.eqb_refl in E. discriminate.
Qed.

Lemma stepped_state_get (net : Network.t) (order : list string) (name : string) :
  Dict.get (stepped_state net order) name
  = if existsb (String.eqb name) order && (0 <? snd (weighted_inputs net name))%nat
    then Some (step_value net name)
    else Dict.get (Network.state net) name.
Proof. apply stepped_fold_get. Qed.

Lemma existsb_eqb_In (name : string) (l : list string) :
  existsb (String.eqb name) l = true <-> In name l.
Proof.
  rewrite existsb_exists. split.
  - intros (x & I & E). apply String.eqb_eq in E. subst. exact I.
  - intros I. exists name. split; [ exact I | apply String.eqb_refl ].
Qed.


(** The clamp of [propagate_activation] lands in [[0, 100]], on a value
    that needs no conversion or converts exactly. *)
Lemma step_value_in_range (net : Network.t) (target : string) :
  representable (step_value net target) = true
  /\ in_interval 0 100 (normalized (step_value net target)).
Proof.
  unfold step_value. destruct (weighted_inputs net target) as [incoming count].
  unfold Py.max, Py.min.
  set (v := (_ * 0.7 + _ * 0.3)%float).
  destruct (value_ltb (VFloat v) (VInt 100)) eqn:Hhi.
  - destruct (value_ltb (VInt 0) (VFloat v)) eqn:Hlo.
    + split; [ reflexivity | ].
      split; apply ltb_leb; [ exact Hlo | exact Hhi ].
    + split; [ reflexivity | split; reflexivity ].
  - simpl. split; [ reflexivity | split; reflexivity ].
Qed.

(** The loops of one step, on a network where the values they read can be
    read: each returns what the functions above describe, and leaves the
    clock and the generator alone. *)
Lemma incoming_of_spec (net : Network.t) (target : string) (w : World) :
  (forall source,
     In source (Dict.keys (Network.neurons net)) ->
     Dict.mem (Network.connections net) (source, target) = true ->
     Network.get_neuron_value net source = Ok (value_of net source)) ->
  Network.incoming_of net target w = (Ok (weighted_inputs net target), w).
Proof.
  intros Hread. unfold Network.incoming_of, weighted_inputs.
  apply for_each_fold. intros [incoming count] source I. cbn [fst snd].
  destruct (Dict.get (Network.connections net) (source, target)) as [ c | ] eqn:G;
    [ | reflexivity ].
  unfold bind, lift, ret. rewrite (Hread source I); [ reflexivity | ].
  unfold Dict.mem. rewrite G. reflexivity.
Qed.

Lemma propagate_target_spec (net : Network.t) (st : Dict.t string value) (target : string)
    (w : World) :
  (forall source,
     In source (Dict.keys (Network.neurons net)) ->
     Dict.mem (Network.connections net) (source, target) = true ->
     Network.get_neuron_value net source = Ok (value_of net source)) ->
  (has_incoming net target ->
   Network.get_neuron_value net target = Ok (value_of net target)) ->
  Network.propagate_target net st target w
  = (Ok (if (0 <? snd (weighted_inputs net target))%nat
         then Dict.set st target (step_value net target)
         else st),
     w).
Proof.
  intros Hsources Htarget. unfold Network.propagate_target.
  unfold bind at 1. rewrite (@incoming_of_spec net target w Hsources).
  unfold step_value.
  destruct (weighted_inputs net target) as [incoming count] eqn:Wi. cbn [snd].
  destruct (0 <? count)%nat eqn:C; [ | reflexivity ].
  unfold Network.blended, bind, lift, ret.
  rewrite Htarget; [ reflexivity | ].
  apply count_pos_iff. rewrite Wi. exact C.
Qed.

(** A network whose connected neurons can all be read. *)
Lemma propagate_over_spec (net : Network.t) (order : list string) (w : World) :
  (forall source target,
     In source (Dict.keys (Network.neurons net)) ->
     In target order ->
     Dict.mem (Network.connections net) (source, target) = true ->
     Network.get_neuron_value net source = Ok (value_of net source)
     /\ Network.get_neuron_value net target = Ok (value_of net target)) ->
  for_each order (Network.propagate_target net) (Network.state net) w
  = (Ok (stepped_state net order), w).
Proof.
  intros Hread. unfold stepped_state. apply for_each_fold.
  intros st target I. apply propagate_target_spec.
  - intros source Is M. apply (Hread source target Is I M).
  - intros (source & Is & M). apply (Hread source target Is I M).
Qed.

Lemma propagate_step_in_range (net : Network.t) (w : World) :
  in_float_range (Network.state net) ->
  Network.propagate_step net w = (Ok (stepped net), w).
Proof.
  intros R. unfold Network.propagate_step, stepped, bind.
  rewrite propagate_over_spec; [ reflexivity | ].
  intros source target _ _ _. split; apply get_neuron_value_in_range; exact R.
Qed.


(** Outside that range the step raises: a neuron holding an integer too
    large for a float and feeding a neuron of the network makes
    [propagate_activation] raise [OverflowError]. *)
Lemma propagate_step_overflow :
  let net :=
    Network.set_state [("A"%string, VInt (10 ^ 400)); ("B"%string, VInt 90)] scenario_network in
  fst (Network.propagate_step net world0) = Raise OverflowError.
Proof. vm_compute. reflexivity. Qed.
(** ** Normalization of state values *)

(** What [get_neuron_value] returns for each kind of state value. *)
Lemma get_neuron_value_cases (net : Network.t) (name : string) :
  Network.get_neuron_value net name
  = match Dict.get (Network.state net) name with
    | None => Ok 0%float
    | Some (VInt z) => to_float z
    | Some (VFloat f) => Ok f
    | Some (VBool b) => Ok (if b then 1%float else 0%float)
    | Some (VStr _) => Ok 75%float
    | Some VNone => Ok 0%float
    end.
Proof.
  unfold Network.get_neuron_value, Dict.get_default.
  destruct (Dict.get (Network.state net) name) as [ [ z | f | b | s | ] | ]; reflexivity.
Qed.

(** C1: the boolean [True] is normalized to [1.0], since the numeric test
    comes first and accepts booleans; the branch that would give [100.0] is
    never reached. *)
Theorem get_neuron_value_of_True (net : Network.t) :
  Network.get_neuron_value (network_with_flag net) "A" = Ok 1%float
  /\ Network.get_neuron_value (network_with_flag net) "A" <> Ok 100%float.
Proof.
  split; [ reflexivity | ].
  intros E.
  apply (f_equal (fun r => match r with
                           | Ok x => PrimFloat.ltb x 50
                           | Raise _ => false
                           end)) in E.
  vm_compute in E. discriminate.
Qed.

(** The network of the scenario, built through the interface, and its state
    after the step. *)
Lemma two_neuron_scenario_run (env : Env) (w : World) :
  exists net w',
    two_neuron_scenario env w
    = (Ok ([("A"%string, VInt 80); ("B"%string, VFloat 75)], net), w')
    /\ Network.state net = [("A"%string, VInt 80); ("B"%string, VFloat 75)].
Proof.
  do 2 eexists. split; [ vm_compute; reflexivity | reflexivity ].
Qed.

(** C3: a network with exactly the neurons ["A"] and ["B"] (in either
    order), exactly one connection, from ["A"] to ["B"] with weight 0.5, and
    state values 80 for ["A"] and 90 for ["B"]: one propagation step returns,
    sets ["B"] to the float 75.0 and leaves the entry of ["A"] as it was. *)
Theorem propagate_two_neurons (net : Network.t) (c : Connection.t) (w : World)
    (Hneurons : Permutation (Dict.keys (Network.neurons net)) ["A"%string; "B"%string])
    (Hconns : Network.connections net = [(("A"%string, "B"%string), c)])
    (Hweight : Connection.get_weight c = 0.5%float)
    (HA : Network.get_neuron_value net "A" = Ok 80%float)
    (HB : Network.get_neuron_value net "B" = Ok 90%float) :
  exists st net',
    Network.propagate_activation 1 net w = (Ok (st, net'), w)
    /\ Dict.get st "B"%string = Some (VFloat 75)
    /\ Network.get_neuron_value net' "B" = Ok 75%float
    /\ Dict.get st "A"%string = Dict.get (Network.state net) "A"%string
    /\ Network.get_neuron_value net' "A" = Ok 80%float
    /\ st = Network.state net'.
Proof.
  assert (VA : value_of net "A" = 80%float)
    by (symmetry; apply get_neuron_value_inv; exact HA).
  assert (VB : value_of net "B" = 90%float)
    by (symmetry; apply get_neuron_value_inv; exact HB).
  assert (Hkeys : Dict.keys (Network.neurons net) = ["A"%string; "B"%string]
                  \/ Dict.keys (Network.neurons net) = ["B"%string; "A"%string])
    by (apply Permutation_length_2_inv; symmetry; exact Hneurons).
  assert (EA : existsb (String.eqb "A") (Dict.keys (Network.neurons net)) = true).
  { apply existsb_eqb_In. apply (Permutation_in _ (Permutation_sym Hneurons)). simpl; auto. }
  assert (EB : existsb (String.eqb "B") (Dict.keys (Network.neurons net)) = true).
  { apply existsb_eqb_In. apply (Permutation_in _ (Permutation_sym Hneurons)). simpl; auto. }
  assert (Only : forall source target,
            Dict.mem (Network.connections net) (source, target) = true ->
            source = "A"%string /\ target = "B"%string).
  { intros source target M. rewrite Hconns in M. unfold Dict.mem in M.
    cbn [Dict.get] in M.
    destruct (keyb (source, target) ("A"%string, "B"%string)) eqn:K; [ | discriminate ].
    apply keyb_eq in K. inversion K. split; reflexivity. }
  assert (IB : weighted_inputs net "B" = (40%float, 1%nat)).
  { unfold weighted_inputs. rewrite Hconns.
    destruct Hkeys as [ -> | -> ]; simpl; rewrite VA, Hweight; reflexivity. }
  assert (IA : snd (weighted_inputs net "A") = 0%nat).
  { rewrite weighted_inputs_count, Hconns.
    destruct Hkeys as [ -> | -> ]; reflexivity. }
  assert (Step : Network.propagate_step net w
                 = (Ok (Network.set_state
                          (stepped_state net (Dict.keys (Network.neurons net))) net), w)).
  { unfold Network.propagate_step, bind.
    rewrite propagate_over_spec; [ reflexivity | ].
    intros source target _ _ M. destruct (Only _ _ M) as (-> & ->).
    rewrite HA, HB, VA, VB. split; reflexivity. }
  assert (GB : Dict.get (stepped_state net (Dict.keys (Network.neurons net))) "B"%string
               = Some (VFloat 75)).
  { rewrite stepped_state_get, EB.
    unfold step_value. rewrite IB, VB. reflexivity. }
  assert (GA : Dict.get (stepped_state net (Dict.keys (Network.neurons net))) "A"%string
               = Dict.get (Network.state net) "A"%string).
  { rewrite stepped_state_get, EA, IA. reflexivity. }
  do 2 eexists. split.
  { unfold Network.propagate_activation. cbn [Network.propagate_steps].
    unfold bind. rewrite Step. reflexivity. }
  cbn [Network.state Network.set_state].
  split; [ exact GB | ].
  split.
  { unfold Network.get_neuron_value, Dict.get_default. cbn [Network.state Network.set_state].
    rewrite GB. reflexivity. }
  split; [ exact GA | ].
  split; [ | reflexivity ].
  unfold Network.get_neuron_value, Dict.get_default in *.
  cbn [Network.state Network.set_state]. rewrite GA. exact HA.
Qed.

(** ** Hebbian learning: the debounce *)

Ltac skip := eapply returns_bind; [ apply returns_any | intros ? _ ].

(** A call made while the debounce holds returns the empty list and
    changes neither the helper nor the network; it reads the clock once. *)
Lemma debounced_call (env : Env) (self : HebbianLearning.t) (net : Network.t) (w : World) :
  PrimFloat.ltb (time_time env (ticks w) - HebbianLearning.last_learning_time self) 5 = true ->
  Hebbian.perform_hebbian_learning env self net w = (Ok ([], self, net), later 1 w).
Proof.
  intros D. unfold Hebbian.perform_hebbian_learning. unfold bind at 1. unfold time at 1.
  cbv beta iota. rewrite D. reflexivity.
Qed.

(** [_update_connection] leaves the debounce clock alone. *)
Lemma update_connection_keeps_clock (env : Env) (neuron1 neuron2 : string)
    (value1 value2 : float) (self : HebbianLearning.t) (net : Network.t) :
  returns (Hebbian._update_connection env neuron1 neuron2 value1 value2 self net)
    (fun r => HebbianLearning.last_learning_time (fst r)
              = HebbianLearning.last_learning_time self).
Proof.
  unfold Hebbian._update_connection.
  do 5 skip. destruct a3 as [wf fc]. do 2 skip. destruct a4 as [wb bc]. do 2 skip.
  apply returns_ret. reflexivity.
Qed.

(** A call that gets past the debounce stamps the helper with the time it
    read on entry. *)
Lemma learning_call_stamps (env : Env) (self : HebbianLearning.t) (net : Network.t)
    (w w' : World) (r : list (string * string) * HebbianLearning.t * Network.t) :
  PrimFloat.ltb (time_time env (ticks w) - HebbianLearning.last_learning_time self) 5 = false ->
  Hebbian.perform_hebbian_learning env self net w = (Ok r, w') ->
  HebbianLearning.last_learning_time (snd (fst r)) = time_time env (ticks w).
Proof.
  intros D. unfold Hebbian.perform_hebbian_learning.
  unfold bind at 1. unfold time at 1. cbv beta iota. rewrite D.
  match goal with
  | |- ?X ?w1 = _ -> _ =>
      assert (R : returns X
                    (fun r => HebbianLearning.last_learning_time (snd (fst r))
                              = time_time env (ticks w)))
  end.
  { eapply returns_bind; [ apply returns_any | intros active _ ].
    destruct (_ <? 2)%nat; [ apply returns_ret; reflexivity | ].
    eapply returns_bind; [ apply returns_any | intros sampled _ ].
    apply returns_for_each; [ | reflexivity ].
    intros [[updated self'] net'] [i j] Hacc. cbn [fst snd] in Hacc.
    eapply returns_bind; [ apply returns_any | intros n1 _ ].
    eapply returns_bind; [ apply returns_any | intros n2 _ ].
    eapply returns_bind; [ apply returns_any | intros v1 _ ].
    eapply returns_bind; [ apply returns_any | intros v2 _ ].
    destruct (_ && _); [ | apply returns_ret; exact Hacc ].
    eapply returns_bind; [ apply update_connection_keeps_clock | ].
    intros [s n] H. apply returns_ret. cbn [fst snd] in *. congruence. }
  intros E. specialize (R {| ticks := S (ticks w); draws := draws w |}).
  rewrite E in R. exact R.
Qed.

(** The second of two calls 3 seconds apart does learn when the first one
    was itself debounced: helper built at time 0, calls at times 3 and 6. *)
Lemma second_call_learns :
  Hebbian.perform_hebbian_learning clock_3_then_6 helper_built_at_0 two_active_neurons world0
  = (Ok ([], helper_built_at_0, two_active_neurons), later 1 world0)
  /\ PrimFloat.ltb (time_time clock_3_then_6 1 - time_time clock_3_then_6 0) 5 = true
  /\ exists self2 net2 w2,
       Hebbian.perform_hebbian_learning clock_3_then_6 helper_built_at_0 two_active_neurons
         (later 1 world0)
       = (Ok ([("A"%string, "B"%string)], self2, net2), w2)
       /\ Network.get_connection_strength two_active_neurons "A" "B" = 0%float
       /\ Network.get_connection_strength net2 "A" "B" = 0.07200000000000002%float.
Proof.
  split; [ vm_compute; reflexivity | ].
  split; [ vm_compute; reflexivity | ].
  do 3 eexists. split; [ vm_compute; reflexivity | ].
  split; vm_compute; reflexivity.
Qed.

(** C6, as stated: refuted. *)
Lemma debounce_between_any_two_calls_fails : ~ debounce_between_any_two_calls.
Proof.
  intros claim.
  destruct second_call_learns as (E1 & gap & self2 & net2 & w2 & E2 & _).
  specialize (claim _ _ _ _ _ _ _ _ E1 gap).
  rewrite E2 in claim. discriminate claim.
Qed.

(** C6, amended: when the first of two calls got past the debounce and
    returned, and the second reads a time fewer than 5 seconds later, the
    second returns the empty list and changes neither the helper nor the
    network, whatever the configuration holds. *)
Theorem debounce_after_learning_call (env : Env) (self : HebbianLearning.t)
    (net : Network.t) (w w1 : World) (pairs : list (string * string))
    (self1 : HebbianLearning.t) (net1 : Network.t)
    (Hpast : PrimFloat.ltb (time_time env (ticks w) - HebbianLearning.last_learning_time self) 5
             = false)
    (Hfirst : Hebbian.perform_hebbian_learning env self net w = (Ok (pairs, self1, net1), w1))
    (Hgap : PrimFloat.ltb (time_time env (ticks w1) - time_time env (ticks w)) 5 = true) :
  Hebbian.perform_hebbian_learning env self1 net1 w1 = (Ok ([], self1, net1), later 1 w1).
Proof.
  apply debounced_call.
  pose proof (@learning_call_stamps env self net w w1 _ Hpast Hfirst) as Hstamp.
  cbn [fst snd] in Hstamp. rewrite Hstamp. exact Hgap.
Qed.

(** [initialize_learning] never gets past its imports: the package
    [learning] holds no module [neurogenesis]. *)
Lemma initialize_learning_raises (env : Env) (net : Network.t) (w : World) :
  NetworkLearning.initialize_learning env net w = (Raise ModuleNotFoundError, w).
Proof. reflexivity. Qed.

(** C9: the helper is stamped with the time of its construction, so a call
    that reads a time fewer than 5 seconds later returns the empty list and
    is a no-op on any network, however many neurons are active.  The first
    [perform_learning] of a network without helper does not get that far:
    [initialize_learning] imports modules the package [learning] does not
    hold and raises [ModuleNotFoundError] before any helper is built, with
    the clock untouched. *)
Theorem debounce_starts_at_construction (env : Env) (net0 : Network.t) (w0 : World) :
  (forall net w,
     PrimFloat.ltb (time_time env (ticks w) - time_time env (ticks w0)) 5 = true ->
     exists self,
       Hebbian.init env net0 w0 = (Ok self, later 1 w0)
       /\ HebbianLearning.last_learning_time self = time_time env (ticks w0)
       /\ Hebbian.perform_hebbian_learning env self net w = (Ok ([], self, net), later 1 w))
  /\ (Network.learning net0 = None ->
      NetworkLearning.perform_learning env net0 w0 = (Raise ModuleNotFoundError, w0)).
Proof.
  split.
  - intros net w Hgap. eexists. split; [ reflexivity | ].
    split; [ reflexivity | ].
    apply debounced_call. exact Hgap.
  - intros Hnone.
    unfold NetworkLearning.perform_learning. rewrite Hnone.
    unfold bind. rewrite initialize_learning_raises. reflexivity.
Qed.

(** ** Neurogenesis *)


(** Outside those signals the call raises before it looks at the cooldown:
    [OverflowError] for an integer beyond the range of floats, [TypeError]
    for a string. *)
Lemma check_neurogenesis_rejects_signal :
  fst (Genesis.check_neurogenesis clock_3_then_6
         [("novelty_exposure"%string, VInt (10 ^ 400))]
         helper_with_novelty_2 two_active_neurons world0)
  = Raise OverflowError
  /\ fst (Genesis.check_neurogenesis clock_3_then_6
            [("novelty_exposure"%string, VStr "high")]
            helper_with_novelty_2 two_active_neurons world0)
     = Raise TypeError.
Proof. split; vm_compute; reflexivity. Qed.

(** C8: with a neuron already called ["novel_0"], the novelty trigger that
    fires after the cooldown raises [ValueError] out of [check_neurogenesis];
    with any other first neuron, here ["curiosity"], the same call returns
    [True]. *)
Theorem check_neurogenesis_raises_on_name_clash :
  fst (novelty_after_cooldown "novel_0" world0) = Raise ValueError
  /\ exists self net,
       fst (novelty_after_cooldown "curiosity" world0) = Ok (true, self, net)
       /\ Dict.keys (Network.neurons net) = ["curiosity"%string; "novel_0"%string].
Proof.
  split; [ vm_compute; reflexivity | ].
  do 2 eexists. split; [ vm_compute; reflexivity | reflexivity ].
Qed.

(** ** Persistence *)

(** C5: the network of the builder does not survive [save] then [load]: the
    key ["input_1_output_1"] splits into four pieces and [load] gives up.
    With names free of underscores the same network comes back. *)
Theorem load_save_fails_on_underscore (env : Env) (w : World) :
  (exists net w1,
     feedforward_1_1 env w = (Ok net, w1)
     /\ Dict.keys (Network.connections net) = [("input_1"%string, "output_1"%string)]
     /\ forall w2, fst (Snapshot.load env (Snapshot.save net) w2) = Ok None)
  /\ (exists net w1,
        feedforward_plain env w = (Ok net, w1)
        /\ forall w2, exists net',
             fst (Snapshot.load env (Snapshot.save net) w2) = Ok (Some net')
             /\ Dict.keys (Network.neurons net') = Dict.keys (Network.neurons net)
             /\ Dict.keys (Network.connections net') = Dict.keys (Network.connections net)
             /\ Network.state net' = Network.state net
             /\ Network.get_connection_strength net' "input1" "output1"
                = Network.get_connection_strength net "input1" "output1").
Proof.
  split.
  - do 2 eexists. split; [ vm_compute; reflexivity | ].
    split; [ reflexivity | ]. intros w2. vm_compute. reflexivity.
  - do 2 eexists. split; [ vm_compute; reflexivity | ].
    intros w2. eexists. split; [ vm_compute; reflexivity | ].
    repeat split.
Qed.

(** ** Backpropagation *)

(** C10: on an empty training set, a [train] of at least one epoch raises
    [ZeroDivisionError] without reading the clock or the generator and
    whatever the layers are, even undefined; [test] returns 0. *)
Theorem train_on_empty_data_divides_by_zero (env : Env) (epochs : nat)
    (target_error : float) (callback : option (Z -> float -> bool))
    (self : BackpropNetwork.t) (w : World) (Hepochs : (0 < epochs)%nat) :
  BackpropNetwork.train env [] epochs target_error callback self w
  = (Raise ZeroDivisionError, w)
  /\ BackpropNetwork.test env [] self w = (Ok (0%float, self), w).
Proof.
  destruct epochs as [ | n ]; [ lia | ].
  split; reflexivity.
Qed.

(** ** The theorems at concrete inputs *)

Lemma scenario_network_logged : all_logged (Network.connections scenario_network).
Proof.
  constructor; [ | constructor ].
  split; [ split; reflexivity | ].
  exists [], 6%float. reflexivity.
Defined.

Lemma weights_stay_clamped_and_logged_witness :
  all_logged (Network.connections scenario_network)
  /\ (exists c,
        Connection.init clock_3_then_6 "A" "B" 1000000000%float false world0
        = (Ok c, later 4 world0)
        /\ Connection.get_weight c = 1%float)
  /\ (exists c,
        Connection.init clock_3_then_6 "A" "B" (-5)%float false world0
        = (Ok c, later 4 world0)
        /\ in_interval (-1)%float 1%float (Connection.get_weight c))
  /\ returns
       (Hebbian.perform_hebbian_learning clock_3_then_6 helper_built_at_0 scenario_network)
       (fun r => all_logged (Network.connections (snd r))
                 /\ written_table clock_3_then_6 (Network.connections scenario_network)
                      (Network.connections (snd r))).
Proof.
  pose proof (@weights_stay_clamped_and_logged clock_3_then_6 scenario_network
                scenario_network_logged)
    as (Hinit & _ & _ & _ & Hlearn & _).
  split; [ exact scenario_network_logged | ].
  split.
  - destruct (Hinit "A"%string "B"%string 1000000000%float false world0)
      as (c & E & _ & W & _).
    exists c. split; [ exact E | ].
    rewrite W. reflexivity.
  - split; [ | exact (Hlearn helper_built_at_0) ].
    destruct (Hinit "A"%string "B"%string (-5)%float false world0) as (c & E & B & _).
    exists c. split; [ exact E | exact B ].
Defined.

Lemma propagate_two_neurons_witness :
  exists st net',
    Network.propagate_activation 1 scenario_network world0 = (Ok (st, net'), world0)
    /\ Dict.get st "B"%string = Some (VFloat 75)
    /\ Network.get_neuron_value net' "B" = Ok 75%float
    /\ Dict.get st "A"%string = Dict.get (Network.state scenario_network) "A"%string
    /\ Network.get_neuron_value net' "A" = Ok 80%float
    /\ st = Network.state net'.
Proof.
  eapply (@propagate_two_neurons scenario_network).
  - apply Permutation_refl.
  - reflexivity.
  - reflexivity.
  - reflexivity.
  - reflexivity.
Defined.


Lemma debounce_after_learning_call_witness :
  exists pairs self1 net1 w1,
    Hebbian.perform_hebbian_learning clock_6_then_8 helper_built_at_0 two_active_neurons world0
    = (Ok (pairs, self1, net1), w1)
    /\ pairs = [("A"%string, "B"%string)]
    /\ Hebbian.perform_hebbian_learning clock_6_then_8 self1 net1 w1
       = (Ok ([], self1, net1), later 1 w1).
Proof.
  do 4 eexists. split; [ vm_compute; reflexivity | ].
  split; [ reflexivity | ].
  eapply (@debounce_after_learning_call clock_6_then_8 helper_built_at_0 two_active_neurons
            world0).
  - vm_compute; reflexivity.
  - vm_compute; reflexivity.
  - vm_compute; reflexivity.
Defined.


Lemma debounce_starts_at_construction_witness :
  (exists self,
     Hebbian.init clock_3_then_6 two_active_neurons world0 = (Ok self, later 1 world0)
     /\ HebbianLearning.last_learning_time self = 3%float
     /\ Hebbian.perform_hebbian_learning clock_3_then_6 self two_active_neurons
          (later 1 world0)
        = (Ok ([], self, two_active_neurons), later 2 world0))
  /\ NetworkLearning.perform_learning clock_3_then_6 two_active_neurons world0
     = (Raise ModuleNotFoundError, world0).
Proof.
  destruct (debounce_starts_at_construction clock_3_then_6 two_active_neurons world0)
    as (PA & PB).
  split.
  - apply (PA two_active_neurons (later 1 world0)). reflexivity.
  - apply PB; reflexivity.
Defined.

Lemma train_on_empty_data_witness :
  BackpropNetwork.train clock_3_then_6 [] 100 0.01%float None
    (BackpropNetwork.init two_active_neurons) world0
  = (Raise ZeroDivisionError, world0)
  /\ BackpropNetwork.test clock_3_then_6 [] (BackpropNetwork.init two_active_neurons) world0
     = (Ok (0%float, BackpropNetwork.init two_active_neurons), world0).
Proof.
  apply train_on_empty_data_divides_by_zero. lia.
Defined.

(** * Further properties of the engine *)

(** ** Bounded histories *)

Lemma last_n_length {A} (n : nat) (l : list A) :
  List.length (last_n n l) = Nat.min n (List.length l).
Proof. unfold last_n. rewrite length_skipn. lia. Qed.

(** The history of a connection holds at most 100 entries after a write,
    provided it did before: it grows by one until it is full, then the
    oldest entry is dropped. *)
Theorem set_weight_history_capped (env : Env) (weight : float) (self : Connection.t)
    (w : World) (Hcap : (List.length (Connection.weight_history self) <= 100)%nat) :
  exists c,
    fst (Connection.set_weight env weight self w) = Ok (Connection.get_weight c, c)
    /\ List.length (Connection.weight_history c)
       = Nat.min (S (List.length (Connection.weight_history self))) 100
    /\ Connection.weight_history c
       = last_n 100
           (Connection.weight_history self
              ++ [(time_time env (S (ticks w)), Connection.get_weight c)]).
Proof.
  unfold Connection.set_weight, bind, time, ret; simpl.
  eexists (Connection.Build_t _ _ _ _ _ _ _). split; [ reflexivity | ]. simpl.
  set (e := (time_time env (S (ticks w)), _)).
  assert (L : List.length (Connection.weight_history self ++ [e])
              = S (List.length (Connection.weight_history self)))
    by (rewrite length_app; simpl; lia).
  destruct (100 <? _)%nat eqn:C.
  - split; [ rewrite last_n_length, L; lia | reflexivity ].
  - apply Nat.ltb_ge in C. split; [ lia | ].
    unfold last_n. replace (_ - 100)%nat with 0%nat by lia. reflexivity.
Qed.

Lemma set_weight_history_capped_witness :
  exists c,
    fst (Connection.set_weight clock_3_then_6 0.25%float connection_A_B world0)
    = Ok (Connection.get_weight c, c)
    /\ List.length (Connection.weight_history c) = 2%nat
    /\ Connection.weight_history c = [(6%float, 0.5%float); (6%float, 0.25%float)].
Proof.
  destruct (@set_weight_history_capped clock_3_then_6 0.25%float connection_A_B world0)
    as (c & E & L & H).
  - simpl. lia.
  - exists c. split; [ exact E | ]. split; [ exact L | ].
    vm_compute in E. inversion E. subst c. reflexivity.
Defined.

(** [record_activity] keeps a history that fits within [max_history]
    within that bound, the newest value last; a history already longer
    than [max_history] is not cut down to it, it only stops growing. *)
Theorem record_activity_bounded (value : float) (max_history : nat) (self : Neuron.t) :
  let self' := Neuron.record_activity value max_history self in
  ((List.length (Neuron.activity_history self) <= max_history)%nat ->
     List.length (Neuron.activity_history self')
     = Nat.min (S (List.length (Neuron.activity_history self))) max_history
     /\ ((0 < max_history)%nat ->
         exists older, Neuron.activity_history self' = older ++ [value]))
  /\ ((max_history < List.length (Neuron.activity_history self))%nat ->
        List.length (Neuron.activity_history self')
        = List.length (Neuron.activity_history self))
  /\ Neuron.name self' = Neuron.name self
  /\ Neuron.position self' = Neuron.position self.
Proof.
  unfold Neuron.record_activity.
  cbn [Neuron.activity_history Neuron.name Neuron.position].
  generalize (Neuron.activity_history self). intros h.
  assert (L : List.length (h ++ [value]) = S (List.length h))
    by (rewrite length_app; simpl; lia).
  split; [ | split; [ | split; reflexivity ] ].
  - intros Hfit. destruct (max_history <? _)%nat eqn:C.
    + apply Nat.ltb_lt in C. rewrite L in C.
      assert (E : List.length h = max_history) by lia.
      split.
      * destruct h as [ | x h' ]; cbn [app tl List.length] in *; [ lia | ].
        rewrite length_app. cbn [List.length]. lia.
      * intros Hpos. destruct h as [ | x h' ]; cbn [app tl List.length] in *; [ lia | ].
        exists h'. reflexivity.
    + apply Nat.ltb_ge in C. rewrite L in *. split; [ lia | ].
      intros _. exists h. reflexivity.
  - intros Hlong.
    assert (C : (max_history <? List.length (h ++ [value]))%nat = true)
      by (apply Nat.ltb_lt; lia).
    rewrite C. destruct h as [ | x h' ]; cbn [app tl List.length] in *; [ lia | ].
    rewrite length_app. cbn [List.length]. lia.
Qed.

Lemma record_activity_bounded_witness :
  List.length
    (Neuron.activity_history
       (Neuron.record_activity 5 1 (Neuron.record_activity 4 1 (Neuron.init "A" None "default" None))))
  = 1%nat.
Proof.
  refine (proj1 (proj1 (@record_activity_bounded 5 1
                          (Neuron.record_activity 4 1 (Neuron.init "A" None "default" None))) _)).
  simpl. lia.
Defined.

(** ** Building the graph *)

(** What [get_neuron_value] makes of the entry of a name: the conversion
    of a number, which raises for an integer beyond the range of floats,
    and the float any other value stands for. *)
Lemma get_neuron_value_entry (net : Network.t) (name : string) :
  Network.get_neuron_value net name
  = match as_int_or_float (Dict.get_default (Network.state net) name (VInt 0)) with
    | Some converted => converted
    | None => Ok (normalized (Dict.get_default (Network.state net) name (VInt 0)))
    end.
Proof.
  unfold Network.get_neuron_value, normalized.
  destruct (Dict.get_default (Network.state net) name (VInt 0)) as [ z | f | [ | ] | s | ];
    reflexivity.
Qed.

(** [add_neuron] raises [ValueError] exactly when the name is taken, and
    then changes nothing; otherwise the neuron is stored under its name with
    the given initial state, and no other neuron, state entry or connection
    is touched.  It reads neither the clock nor the generator. *)
Theorem add_neuron_spec (name : string) (initial_state : value)
    (position : option (float * float)) (neuron_type : string)
    (attributes : option (Dict.t string value)) (net : Network.t) (w : World) :
  (Dict.mem (Network.neurons net) name = true ->
     Network.add_neuron name initial_state position neuron_type attributes net w
     = (Raise ValueError, w))
  /\ (Dict.mem (Network.neurons net) name = false ->
        exists neuron net',
          Network.add_neuron name initial_state position neuron_type attributes net w
          = (Ok (neuron, net'), w)
          /\ Dict.get (Network.neurons net') name = Some neuron
          /\ Neuron.name neuron = name
          /\ Neuron.type neuron = neuron_type
          /\ Neuron.activity_history neuron = []
          /\ Dict.get (Network.state net') name = Some initial_state
          /\ Network.get_neuron_value net' name
             = match as_int_or_float initial_state with
               | Some converted => converted
               | None => Ok (normalized initial_state)
               end
          /\ Network.connections net' = Network.connections net
          /\ forall other, other <> name ->
               Dict.get (Network.neurons net') other = Dict.get (Network.neurons net) other
               /\ Dict.get (Network.state net') other = Dict.get (Network.state net) other).
Proof.
  unfold Network.add_neuron. split; intros Hm; rewrite Hm; [ reflexivity | ].
  do 2 eexists. split; [ reflexivity | ].
  cbn [Network.neurons Network.state Network.connections Network.set_neurons
         Network.set_state].
  split; [ apply get_set_same | ].
  split; [ reflexivity | ]. split; [ reflexivity | ]. split; [ reflexivity | ].
  split; [ apply get_set_same | ].
  split.
  { rewrite get_neuron_value_entry. unfold Dict.get_default.
    cbn [Network.state Network.set_state Network.set_neurons].
    rewrite get_set_same. reflexivity. }
  split; [ reflexivity | ].
  intros other N. split; apply get_set_other; exact N.
Qed.

Lemma add_neuron_spec_witness :
  Network.add_neuron "A" (VInt 7) None "default" None two_active_neurons world0
  = (Raise ValueError, world0)
  /\ exists neuron net',
       Network.add_neuron "C" (VStr "on") None "default" None two_active_neurons world0
       = (Ok (neuron, net'), world0)
       /\ Network.get_neuron_value net' "C" = Ok 75%float
       /\ Network.get_neuron_value net' "A" = Ok 80%float.
Proof.
  split.
  - apply (proj1 (add_neuron_spec "A" (VInt 7) None "default" None two_active_neurons world0)).
    reflexivity.
  - destruct (proj2 (add_neuron_spec "C" (VStr "on") None "default" None
                       two_active_neurons world0) eq_refl)
      as (neuron & net' & E & _ & _ & _ & _ & _ & V & _ & O).
    exists neuron, net'. split; [ exact E | ]. split; [ exact V | ].
    unfold Network.get_neuron_value, Dict.get_default.
    rewrite (proj2 (O "A"%string ltac:(discriminate))). reflexivity.
Defined.

(** [connect] raises [ValueError] when an endpoint is not a neuron, and is
    otherwise total: the pair holds a new connection with the clamped weight
    and a history of one entry, replacing whatever connection it held.  A
    bidirectional call creates the reverse connection only if there is none
    yet; an existing reverse connection is left as it is, weight included.
    No other connection changes. *)
Theorem connect_spec (env : Env) (source target : string) (weight : float)
    (bidirectional : bool) (net : Network.t) (w : World) :
  (Dict.mem (Network.neurons net) source = false
   \/ Dict.mem (Network.neurons net) target = false ->
     Network.connect env source target weight bidirectional net w = (Raise ValueError, w))
  /\ (Dict.mem (Network.neurons net) source = true ->
      Dict.mem (Network.neurons net) target = true ->
      exists c net' w',
        Network.connect env source target weight bidirectional net w = (Ok (c, net'), w')
        /\ Dict.get (Network.connections net') (source, target) = Some c
        /\ Connection.get_weight c = clamp_unit_weight weight
        /\ Connection.bidirectional c = bidirectional
        /\ List.length (Connection.weight_history c) = 1%nat
        /\ Network.neurons net' = Network.neurons net
        /\ Network.state net' = Network.state net
        /\ (forall key, key <> (source, target) -> key <> (target, source) ->
              Dict.get (Network.connections net') key
              = Dict.get (Network.connections net) key)
        /\ ((target, source) <> (source, target) ->
            if bidirectional
            then match Dict.get (Network.connections net) (target, source) with
                 | Some old =>
                     Dict.get (Network.connections net') (target, source) = Some old
                 | None =>
                     exists r,
                       Dict.get (Network.connections net') (target, source) = Some r
                       /\ Connection.get_weight r = clamp_unit_weight weight
                       /\ Connection.bidirectional r = true
                 end
            else Dict.get (Network.connections net') (target, source)
                 = Dict.get (Network.connections net) (target, source))).
Proof.
  unfold Network.connect. split.
  - intros [ Hs | Ht ].
    + rewrite Hs. reflexivity.
    + rewrite Ht. destruct (negb _); reflexivity.
  - intros Hs Ht. rewrite Hs, Ht. cbn [negb].
    destruct (init_spec env source target weight bidirectional w)
      as (c & E & _ & _ & Hh & Hw).
    assert (Hb : Connection.bidirectional c = bidirectional).
    { unfold Connection.init, Connection.set_weight, bind, time, ret in E.
      cbn in E. inversion E. reflexivity. }
    assert (Hl : List.length (Connection.weight_history c) = 1%nat)
      by (rewrite Hh; reflexivity).
    unfold bind at 1. rewrite E.
    cbn [Network.connections Network.set_connections].
    destruct bidirectional.
    + cbn [andb].
      destruct (Dict.mem (Dict.set (Network.connections net) (source, target) c)
                  (target, source)) eqn:Hrev; cbn [negb].
      * (* the reverse connection exists already, or the pair is a loop *)
        exists c. eexists. eexists. split; [ reflexivity | ].
        cbn [Network.connections Network.set_connections Network.neurons Network.state].
        split; [ apply get_set_same | ].
        split; [ exact Hw | ]. split; [ exact Hb | ]. split; [ exact Hl | ].
        split; [ reflexivity | ]. split; [ reflexivity | ].
        split; [ intros key N1 N2; apply get_set_other; exact N1 | ].
        intros N. rewrite get_set_other by exact N.
        rewrite mem_set_other in Hrev by exact N.
        apply mem_get in Hrev. destruct Hrev as (old & Hold). rewrite Hold. reflexivity.
      * destruct (init_spec env target source weight true (later 4 w))
          as (r & Er & _ & _ & _ & Hwr).
        assert (Hbr : Connection.bidirectional r = true).
        { unfold Connection.init, Connection.set_weight, bind, time, ret in Er.
          cbn in Er. inversion Er. reflexivity. }
        unfold bind at 1. rewrite Er.
        exists c. eexists. eexists. split; [ reflexivity | ].
        cbn [Network.connections Network.set_connections Network.neurons Network.state].
        assert (N : (target, source) <> (source, target)).
        { intros Eq. rewrite Eq in Hrev. rewrite mem_set_same in Hrev. discriminate. }
        split; [ rewrite get_set_other by (intro X; apply N; symmetry; exact X);
                 apply get_set_same | ].
        split; [ exact Hw | ]. split; [ exact Hb | ]. split; [ exact Hl | ].
        split; [ reflexivity | ]. split; [ reflexivity | ].
        split.
        { intros key N1 N2. rewrite get_set_other by exact N2.
          apply get_set_other. exact N1. }
        intros _. rewrite mem_set_other in Hrev by exact N.
        unfold Dict.mem in Hrev.
        destruct (Dict.get (Network.connections net) (target, source)); [ discriminate | ].
        exists r. split; [ apply get_set_same | ]. split; [ exact Hwr | exact Hbr ].
    + cbn [andb].
      exists c. eexists. eexists. split; [ reflexivity | ].
      cbn [Network.connections Network.set_connections Network.neurons Network.state].
      split; [ apply get_set_same | ].
      split; [ exact Hw | ]. split; [ exact Hb | ]. split; [ exact Hl | ].
      split; [ reflexivity | ]. split; [ reflexivity | ].
      split; [ intros key N1 N2; apply get_set_other; exact N1 | ].
      intros N. apply get_set_other. exact N.
Qed.

Lemma connect_spec_witness :
  Network.connect clock_3_then_6 "A" "Z" 0.5%float false two_active_neurons world0
  = (Raise ValueError, world0)
  /\ exists c net' w',
       Network.connect clock_3_then_6 "A" "B" 5%float true two_active_neurons world0
       = (Ok (c, net'), w')
       /\ Connection.get_weight c = 1%float
       /\ exists r, Dict.get (Network.connections net') ("B"%string, "A"%string) = Some r
                    /\ Connection.get_weight r = 1%float.
Proof.
  destruct (connect_spec clock_3_then_6 "A" "Z" 0.5%float false two_active_neurons world0)
    as (Hmissing & _).
  destruct (connect_spec clock_3_then_6 "A" "B" 5%float true two_active_neurons world0)
    as (_ & Hok).
  split; [ apply Hmissing; right; reflexivity | ].
  destruct (Hok eq_refl eq_refl) as (c & net' & w' & E & _ & Hw & _ & _ & _ & _ & _ & Hrev).
  exists c, net', w'. split; [ exact E | ]. split; [ exact Hw | ].
  specialize (Hrev ltac:(discriminate)). cbn in Hrev.
  destruct Hrev as (r & Hr & Hwr & _). exists r. split; [ exact Hr | exact Hwr ].
Defined.

(** ** Updating the state *)

Lemma keys_set_mem {K V} `{Key K} (d : Dict.t K V) (k : K) (v : V) :
  Dict.mem d k = true -> Dict.keys (Dict.set d k v) = Dict.keys d.
Proof.
  unfold Dict.mem, Dict.keys. induction d as [ | [k0 v0] d IH ]; simpl; [ discriminate | ].
  destruct (keyb k k0); simpl; [ reflexivity | ].
  intro M. rewrite IH; [ reflexivity | exact M ].
Qed.

Lemma get_not_in_keys {K V} `{Key K} (d : Dict.t K V) (k : K) :
  ~ In k (Dict.keys d) -> Dict.get d k = None.
Proof.
  induction d as [ | [k0 v0] d IH ]; simpl; [ reflexivity | ].
  intros N. destruct (keyb k k0) eqn:E.
  - apply keyb_eq in E. subst. exfalso. apply N. left. reflexivity.
  - apply IH. intros I. apply N. right. exact I.
Qed.

Lemma update_state_fold (l : Dict.t string value) :
  NoDup (Dict.keys l) ->
  forall net : Network.t,
  let net' := fold_left updated_by l net in
  Dict.keys (Network.state net') = Dict.keys (Network.state net)
  /\ Dict.keys (Network.neurons net') = Dict.keys (Network.neurons net)
  /\ Network.connections net' = Network.connections net
  /\ Network.update_count net' = Network.update_count net
  /\ Network.config net' = Network.config net
  /\ Network.learning net' = Network.learning net
  /\ Network.neurogenesis net' = Network.neurogenesis net
  /\ Network.excluded_neurons net' = Network.excluded_neurons net
  /\ Network.creation_time net' = Network.creation_time net
  /\ (forall name,
        Dict.get (Network.state net') name
        = updated_entry l name (Dict.get (Network.state net) name))
  /\ (forall name,
        Dict.get (Network.neurons net') name
        = option_map (updated_neuron l name (Dict.get (Network.state net) name))
            (Dict.get (Network.neurons net) name)).
Proof.
  induction l as [ | [k v] l IH ]; intros ND net.
  - cbn. repeat split; try reflexivity.
    + intros name. unfold updated_entry, Dict.get_default. cbn.
      destruct (Dict.get (Network.state net) name); reflexivity.
    + intros name. unfold updated_neuron. cbn.
      destruct (Dict.get (Network.neurons net) name); cbn; [ | reflexivity ].
      destruct (Dict.get (Network.state net) name); reflexivity.
  - cbn [Dict.keys map fst] in ND. inversion ND as [ | k' ks Hk ND' ]; subst.
    fold (Dict.keys l) in Hk, ND'.
    cbn [fold_left].
    set (net1 := updated_by net (k, v)).
    specialize (IH ND' net1). cbv zeta in IH.
    destruct IH as (I1 & I2 & I3 & I4 & I5 & I6 & I7 & I8 & I9 & I10 & I11).
    assert (Hl : Dict.get l k = None) by (apply get_not_in_keys; exact Hk).
    destruct (Dict.mem (Network.state net) k) eqn:Hm.
    + (* the key is tracked *)
      assert (S1 : Network.state net1 = Dict.set (Network.state net) k v).
      { subst net1. unfold updated_by. rewrite Hm. cbv zeta.
        cbn [Network.neurons Network.set_state].
        destruct (Dict.get (Network.neurons net) k); reflexivity. }
      assert (N1 : forall name,
                 Dict.get (Network.neurons net1) name
                 = if String.eqb name k
                   then option_map (Neuron.record_activity (normalized v) 10)
                          (Dict.get (Network.neurons net) k)
                   else Dict.get (Network.neurons net) name).
      { intros name. subst net1. unfold updated_by. rewrite Hm. cbv zeta.
        cbn [Network.neurons Network.set_state].
        destruct (String.eqb name k) eqn:E.
        - apply String.eqb_eq in E. subst name.
          destruct (Dict.get (Network.neurons net) k) as [ n | ] eqn:G.
          + cbn [Network.neurons Network.set_neurons option_map].
            rewrite get_set_same. reflexivity.
          + cbn [option_map]. exact G.
        - destruct (Dict.get (Network.neurons net) k) as [ n | ]; [ | reflexivity ].
          cbn [Network.neurons Network.set_neurons].
          apply get_set_other. intros X. subst. rewrite String.eqb_refl in E. discriminate. }
      assert (K1 : Dict.keys (Network.neurons net1) = Dict.keys (Network.neurons net)).
      { subst net1. unfold updated_by. rewrite Hm. cbv zeta.
        cbn [Network.neurons Network.set_state].
        destruct (Dict.get (Network.neurons net) k) as [ n | ] eqn:G; [ | reflexivity ].
        cbn [Network.neurons Network.set_neurons].
        apply keys_set_mem. unfold Dict.mem. rewrite G. reflexivity. }
      assert (F1 : Network.connections net1 = Network.connections net
                   /\ Network.update_count net1 = Network.update_count net
                   /\ Network.config net1 = Network.config net
                   /\ Network.learning net1 = Network.learning net
                   /\ Network.neurogenesis net1 = Network.neurogenesis net
                   /\ Network.excluded_neurons net1 = Network.excluded_neurons net
                   /\ Network.creation_time net1 = Network.creation_time net).
      { subst net1. unfold updated_by. rewrite Hm. cbv zeta.
        cbn [Network.neurons Network.set_state].
        destruct (Dict.get (Network.neurons net) k); repeat split; reflexivity. }
      destruct F1 as (F3 & F4 & F5 & F6 & F7 & F8 & F9).
      split; [ rewrite I1, S1; apply keys_set_mem; exact Hm | ].
      split; [ rewrite I2; exact K1 | ].
      split; [ congruence | ]. split; [ congruence | ]. split; [ congruence | ].
      split; [ congruence | ]. split; [ congruence | ]. split; [ congruence | ].
      split; [ congruence | ].
      split.
      * intros name. rewrite I10, S1. unfold updated_entry, Dict.get_default.
        cbn [Dict.get]. change (@keyb string string_Key name k) with (String.eqb name k).
        destruct (String.eqb name k) eqn:E.
        -- apply String.eqb_eq in E. subst name. rewrite get_set_same, Hl.
           apply mem_get in Hm. destruct Hm as (old & Hold). rewrite Hold. reflexivity.
        -- rewrite get_set_other
             by (intros X; subst; rewrite String.eqb_refl in E; discriminate).
           reflexivity.
      * intros name. rewrite I11, N1, S1. unfold updated_neuron.
        cbn [Dict.get]. change (@keyb string string_Key name k) with (String.eqb name k).
        destruct (String.eqb name k) eqn:E.
        -- apply String.eqb_eq in E. subst name. rewrite get_set_same, Hl.
           apply mem_get in Hm. destruct Hm as (old & Hold). rewrite Hold.
           destruct (Dict.get (Network.neurons net) k); reflexivity.
        -- rewrite get_set_other
             by (intros X; subst; rewrite String.eqb_refl in E; discriminate).
           reflexivity.
    + (* the key is not tracked: the item is ignored *)
      subst net1. unfold updated_by in *. rewrite Hm in *.
      split; [ exact I1 | ]. split; [ exact I2 | ].
      split; [ exact I3 | ]. split; [ exact I4 | ]. split; [ exact I5 | ].
      split; [ exact I6 | ]. split; [ exact I7 | ]. split; [ exact I8 | ].
      split; [ exact I9 | ].
      assert (Hnone : Dict.get (Network.state net) k = None).
      { unfold Dict.mem in Hm. destruct (Dict.get (Network.state net) k); [ discriminate | reflexivity ]. }
      split.
      * intros name. rewrite I10. unfold updated_entry, Dict.get_default.
        cbn [Dict.get]. change (@keyb string string_Key name k) with (String.eqb name k).
        destruct (String.eqb name k) eqn:E; [ | reflexivity ].
        apply String.eqb_eq in E. subst name. rewrite Hnone. reflexivity.
      * intros name. rewrite I11. unfold updated_neuron.
        cbn [Dict.get]. change (@keyb string string_Key name k) with (String.eqb name k).
        destruct (String.eqb name k) eqn:E; [ | reflexivity ].
        apply String.eqb_eq in E. subst name. rewrite Hnone. reflexivity.
Qed.

Lemma in_float_range_in (d : Dict.t string value) (item : string * value) :
  in_float_range d -> In item d -> representable (snd item) = true.
Proof.
  unfold in_float_range. intros R I.
  exact (proj1 (forallb_forall _ d) R item I).
Qed.

(** The loop of [update_state] on values within the range of floats. *)
Lemma update_state_body (self : Network.t) (item : string * value) (w : World) :
  representable (snd item) = true ->
  (let (name, value) := item in
   if Dict.mem (Network.state self) name then
     let self := Network.set_state (Dict.set (Network.state self) name value) self in
     match Dict.get (Network.neurons self) name with
     | Some neuron =>
         numeric <- lift (Network.get_neuron_value self name) ;;
         let neuron := Neuron.record_activity numeric 10 neuron in
         ret (Network.set_neurons (Dict.set (Network.neurons self) name neuron) self)
     | None => ret self
     end
   else ret self) w
  = (Ok (updated_by self item), w).
Proof.
  destruct item as [name value]. cbn [snd]. intros R. unfold updated_by.
  destruct (Dict.mem (Network.state self) name); [ | reflexivity ].
  cbv zeta. cbn [Network.neurons Network.set_state].
  destruct (Dict.get (Network.neurons self) name) as [ neuron | ]; [ | reflexivity ].
  unfold bind, lift, ret.
  rewrite get_neuron_value_representable.
  - unfold value_of, Dict.get_default. cbn [Network.state Network.set_state].
    rewrite get_set_same. reflexivity.
  - unfold Dict.get_default. cbn [Network.state Network.set_state].
    rewrite get_set_same. exact R.
Qed.

(** [update_state] with values that are not integers beyond the range of
    floats returns, never adds a key to the state and never adds a neuron:
    an entry the state tracks takes the new value when the update has one,
    any other key of the update is ignored.  A neuron whose entry is
    updated records the normalized value in its activity history.  The
    call counts as one update and stamps the network with the clock. *)
Theorem update_state_spec (env : Env) (new_state : Dict.t string value)
    (net : Network.t) (w : World) (Hdict : NoDup (Dict.keys new_state))
    (Hrange : in_float_range new_state) :
  exists net',
    Network.update_state env new_state net w = (Ok (Network.state net', net'), later 1 w)
    /\ Dict.keys (Network.state net') = Dict.keys (Network.state net)
    /\ Dict.keys (Network.neurons net') = Dict.keys (Network.neurons net)
    /\ Network.connections net' = Network.connections net
    /\ Network.update_count net' = (Network.update_count net + 1)%Z
    /\ Network.last_update_time net' = time_time env (ticks w)
    /\ (forall name,
          Dict.get (Network.state net') name
          = updated_entry new_state name (Dict.get (Network.state net) name))
    /\ (forall name,
          Dict.get (Network.neurons net') name
          = option_map (updated_neuron new_state name (Dict.get (Network.state net) name))
              (Dict.get (Network.neurons net) name)).
Proof.
  pose proof (@update_state_fold new_state Hdict net) as F. cbv zeta in F.
  destruct F as (I1 & I2 & I3 & I4 & _ & _ & _ & _ & _ & I10 & I11).
  unfold Network.update_state, Dict.items. unfold bind at 1.
  rewrite (@for_each_fold _ _ updated_by _ new_state w);
    [ | intros s x I; apply update_state_body; exact (in_float_range_in _ Hrange I) ].
  unfold bind, time, ret. cbv zeta.
  eexists (Network.Build_t _ _ _ _ _ _ _ _ _ _). split; [ reflexivity | ].
  cbn [Network.state Network.neurons Network.connections Network.update_count
         Network.last_update_time].
  split; [ exact I1 | ]. split; [ exact I2 | ]. split; [ exact I3 | ].
  split; [ rewrite I4; reflexivity | ]. split; [ reflexivity | ].
  split; [ exact I10 | exact I11 ].
Qed.

Lemma update_state_spec_witness :
  exists net',
    Network.update_state clock_3_then_6
      [("A"%string, VBool true); ("ghost"%string, VInt 1)] two_active_neurons world0
    = (Ok (Network.state net', net'), later 1 world0)
    /\ Network.state net' = [("A"%string, VBool true); ("B"%string, VInt 90)]
    /\ Network.update_count net' = 1%Z
    /\ option_map Neuron.activity_history (Dict.get (Network.neurons net') "A"%string)
       = Some [1%float].
Proof.
  destruct (@update_state_spec clock_3_then_6
              [("A"%string, VBool true); ("ghost"%string, VInt 1)] two_active_neurons world0)
    as (net' & E & _ & _ & _ & C & _ & _ & N).
  - repeat constructor; simpl; intuition discriminate.
  - reflexivity.
  - exists net'. split; [ exact E | ].
    split; [ vm_compute in E; inversion E; reflexivity | ].
    split; [ exact C | ].
    rewrite N. reflexivity.
Defined.
(** ** Propagation over several steps *)

Lemma stepped_frame (net : Network.t) :
  Network.neurons (stepped net) = Network.neurons net
  /\ Network.connections (stepped net) = Network.connections net.
Proof. unfold stepped. cbn. auto. Qed.

Lemma stepped_times_frame (steps : nat) (net : Network.t) :
  Network.neurons (stepped_times steps net) = Network.neurons net
  /\ Network.connections (stepped_times steps net) = Network.connections net.
Proof.
  revert net. induction steps as [ | n IH ]; intros net; cbn [stepped_times].
  - auto.
  - destruct (IH (stepped net)) as (A & B).
    destruct (stepped_frame net) as (A' & B').
    split; congruence.
Qed.

Lemma stepped_times_last (steps : nat) (net : Network.t) :
  stepped_times (S steps) net = stepped (stepped_times steps net).
Proof.
  revert net. induction steps as [ | n IH ]; intros net.
  - reflexivity.
  - change (stepped_times (S (S n)) net) with (stepped_times (S n) (stepped net)).
    rewrite IH. reflexivity.
Qed.

Lemma has_incoming_frame (net net' : Network.t) (target : string) :
  Network.neurons net' = Network.neurons net ->
  Network.connections net' = Network.connections net ->
  has_incoming net target -> has_incoming net' target.
Proof.
  intros En Ec (s & I & M). exists s. rewrite En, Ec. auto.
Qed.

(** A step keeps the state within the range of floats: what it writes is a
    float or one of the integers 0 and 100. *)
Lemma stepped_keeps_range (net : Network.t) :
  in_float_range (Network.state net) -> in_float_range (Network.state (stepped net)).
Proof.
  intros R. unfold stepped, stepped_state. cbn [Network.state Network.set_state].
  generalize (Dict.keys (Network.neurons net)). intros order.
  revert R. generalize (Network.state net). intros st R.
  revert st R. induction order as [ | target order IH ]; intros st R; cbn [fold_left].
  - exact R.
  - apply IH.
    destruct (0 <? snd (weighted_inputs net target))%nat; [ | exact R ].
    apply in_float_range_set; [ exact R | ].
    apply (proj1 (step_value_in_range net target)).
Qed.

Lemma stepped_times_keeps_range (steps : nat) (net : Network.t) :
  in_float_range (Network.state net) ->
  in_float_range (Network.state (stepped_times steps net)).
Proof.
  revert net. induction steps as [ | n IH ]; intros net R; cbn [stepped_times].
  - exact R.
  - apply IH. apply stepped_keeps_range. exact R.
Qed.

(** The steps return, one after the other, on a state within the range
    of floats. *)
Lemma propagate_steps_in_range (steps : nat) (net : Network.t) (w : World) :
  in_float_range (Network.state net) ->
  Network.propagate_steps steps net w = (Ok (stepped_times steps net), w).
Proof.
  revert net. induction steps as [ | n IH ]; intros net R;
    cbn [Network.propagate_steps stepped_times].
  - reflexivity.
  - unfold bind. rewrite propagate_step_in_range by exact R.
    apply IH. apply stepped_keeps_range. exact R.
Qed.

(** After one step, a neuron with an incoming connection is in range. *)
Lemma stepped_in_interval (net : Network.t) (target : string) :
  In target (Dict.keys (Network.neurons net)) ->
  has_incoming net target ->
  exists f,
    Network.get_neuron_value (stepped net) target = Ok f /\ in_interval 0 100 f.
Proof.
  intros Htarget Hin. apply count_pos_iff in Hin.
  assert (G : Dict.get (Network.state (stepped net)) target
              = Some (step_value net target)).
  { unfold stepped. cbn [Network.state Network.set_state].
    rewrite stepped_state_get.
    rewrite (proj2 (existsb_eqb_In target _) Htarget), Hin. reflexivity. }
  destruct (step_value_in_range net target) as (Rv & B).
  exists (normalized (step_value net target)). split; [ | exact B ].
  rewrite get_neuron_value_representable; unfold value_of, Dict.get_default;
    rewrite G; [ reflexivity | exact Rv ].
Qed.

(** After one step, a neuron without incoming connection keeps its entry. *)
Lemma stepped_no_incoming (net : Network.t) (name : string) :
  ~ has_incoming net name ->
  Dict.get (Network.state (stepped net)) name = Dict.get (Network.state net) name.
Proof.
  intros Hno. unfold stepped. cbn [Network.state Network.set_state].
  rewrite stepped_state_get.
  destruct (0 <? snd (weighted_inputs net name))%nat eqn:C.
  - apply count_pos_iff in C. contradiction.
  - rewrite andb_false_r. reflexivity.
Qed.

(** [propagate_activation(steps)] on a state that holds no integer beyond
    the range of floats returns the state of the resulting network, and the
    state stays within that range.  No step changes the neurons or the
    connections; zero steps change nothing at all; after one step or more
    every neuron with an incoming connection is within [[0, 100]], and a
    name without incoming connection has the entry it started with. *)
Theorem propagate_activation_steps (steps : nat) (net : Network.t) (w : World)
    (Hrange : in_float_range (Network.state net)) :
  exists st net',
    Network.propagate_activation steps net w = (Ok (st, net'), w)
    /\ st = Network.state net'
    /\ in_float_range st
    /\ Network.neurons net' = Network.neurons net
    /\ Network.connections net' = Network.connections net
    /\ (steps = 0%nat -> net' = net)
    /\ (forall target,
          (0 < steps)%nat ->
          In target (Dict.keys (Network.neurons net)) ->
          has_incoming net target ->
          exists f, Network.get_neuron_value net' target = Ok f /\ in_interval 0 100 f)
    /\ (forall name,
          ~ has_incoming net name ->
          Dict.get (Network.state net') name = Dict.get (Network.state net) name).
Proof.
  exists (Network.state (stepped_times steps net)), (stepped_times steps net).
  split.
  { unfold Network.propagate_activation, bind.
    rewrite propagate_steps_in_range by exact Hrange. reflexivity. }
  destruct (stepped_times_frame steps net) as (Fn & Fc).
  split; [ reflexivity | ].
  split; [ apply stepped_times_keeps_range; exact Hrange | ].
  split; [ exact Fn | ]. split; [ exact Fc | ].
  split; [ intros ->; reflexivity | ].
  split.
  - intros target Hpos Htarget Hin.
    destruct steps as [ | n ]; [ lia | ].
    rewrite stepped_times_last.
    destruct (stepped_times_frame n net) as (Fn' & Fc').
    apply stepped_in_interval.
    + rewrite Fn'. exact Htarget.
    + apply (has_incoming_frame _ Fn' Fc' Hin).
  - intros name Hno. clear Fn Fc Hrange. revert net Hno.
    induction steps as [ | n IH ]; intros net Hno; [ reflexivity | ].
    cbn [stepped_times].
    destruct (stepped_frame net) as (Fn & Fc).
    rewrite IH.
    + apply stepped_no_incoming. exact Hno.
    + intros H. apply Hno.
      apply (@has_incoming_frame (stepped net) net name); auto.
Qed.

Lemma propagate_activation_steps_witness :
  exists st net',
    Network.propagate_activation 3 scenario_network world0 = (Ok (st, net'), world0)
    /\ (exists f, Network.get_neuron_value net' "B" = Ok f /\ in_interval 0 100 f)
    /\ Dict.get (Network.state net') "A"%string = Some (VInt 80).
Proof.
  destruct (@propagate_activation_steps 3 scenario_network world0 eq_refl)
    as (st & net' & E & _ & _ & _ & _ & _ & R & U).
  exists st, net'. split; [ exact E | ].
  split.
  - apply R; [ lia | simpl; auto | ].
    exists "A"%string. split; [ simpl; auto | reflexivity ].
  - rewrite U; [ reflexivity | ].
    intros (s & I & Hm). simpl in I.
    destruct I as [ <- | [ <- | [] ] ]; vm_compute in Hm; discriminate Hm.
Defined.

(** ** Weight decay *)

Lemma in_keys_mem {K V} `{Key K} (d : Dict.t K V) (k : K) :
  In k (Dict.keys d) -> Dict.mem d k = true.
Proof.
  unfold Dict.mem. induction d as [ | [k0 v0] d IH ]; simpl; [ contradiction | ].
  intros [ E | I ].
  - subst. rewrite keyb_refl. reflexivity.
  - destruct (keyb k k0); [ reflexivity | apply IH; exact I ].
Qed.

Lemma mem_get_in_keys {K V} `{Key K} (d : Dict.t K V) (k : K) :
  Dict.mem d k = true -> In k (Dict.keys d).
Proof.
  unfold Dict.mem. induction d as [ | [k0 v0] d IH ]; simpl; [ discriminate | ].
  destruct (keyb k k0) eqn:E.
  - intros _. left. apply keyb_eq in E. symmetry. exact E.
  - intros M. right. apply IH. exact M.
Qed.

Lemma apply_weight_decay_unfold (env : Env) (net : Network.t) :
  Network.apply_weight_decay env net
  = (' (count, conns) <-
       for_each (Dict.keys (Network.connections net))
         (decay_body env
            (Dict.get_default (Config.hebbian (Network.config net))
               "weight_decay"%string 0.01%float))
         (0%Z, Network.connections net) ;;
     ret (count, Network.set_connections conns net)).
Proof. reflexivity. Qed.

Lemma decay_body_step (env : Env) (d : float) (count : Z)
    (conns : Dict.t (string * string) Connection.t) (key : string * string)
    (c : Connection.t) (w : World) :
  Dict.get conns key = Some c ->
  exists c1 count1,
    decay_body env d (count, conns) key w = (Ok (count1, Dict.set conns key c1), later 2 w)
    /\ decayed d c c1
    /\ (count <= count1 <= count + 1)%Z.
Proof.
  intros G. unfold decay_body. rewrite G. unfold Connection.apply_decay.
  destruct (set_weight_spec env (Connection._weight c * (1 - d))%float c w)
    as (c1 & E & Hw & _ & _ & _ & Hs & Ht & Hc).
  assert (Hb : Connection.bidirectional c1 = Connection.bidirectional c).
  { unfold Connection.set_weight, bind, time, ret in E. cbn in E.
    inversion E. reflexivity. }
  unfold bind. rewrite E.
  destruct (PrimFloat.ltb _ _); exists c1; eexists;
    (split; [ reflexivity | split; [ repeat split; assumption | lia ] ]).
Qed.

Lemma decay_fold (env : Env) (d : float) (ks : list (string * string)) :
  NoDup ks ->
  forall (count : Z) (conns : Dict.t (string * string) Connection.t) (w : World),
    (forall k, In k ks -> Dict.mem conns k = true) ->
    exists count' conns' w',
      for_each ks (decay_body env d) (count, conns) w = (Ok (count', conns'), w')
      /\ ticks w' = (2 * List.length ks + ticks w)%nat
      /\ draws w' = draws w
      /\ Dict.keys conns' = Dict.keys conns
      /\ (count <= count' <= count + Z.of_nat (List.length ks))%Z
      /\ forall key c,
           Dict.get conns key = Some c ->
           exists c', Dict.get conns' key = Some c'
                      /\ (In key ks -> decayed d c c')
                      /\ (~ In key ks -> c' = c).
Proof.
  induction ks as [ | k ks IH ]; intros ND count conns w Hmem.
  - exists count, conns, w. split; [ reflexivity | ].
    cbn [List.length]. repeat split; try lia.
    intros key c G. exists c. split; [ exact G | ]. split; [ contradiction | reflexivity ].
  - inversion ND as [ | k' ks' Hk ND' ]; subst.
    assert (Hmk : Dict.mem conns k = true) by (apply Hmem; left; reflexivity).
    apply mem_get in Hmk. destruct Hmk as (c & G).
    destruct (@decay_body_step env d count conns k c w G) as (c1 & count1 & E & D & Hc).
    destruct (IH ND' count1 (Dict.set conns k c1) (later 2 w)) as
      (count' & conns' & w' & E' & Ht & Hd & Hkeys & Hcount & Hget).
    { intros k' I. destruct (keyb k' k) eqn:Ek.
      - apply keyb_eq in Ek. subst. apply mem_set_same.
      - rewrite mem_set_other.
        + apply Hmem. right. exact I.
        + intros X. subst. rewrite keyb_refl in Ek. discriminate. }
    exists count', conns', w'.
    cbn [for_each]. unfold bind at 1. rewrite E.
    split; [ exact E' | ].
    split; [ rewrite Ht; cbn [later ticks List.length]; lia | ].
    split; [ rewrite Hd; reflexivity | ].
    split.
    { rewrite Hkeys. apply keys_set_mem. unfold Dict.mem. rewrite G. reflexivity. }
    split; [ cbn [List.length]; lia | ].
    intros key c0 G0.
    destruct (keyb key k) eqn:Ek.
    + apply keyb_eq in Ek. subst key.
      assert (c0 = c) by congruence. subst c0.
      destruct (Hget k c1 (get_set_same _ _ _)) as (c' & G' & _ & Hsame).
      exists c'. split; [ exact G' | ].
      rewrite (Hsame Hk).
      split; [ intros _; exact D | ].
      intros N. exfalso. apply N. left. reflexivity.
    + assert (N : key <> k) by (intros X; subst; rewrite keyb_refl in Ek; discriminate).
      destruct (Hget key c0) as (c' & G' & Hin & Hout).
      { rewrite get_set_other by exact N. exact G0. }
      exists c'. split; [ exact G' | ].
      split.
      * intros [ X | I ]; [ congruence | apply Hin; exact I ].
      * intros NI. apply Hout. intros I. apply NI. right. exact I.
Qed.

(** [apply_weight_decay] always returns.  It keeps the set of connections,
    gives every connection the clamp of its weight times [1 - weight_decay]
    (0.01 when the configuration has no such key), leaves endpoints and
    creation times alone, reads the clock twice per connection, and the
    count it returns is at most the number of connections. *)
Theorem apply_weight_decay_spec (env : Env) (net : Network.t) (w : World)
    (Hdict : NoDup (Dict.keys (Network.connections net))) :
  let decay :=
    Dict.get_default (Config.hebbian (Network.config net)) "weight_decay"%string 0.01%float in
  exists count net' w',
    Network.apply_weight_decay env net w = (Ok (count, net'), w')
    /\ ticks w' = (2 * List.length (Network.connections net) + ticks w)%nat
    /\ (0 <= count <= Z.of_nat (List.length (Network.connections net)))%Z
    /\ Dict.keys (Network.connections net') = Dict.keys (Network.connections net)
    /\ Network.neurons net' = Network.neurons net
    /\ Network.state net' = Network.state net
    /\ forall key c,
         Dict.get (Network.connections net) key = Some c ->
         exists c', Dict.get (Network.connections net') key = Some c' /\ decayed decay c c'.
Proof.
  intros decay. rewrite apply_weight_decay_unfold. fold decay.
  destruct (@decay_fold env decay (Dict.keys (Network.connections net)) Hdict 0%Z
              (Network.connections net) w)
    as (count & conns & w' & E & Ht & _ & Hkeys & Hcount & Hget).
  { intros k I. apply in_keys_mem. exact I. }
  assert (L : List.length (Dict.keys (Network.connections net))
              = List.length (Network.connections net))
    by (unfold Dict.keys; apply length_map).
  exists count, (Network.set_connections conns net), w'.
  unfold bind. rewrite E. split; [ reflexivity | ].
  split; [ rewrite Ht, L; reflexivity | ].
  split; [ rewrite L in Hcount; lia | ].
  cbn [Network.connections Network.set_connections Network.neurons Network.state].
  split; [ exact Hkeys | ]. split; [ reflexivity | ]. split; [ reflexivity | ].
  intros key c G. destruct (Hget key c G) as (c' & G' & Hin & _).
  exists c'. split; [ exact G' | ].
  apply Hin. apply mem_get_in_keys. unfold Dict.mem. rewrite G. reflexivity.
Qed.

Lemma apply_weight_decay_spec_witness :
  exists count net' w',
    Network.apply_weight_decay clock_3_then_6 scenario_network world0
    = (Ok (count, net'), w')
    /\ count = 1%Z
    /\ Network.get_connection_strength net' "A" "B" = 0.495%float.
Proof.
  destruct (@apply_weight_decay_spec clock_3_then_6 scenario_network world0)
    as (count & net' & w' & E & _ & _ & _ & _ & _ & Hget).
  - repeat constructor. simpl. tauto.
  - exists count, net', w'. split; [ exact E | ].
    split; [ vm_compute in E; inversion E; reflexivity | ].
    destruct (Hget ("A"%string, "B"%string) _ eq_refl) as (c' & G & D & _).
    unfold Network.get_connection_strength. rewrite G, D. vm_compute. reflexivity.
Defined.

(** ** Hebbian learning: who learns, and how much *)

(** The scan for active neurons, when the value of every name that is not
    excluded can be read: it returns the names above the threshold, in the
    order of the state. *)
Lemma active_scan (excluded : list string) (threshold : float) (net : Network.t)
    (l : list (string * value)) (w : World) :
  (forall item,
     In item l ->
     existsb (String.eqb (fst item)) excluded = false ->
     Network.get_neuron_value net (fst item) = Ok (value_of net (fst item))) ->
  forall acc,
    for_each l
      (fun (active_neurons : list string) (item : string * value) =>
         let name := fst item in
         if existsb (String.eqb name) excluded then ret active_neurons
         else
           numeric_value <- lift (Network.get_neuron_value net name) ;;
           if PrimFloat.ltb threshold numeric_value
           then ret (active_neurons ++ [name])
           else ret active_neurons)
      acc w
    = (Ok (acc
           ++ map fst
                (filter
                   (fun item : string * value =>
                      negb (existsb (String.eqb (fst item)) excluded)
                      && PrimFloat.ltb threshold (value_of net (fst item)))
                   l)),
       w).
Proof.
  induction l as [ | item l IH ]; intros Hread acc; cbn [for_each filter map].
  - rewrite app_nil_r. reflexivity.
  - unfold bind at 1. cbv zeta.
    destruct (existsb (String.eqb (fst item)) excluded) eqn:Ex; cbn [negb andb].
    + unfold ret at 1. apply IH. intros i I. apply Hread. right. exact I.
    + unfold bind at 1. unfold lift at 1.
      rewrite (Hread item (or_introl eq_refl) Ex).
      destruct (PrimFloat.ltb threshold (value_of net (fst item))); unfold ret at 1.
      * rewrite IH by (intros i I; apply Hread; right; exact I).
        cbn [map]. rewrite <- app_assoc. reflexivity.
      * apply IH. intros i I. apply Hread. right. exact I.
Qed.

(** With fewer than two active neurons, on a state that holds no integer
    beyond the range of floats, a call that gets past the debounce learns
    nothing and leaves the network alone, yet it restarts the debounce: a
    further call fewer than 5 seconds later is a no-op on whatever network
    it is given. *)
Theorem too_few_active_neurons (env : Env) (self : HebbianLearning.t) (net : Network.t)
    (w : World)
    (Hrange : in_float_range (Network.state net))
    (Hpast : PrimFloat.ltb (time_time env (ticks w) - HebbianLearning.last_learning_time self) 5
             = false)
    (Hfew : (List.length (active_names self net) < 2)%nat) :
  let self1 := Hebbian.set_last_learning_time (time_time env (ticks w)) self in
  Hebbian.perform_hebbian_learning env self net w = (Ok ([], self1, net), later 1 w)
  /\ forall net2,
       PrimFloat.ltb (time_time env (S (ticks w)) - time_time env (ticks w)) 5 = true ->
       Hebbian.perform_hebbian_learning env self1 net2 (later 1 w)
       = (Ok ([], self1, net2), later 2 w).
Proof.
  intros self1. split.
  - unfold Hebbian.perform_hebbian_learning. unfold bind at 1. unfold time at 1.
    cbv beta iota. rewrite Hpast.
    unfold active_names in Hfew.
    cbn [HebbianLearning.excluded_neurons Hebbian.set_last_learning_time].
    unfold bind at 1. unfold Dict.items in *.
    rewrite active_scan
      by (intros item _ _; apply get_neuron_value_in_range; exact Hrange).
    cbn [app]. apply Nat.ltb_lt in Hfew. rewrite Hfew. reflexivity.
  - intros net2 Hgap. apply debounced_call. exact Hgap.
Qed.

Lemma too_few_active_neurons_witness :
  Hebbian.perform_hebbian_learning clock_6_then_8 helper_built_at_0
    (Network.set_state [("A"%string, VInt 80); ("B"%string, VInt 10)] two_active_neurons)
    world0
  = (Ok ([], Hebbian.set_last_learning_time 6 helper_built_at_0,
         Network.set_state [("A"%string, VInt 80); ("B"%string, VInt 10)] two_active_neurons),
     later 1 world0)
  /\ Hebbian.perform_hebbian_learning clock_6_then_8
       (Hebbian.set_last_learning_time 6 helper_built_at_0) two_active_neurons (later 1 world0)
     = (Ok ([], Hebbian.set_last_learning_time 6 helper_built_at_0, two_active_neurons),
        later 2 world0).
Proof.
  destruct (@too_few_active_neurons clock_6_then_8 helper_built_at_0
              (Network.set_state [("A"%string, VInt 80); ("B"%string, VInt 10)]
                 two_active_neurons) world0)
    as (H1 & H2).
  - reflexivity.
  - reflexivity.
  - vm_compute. lia.
  - split; [ exact H1 | ]. apply H2. reflexivity.
Defined.

Lemma for_each_grows {A St} (measure : St -> nat) (l : list A) (body : St -> A -> M St) :
  (forall s x, returns (body s x) (fun s' => (measure s' <= S (measure s))%nat)) ->
  forall s, returns (for_each l body s)
              (fun s' => (measure s' <= measure s + List.length l)%nat).
Proof.
  intros Hbody. induction l as [ | x l IH ]; intros s; cbn [for_each List.length].
  - apply returns_ret. lia.
  - eapply returns_bind; [ apply Hbody | ].
    intros s1 H1. eapply returns_weaken; [ apply IH | ].
    intros s2 H2. cbv beta in *. lia.
Qed.

(** A call updates at most two pairs, however many neurons are active,
    provided [random.sample] returns no more than the sample size. *)
Theorem at_most_two_pairs (env : Env) (self : HebbianLearning.t) (net : Network.t)
    (Hsample : sample_within_size env) :
  returns (Hebbian.perform_hebbian_learning env self net)
    (fun r => (List.length (fst (fst r)) <= 2)%nat).
Proof.
  unfold Hebbian.perform_hebbian_learning.
  eapply returns_bind; [ apply returns_any | intros now _ ].
  destruct (PrimFloat.ltb _ _); [ apply returns_ret; cbn; lia | ].
  eapply returns_bind; [ apply returns_any | intros active _ ].
  destruct (_ <? 2)%nat; [ apply returns_ret; cbn; lia | ].
  match goal with
  | |- returns (bind _ ?k) _ =>
      apply returns_bind with (P := fun sampled => (List.length sampled <= 2)%nat)
  end.
  - destruct (_ <? _)%nat eqn:C.
    + eapply returns_bind; [ apply returns_any | intros k _ ].
      apply returns_ret.
      eapply Nat.le_trans; [ apply Hsample | apply Nat.le_min_l ].
    + apply returns_ret. apply Nat.ltb_ge in C.
      eapply Nat.le_trans; [ exact C | apply Nat.le_min_l ].
  - intros sampled Hlen.
    eapply returns_weaken.
    + apply (@for_each_grows _ _
               (fun acc : list (string * string) * HebbianLearning.t * Network.t =>
                  List.length (fst (fst acc)))).
      intros [[updated self'] net'] [i j]. cbn [fst].
      eapply returns_bind; [ apply returns_any | intros n1 _ ].
      eapply returns_bind; [ apply returns_any | intros n2 _ ].
      eapply returns_bind; [ apply returns_any | intros v1 _ ].
      eapply returns_bind; [ apply returns_any | intros v2 _ ].
      destruct (_ && _).
      * eapply returns_bind; [ apply returns_any | intros [s n] _ ].
        apply returns_ret. cbn [fst]. rewrite length_app. cbn [List.length]. lia.
      * apply returns_ret. cbn [fst]. lia.
    + intros r H. cbn [fst List.length] in H. lia.
Qed.

Lemma at_most_two_pairs_witness :
  sample_within_size clock_6_then_8
  /\ returns
       (Hebbian.perform_hebbian_learning clock_6_then_8 helper_built_at_0 two_active_neurons)
       (fun r => (List.length (fst (fst r)) <= 2)%nat).
Proof.
  assert (H : sample_within_size clock_6_then_8).
  { intros k l n. cbn [random_sample clock_6_then_8]. apply firstn_le_length. }
  split; [ exact H | ].
  apply (@at_most_two_pairs clock_6_then_8 helper_built_at_0 two_active_neurons H).
Defined.

(** ** The event log *)

(** [get_recent_learning_events(count)] returns the last [count] events
    for a positive count within the length of the log and the whole log
    for a larger one; for a count of zero it also returns the whole log,
    not an empty list, because [-0] is [0]; a negative count [-k] drops the
    first [k] events. *)
Theorem recent_events_slice (count : Z) (self : HebbianLearning.t) :
  let events := HebbianLearning.learning_events self in
  let n := Z.of_nat (List.length events) in
  (count = 0%Z -> Hebbian.get_recent_learning_events count self = events)
  /\ ((0 < count <= n)%Z ->
        Hebbian.get_recent_learning_events count self
        = last_n (Z.to_nat count) events
        /\ List.length (Hebbian.get_recent_learning_events count self) = Z.to_nat count)
  /\ ((n <= count)%Z -> Hebbian.get_recent_learning_events count self = events)
  /\ ((count < 0)%Z ->
        Hebbian.get_recent_learning_events count self
        = List.skipn (Z.to_nat (- count)) events).
Proof.
  intros events n. unfold Hebbian.get_recent_learning_events, Hebbian.slice_from.
  fold events. fold n.
  split; [ | split; [ | split ] ].
  - intros ->. cbn [Z.opp Z.ltb Z.compare]. rewrite Z.min_l by (subst n; lia). reflexivity.
  - intros Hc.
    assert (E : (- count <? 0)%Z = true) by (apply Z.ltb_lt; lia). rewrite E.
    assert (Hs : Z.to_nat (Z.max (n + - count) 0) = (List.length events - Z.to_nat count)%nat)
      by (subst n; lia).
    rewrite Hs. split; [ reflexivity | ].
    rewrite length_skipn. subst n. lia.
  - intros Hc. destruct (- count <? 0)%Z eqn:E.
    + replace (Z.max (n + - count) 0) with 0%Z by lia. reflexivity.
    + apply Z.ltb_ge in E. assert (count = 0%Z) by lia. subst count.
      assert (n = 0%Z) by lia.
      destruct events; [ reflexivity | subst n; cbn [List.length] in *; lia ].
  - intros Hc.
    assert (E : (- count <? 0)%Z = false) by (apply Z.ltb_ge; lia). rewrite E.
    destruct (Z.min_spec (- count) n) as [ (H1 & ->) | (H1 & ->) ]; [ reflexivity | ].
    rewrite !skipn_all2; [ reflexivity | subst n; lia | subst n; lia ].
Qed.

Lemma recent_events_slice_witness :
  Hebbian.get_recent_learning_events 0 helper_with_three_events
  = [sample_event; sample_event; sample_event]
  /\ List.length (Hebbian.get_recent_learning_events 2 helper_with_three_events) = 2%nat
  /\ List.length (Hebbian.get_recent_learning_events (-1) helper_with_three_events) = 2%nat.
Proof.
  destruct (recent_events_slice 0 helper_with_three_events) as (H0 & _).
  destruct (recent_events_slice 2 helper_with_three_events) as (_ & H2 & _).
  destruct (recent_events_slice (-1) helper_with_three_events) as (_ & _ & _ & Hn).
  split; [ apply H0; reflexivity | ].
  split; [ apply H2; cbn; lia | ].
  rewrite Hn by lia. reflexivity.
Defined.

(** ** The Hebbian rule *)

Lemma ensure_connection_spec (env : Env) (a b : string) (net : Network.t) (w : World) :
  Dict.mem (Network.neurons net) a = true ->
  Dict.mem (Network.neurons net) b = true ->
  exists n w' c,
    ensure_connection env a b net w = (Ok n, w')
    /\ Dict.get (Network.connections n) (a, b) = Some c
    /\ Connection.get_weight c = Network.get_connection_strength net a b
    /\ Network.neurons n = Network.neurons net
    /\ Network.state n = Network.state net
    /\ (forall key, key <> (a, b) ->
          Dict.get (Network.connections n) key = Dict.get (Network.connections net) key).
Proof.
  intros Ha Hb. unfold ensure_connection, Network.get_connection_strength.
  destruct (Dict.get (Network.connections net) (a, b)) as [ c | ] eqn:G.
  - unfold Dict.mem. rewrite G. cbn [negb].
    exists net, w, c. repeat split; auto.
  - unfold Dict.mem. rewrite G. cbn [negb].
    unfold Network.connect. rewrite Ha, Hb. cbn [negb andb].
    destruct (init_spec env a b 0.0%float false w) as (c & E & _ & _ & _ & Hw).
    unfold bind. rewrite E. cbv beta iota. unfold ret.
    eexists. eexists. exists c. split; [ reflexivity | ].
    cbn [Network.connections Network.set_connections Network.neurons Network.state].
    split; [ apply get_set_same | ].
    split; [ rewrite Hw; reflexivity | ].
    split; [ reflexivity | ]. split; [ reflexivity | ].
    intros key N. apply get_set_other. exact N.
Qed.

Lemma update_connection_unfold (env : Env) (neuron1 neuron2 : string) (value1 value2 : float)
    (self : HebbianLearning.t) (net : Network.t) :
  Hebbian._update_connection env neuron1 neuron2 value1 value2 self net
  = (network <- ensure_connection env neuron1 neuron2 net ;;
     network <- ensure_connection env neuron2 neuron1 network ;;
     forward_conn <- Hebbian.lookup_connection network (neuron1, neuron2) ;;
     backward_conn <- Hebbian.lookup_connection network (neuron2, neuron1) ;;
     ' (_, forward_conn') <-
       Connection.set_weight env
         (Connection.get_weight forward_conn + weight_change self value1 value2)%float
         forward_conn ;;
     let network :=
       Network.set_connections
         (Dict.set (Network.connections network) (neuron1, neuron2) forward_conn') network in
     backward_conn2 <- Hebbian.lookup_connection network (neuron2, neuron1) ;;
     ' (_, backward_conn') <-
       Connection.set_weight env
         (Connection.get_weight backward_conn + weight_change self value1 value2)%float
         backward_conn2 ;;
     let network :=
       Network.set_connections
         (Dict.set (Network.connections network) (neuron2, neuron1) backward_conn') network in
     forward_conn2 <- Hebbian.lookup_connection network (neuron1, neuron2) ;;
     now <- time env ;;
     let event :=
       {| HebbianLearning.timestamp := now;
          HebbianLearning.neuron1 := neuron1; HebbianLearning.neuron2 := neuron2;
          HebbianLearning.value1 := value1; HebbianLearning.value2 := value2;
          HebbianLearning.prev_weight_forward := Connection.get_weight forward_conn;
          HebbianLearning.new_weight_forward := Connection.get_weight forward_conn2;
          HebbianLearning.prev_weight_backward := Connection.get_weight backward_conn;
          HebbianLearning.new_weight_backward := Connection.get_weight backward_conn';
          HebbianLearning.event_learning_rate := HebbianLearning.learning_rate self |} in
     let events := HebbianLearning.learning_events self ++ [event] in
     let events := if (100 <? List.length events)%nat then last_n 100 events else events in
     ret (Hebbian.set_learning_events events self, network)).
Proof. reflexivity. Qed.

(** [_update_connection] on two distinct neurons of the network always
    returns.  Afterwards both directions exist, each with the clamp of its
    previous weight (0 if the connection had to be created) plus the same
    increment [learning_rate * (value1/100) * (value2/100)]; no other
    connection, no neuron and no state entry changes; the last event of
    the log records the four weights. *)
Theorem update_connection_spec (env : Env) (neuron1 neuron2 : string) (value1 value2 : float)
    (self : HebbianLearning.t) (net : Network.t) (w : World)
    (H1 : Dict.mem (Network.neurons net) neuron1 = true)
    (H2 : Dict.mem (Network.neurons net) neuron2 = true)
    (Hdistinct : neuron1 <> neuron2) :
  let change := weight_change self value1 value2 in
  let forward := Network.get_connection_strength net neuron1 neuron2 in
  let backward := Network.get_connection_strength net neuron2 neuron1 in
  exists self' net' w',
    Hebbian._update_connection env neuron1 neuron2 value1 value2 self net w
    = (Ok (self', net'), w')
    /\ Network.get_connection_strength net' neuron1 neuron2
       = clamp_unit_weight (forward + change)
    /\ Network.get_connection_strength net' neuron2 neuron1
       = clamp_unit_weight (backward + change)
    /\ Dict.mem (Network.connections net') (neuron1, neuron2) = true
    /\ Dict.mem (Network.connections net') (neuron2, neuron1) = true
    /\ (forall key, key <> (neuron1, neuron2) -> key <> (neuron2, neuron1) ->
          Dict.get (Network.connections net') key = Dict.get (Network.connections net) key)
    /\ Network.neurons net' = Network.neurons net
    /\ Network.state net' = Network.state net
    /\ exists older e,
         HebbianLearning.learning_events self' = older ++ [e]
         /\ HebbianLearning.prev_weight_forward e = forward
         /\ HebbianLearning.new_weight_forward e = clamp_unit_weight (forward + change)
         /\ HebbianLearning.prev_weight_backward e = backward
         /\ HebbianLearning.new_weight_backward e = clamp_unit_weight (backward + change).
Proof.
  intros change forward backward.
  assert (Nfb : (neuron1, neuron2) <> (neuron2, neuron1))
    by (intros X; apply Hdistinct; congruence).
  assert (Nbf : (neuron2, neuron1) <> (neuron1, neuron2))
    by (intros X; apply Hdistinct; congruence).
  rewrite update_connection_unfold.
  destruct (@ensure_connection_spec env neuron1 neuron2 net w H1 H2)
    as (n1 & w1 & fc & E1 & Gf1 & Wf & Nn1 & Ns1 & O1).
  destruct (@ensure_connection_spec env neuron2 neuron1 n1 w1)
    as (n2 & w2 & bc & E2 & Gb2 & Wb & Nn2 & Ns2 & O2);
    [ rewrite Nn1; exact H2 | rewrite Nn1; exact H1 | ].
  assert (Gf2 : Dict.get (Network.connections n2) (neuron1, neuron2) = Some fc)
    by (rewrite O2 by exact Nfb; exact Gf1).
  assert (Wb' : Connection.get_weight bc = backward).
  { rewrite Wb. unfold backward, Network.get_connection_strength.
    rewrite O1 by exact Nbf. reflexivity. }
  fold forward in Wf.
  destruct (set_weight_spec env (Connection.get_weight fc + change)%float fc w2)
    as (fc' & Ef & Wf' & _).
  destruct (set_weight_spec env (Connection.get_weight bc + change)%float bc (later 2 w2))
    as (bc' & Eb & Wb'' & _).
  unfold bind at 1. rewrite E1. cbv beta iota.
  unfold bind at 1. rewrite E2. cbv beta iota.
  unfold bind at 1. unfold Hebbian.lookup_connection at 1. rewrite Gf2. unfold ret at 1.
  cbv beta iota.
  unfold bind at 1. unfold Hebbian.lookup_connection at 1. rewrite Gb2. unfold ret at 1.
  cbv beta iota.
  unfold bind at 1. fold change. rewrite Ef. cbv beta iota zeta.
  unfold bind at 1. unfold Hebbian.lookup_connection at 1.
  cbn [Network.connections Network.set_connections].
  rewrite (get_set_other _ _ Nbf), Gb2. unfold ret at 1. cbv beta iota.
  unfold bind at 1. rewrite Eb. cbv beta iota.
  unfold bind at 1. unfold Hebbian.lookup_connection at 1.
  cbn [Network.connections Network.set_connections].
  rewrite (get_set_other _ _ Nfb), get_set_same. unfold ret at 1. cbv beta iota.
  unfold bind, time, ret. cbv beta iota.
  do 3 eexists. split; [ reflexivity | ].
  unfold Network.get_connection_strength.
  cbn [Network.connections Network.set_connections Network.neurons Network.state].
  rewrite (get_set_other _ _ Nfb), !get_set_same.
  split; [ rewrite Wf', Wf; reflexivity | ].
  split; [ rewrite Wb'', Wb'; reflexivity | ].
  split; [ unfold Dict.mem; rewrite (get_set_other _ _ Nfb), get_set_same; reflexivity | ].
  split; [ unfold Dict.mem; rewrite get_set_same; reflexivity | ].
  split.
  { intros key Kf Kb. rewrite (get_set_other _ _ Kb), (get_set_other _ _ Kf).
    rewrite O2 by exact Kb. apply O1. exact Kf. }
  split; [ congruence | ]. split; [ congruence | ].
  cbn [HebbianLearning.learning_events Hebbian.set_learning_events].
  match goal with
  | |- exists older e, (if ?c then last_n 100 (?l ++ [?x]) else _) = _ /\ _ =>
      destruct c;
        [ destruct (@last_n_snoc _ 100 l x ltac:(lia)) as (older & Ho);
          exists older, x; split; [ exact Ho | ]
        | exists l, x; split; [ reflexivity | ] ]
  end;
    cbn [HebbianLearning.prev_weight_forward HebbianLearning.new_weight_forward
           HebbianLearning.prev_weight_backward HebbianLearning.new_weight_backward];
    (split; [ exact Wf | ]); (split; [ rewrite Wf', Wf; reflexivity | ]);
    (split; [ exact Wb' | rewrite Wb'', Wb'; reflexivity ]).
Qed.

Lemma update_connection_spec_witness :
  exists self' net' w',
    Hebbian._update_connection clock_6_then_8 "A" "B" 80 90 helper_built_at_0
      scenario_network world0
    = (Ok (self', net'), w')
    /\ Network.get_connection_strength net' "A" "B" = 0.5720000000000001%float
    /\ Network.get_connection_strength net' "B" "A" = 0.07200000000000002%float.
Proof.
  destruct (@update_connection_spec clock_6_then_8 "A" "B" 80 90 helper_built_at_0
              scenario_network world0)
    as (self' & net' & w' & E & Hf & Hb & _).
  - reflexivity.
  - reflexivity.
  - discriminate.
  - exists self', net', w'. split; [ exact E | ].
    split; [ rewrite Hf; vm_compute; reflexivity | rewrite Hb; vm_compute; reflexivity ].
Defined.

(** ** The keys of saved connections *)

Lemma split_nonempty (sep : ascii) (s : string) : Snapshot.split sep s <> [].
Proof.
  destruct s as [ | c s ]; simpl; [ discriminate | ].
  destruct (Ascii.eqb c sep); [ discriminate | ].
  destruct (Snapshot.split sep s); discriminate.
Qed.

Lemma split_length (sep : ascii) (s : string) :
  List.length (Snapshot.split sep s) = S (occurrences sep s).
Proof.
  induction s as [ | c s IH ]; simpl; [ reflexivity | ].
  destruct (Ascii.eqb c sep); simpl.
  - rewrite IH. reflexivity.
  - destruct (Snapshot.split sep s) as [ | p ps ] eqn:E; simpl in *; [ discriminate | ].
    exact IH.
Qed.

Lemma occurrences_app (c : ascii) (a b : string) :
  occurrences c (a ++ b) = (occurrences c a + occurrences c b)%nat.
Proof.
  induction a as [ | x a IH ]; simpl; [ reflexivity | ].
  rewrite IH. lia.
Qed.

Lemma split_plain (sep : ascii) (s : string) :
  occurrences sep s = 0%nat -> Snapshot.split sep s = [s].
Proof.
  induction s as [ | c s IH ]; simpl; [ reflexivity | ].
  destruct (Ascii.eqb c sep); simpl; [ discriminate | ].
  intros H. rewrite IH by exact H. reflexivity.
Qed.

Lemma split_app_sep (sep : ascii) (a b : string) :
  occurrences sep a = 0%nat ->
  Snapshot.split sep (a ++ String sep b) = a :: Snapshot.split sep b.
Proof.
  induction a as [ | c a IH ]; simpl.
  - intros _. rewrite Ascii.eqb_refl. reflexivity.
  - destruct (Ascii.eqb c sep); simpl; [ discriminate | ].
    intros H. rewrite IH by exact H. reflexivity.
Qed.

(** A key made from two names free of underscores splits back into them. *)
Lemma split_key_plain (src tgt : string) (w : World) :
  plain src -> plain tgt ->
  Snapshot.split_key (Snapshot.connection_key (src, tgt)) w = (Ok (src, tgt), w).
Proof.
  unfold Snapshot.split_key, Snapshot.connection_key, plain. cbn [fst snd].
  change ("_" ++ tgt)%string with (String "_" tgt).
  intros Hs Ht. rewrite split_app_sep by exact Hs.
  rewrite split_plain by exact Ht. reflexivity.
Qed.

(** The key [f"{src}_{tgt}"] is read back by [key.split("_")] as the pair
    it was made from exactly when neither name contains an underscore;
    otherwise the unpacking raises [ValueError]. *)
Theorem connection_key_round_trip (src tgt : string) (w : World) :
  (plain src /\ plain tgt ->
     Snapshot.split_key (Snapshot.connection_key (src, tgt)) w = (Ok (src, tgt), w))
  /\ (~ (plain src /\ plain tgt) ->
        Snapshot.split_key (Snapshot.connection_key (src, tgt)) w = (Raise ValueError, w)).
Proof.
  split.
  - intros (Hs & Ht). apply split_key_plain; assumption.
  - unfold Snapshot.split_key, Snapshot.connection_key, plain. cbn [fst snd].
    change ("_" ++ tgt)%string with (String "_" tgt).
    intros N.
    assert (L : (2 < List.length (Snapshot.split "_" (src ++ String "_" tgt)))%nat).
    { rewrite split_length, occurrences_app. cbn [occurrences]. rewrite Ascii.eqb_refl.
      destruct (occurrences "_" src) eqn:Es; [ | lia ].
      destruct (occurrences "_" tgt) eqn:Et; [ | lia ].
      exfalso. apply N. split; reflexivity. }
    destruct (Snapshot.split "_" (src ++ String "_" tgt)) as [ | a [ | b [ | c l ] ] ];
      cbn [List.length] in L; try lia.
    reflexivity.
Qed.

Lemma connection_key_round_trip_witness :
  Snapshot.split_key (Snapshot.connection_key ("input1"%string, "output1"%string)) world0
  = (Ok ("input1"%string, "output1"%string), world0)
  /\ Snapshot.split_key (Snapshot.connection_key ("novel_0"%string, "A"%string)) world0
     = (Raise ValueError, world0).
Proof.
  split.
  - apply (proj1 (connection_key_round_trip "input1" "output1" world0)).
    split; reflexivity.
  - apply (proj2 (connection_key_round_trip "novel_0" "A" world0)).
    intros (H & _). discriminate H.
Defined.

Lemma connection_key_injective (k k' : string * string) :
  plain (fst k) -> plain (snd k) -> plain (fst k') -> plain (snd k') ->
  Snapshot.connection_key k = Snapshot.connection_key k' -> k = k'.
Proof.
  destruct k as [s t], k' as [s' t']. cbn [fst snd]. intros Hs Ht Hs' Ht' E.
  assert (S1 : Snapshot.split "_" (Snapshot.connection_key (s, t)) = [s; t]).
  { unfold Snapshot.connection_key. cbn [fst snd].
    change ("_" ++ t)%string with (String "_" t).
    rewrite split_app_sep by exact Hs. rewrite split_plain by exact Ht. reflexivity. }
  assert (S2 : Snapshot.split "_" (Snapshot.connection_key (s', t')) = [s'; t']).
  { unfold Snapshot.connection_key. cbn [fst snd].
    change ("_" ++ t')%string with (String "_" t').
    rewrite split_app_sep by exact Hs'. rewrite split_plain by exact Ht'. reflexivity. }
  rewrite E in S1. rewrite S1 in S2. inversion S2. reflexivity.
Qed.

(** ** Saving and loading *)

Lemma set_fresh {K V} `{Key K} (d : Dict.t K V) (k : K) (v : V) :
  ~ In k (Dict.keys d) -> Dict.set d k v = d ++ [(k, v)].
Proof.
  induction d as [ | [k0 v0] d IH ]; simpl; [ reflexivity | ].
  intros N. destruct (keyb k k0) eqn:E.
  - apply keyb_eq in E. subst. exfalso. apply N. left. reflexivity.
  - rewrite IH; [ reflexivity | ]. intros I. apply N. right. exact I.
Qed.

Lemma keys_app {K V} (d d' : Dict.t K V) :
  Dict.keys (d ++ d') = Dict.keys d ++ Dict.keys d'.
Proof. unfold Dict.keys. apply map_app. Qed.

Lemma dict_of_fold {A K V} `{Key K} (key : A -> K) (val : A -> V) (l : list A) :
  NoDup (map key l) ->
  forall acc : Dict.t K V,
    (forall x, In x l -> ~ In (key x) (Dict.keys acc)) ->
    fold_left (fun d x => Dict.set d (key x) (val x)) l acc
    = acc ++ map (fun x => (key x, val x)) l.
Proof.
  induction l as [ | x l IH ]; intros ND acc Hfresh; cbn [fold_left map].
  - rewrite app_nil_r. reflexivity.
  - cbn [map] in ND. inversion ND as [ | k ks Hk ND' ]; subst.
    rewrite set_fresh by (apply Hfresh; left; reflexivity).
    rewrite IH; [ rewrite <- app_assoc; reflexivity | exact ND' | ].
    intros y Iy. rewrite keys_app. cbn. intros I. apply in_app_or in I.
    destruct I as [ I | [ I | [] ] ].
    + apply (Hfresh y); [ right; exact Iy | exact I ].
    + apply Hk. rewrite I. apply in_map. exact Iy.
Qed.

Lemma dict_of_nodup {A K V} `{Key K} (key : A -> K) (val : A -> V) (l : list A) :
  NoDup (map key l) ->
  Snapshot.dict_of key val l = map (fun x => (key x, val x)) l.
Proof.
  intros ND. unfold Snapshot.dict_of.
  rewrite dict_of_fold with (acc := []); [ reflexivity | exact ND | ].
  intros x _ [].
Qed.

(** Replaying [add_neuron] over saved neurons with fresh, distinct names. *)
Lemma load_neurons (l : Dict.t string Neuron.t) :
  NoDup (Dict.keys l) ->
  forall (net0 : Network.t) (w : World),
    (forall k, In k (Dict.keys l) -> ~ In k (Dict.keys (Network.neurons net0))) ->
    exists net1,
      for_each (map (fun item => (fst item, saved_neuron item)) l) load_neuron_body net0 w
      = (Ok net1, w)
      /\ Network.neurons net1 = Network.neurons net0 ++ map reloaded_neuron l
      /\ Network.connections net1 = Network.connections net0
      /\ Network.config net1 = Network.config net0
      /\ Network.creation_time net1 = Network.creation_time net0
      /\ Network.last_update_time net1 = Network.last_update_time net0
      /\ Network.update_count net1 = Network.update_count net0
      /\ Network.learning net1 = Network.learning net0
      /\ Network.neurogenesis net1 = Network.neurogenesis net0
      /\ Network.excluded_neurons net1 = Network.excluded_neurons net0.
Proof.
  induction l as [ | [k n] l IH ]; intros ND net0 w Hfresh.
  - exists net0. cbn. rewrite app_nil_r. repeat split; reflexivity.
  - cbn [Dict.keys map fst] in ND. inversion ND as [ | k' ks Hk ND' ]; subst.
    fold (Dict.keys l) in Hk, ND'.
    assert (Hm : Dict.mem (Network.neurons net0) k = false).
    { destruct (Dict.mem (Network.neurons net0) k) eqn:E; [ | reflexivity ].
      exfalso. apply (Hfresh k); [ left; reflexivity | ].
      apply mem_get_in_keys. exact E. }
    cbn [map for_each fst]. unfold bind at 1. unfold load_neuron_body at 1.
    unfold bind at 1. unfold Network.add_neuron. rewrite Hm.
    unfold ret at 1. cbv beta iota. unfold ret at 1.
    cbn [saved_neuron Snapshot.nd_position Snapshot.nd_type Snapshot.nd_attributes
           Snapshot.opt snd Neuron.get_position].
    match goal with
    | |- exists net1, for_each _ _ ?n w = _ /\ _ => destruct (IH ND' n w) as (net1 & E & N1 & R)
    end.
    { intros k' I. cbn [Network.neurons Network.set_neurons Network.set_state].
      rewrite set_fresh
        by (intros X; apply (Hfresh k); [ left; reflexivity | exact X ]).
      rewrite keys_app. cbn. intros X. apply in_app_or in X.
      destruct X as [ X | [ X | [] ] ].
      - apply (Hfresh k'); [ right; exact I | exact X ].
      - subst. contradiction. }
    exists net1. split; [ exact E | ].
    cbn [Network.neurons Network.set_neurons Network.set_state Network.connections
           Network.config Network.creation_time Network.last_update_time
           Network.update_count Network.learning Network.neurogenesis
           Network.excluded_neurons] in N1, R.
    split; [ | exact R ].
    rewrite N1.
    rewrite set_fresh by (intros X; apply (Hfresh k); [ left; reflexivity | exact X ]).
    rewrite <- app_assoc. reflexivity.
Qed.

Lemma set_last {K V} `{Key K} (d : Dict.t K V) (k : K) (v v' : V) :
  ~ In k (Dict.keys d) -> Dict.set (d ++ [(k, v)]) k v' = d ++ [(k, v')].
Proof.
  induction d as [ | [k0 v0] d IH ]; simpl.
  - intros _. rewrite keyb_refl. reflexivity.
  - intros N. destruct (keyb k k0) eqn:E.
    + apply keyb_eq in E. subst. exfalso. apply N. left. reflexivity.
    + rewrite IH; [ reflexivity | ]. intros I. apply N. right. exact I.
Qed.

(** Replaying [connect] over saved connections between neurons of the
    network, under fresh, distinct keys free of underscores. *)
Lemma load_connections (env : Env) (l : Dict.t (string * string) Connection.t) :
  NoDup (Dict.keys l) ->
  forall (net0 : Network.t) (w : World),
    (forall k, In k (Dict.keys l) ->
       ~ In k (Dict.keys (Network.connections net0))
       /\ plain (fst k) /\ plain (snd k)
       /\ Dict.mem (Network.neurons net0) (fst k) = true
       /\ Dict.mem (Network.neurons net0) (snd k) = true) ->
    exists net1 w1 l',
      for_each (map (fun item => (Snapshot.connection_key (fst item), saved_connection item)) l)
        (load_connection_body env) net0 w
      = (Ok net1, w1)
      /\ Network.connections net1 = Network.connections net0 ++ l'
      /\ Forall2 reloaded_entry l l'
      /\ Network.neurons net1 = Network.neurons net0
      /\ Network.state net1 = Network.state net0
      /\ Network.config net1 = Network.config net0
      /\ Network.creation_time net1 = Network.creation_time net0
      /\ Network.last_update_time net1 = Network.last_update_time net0
      /\ Network.update_count net1 = Network.update_count net0
      /\ Network.learning net1 = Network.learning net0
      /\ Network.neurogenesis net1 = Network.neurogenesis net0
      /\ Network.excluded_neurons net1 = Network.excluded_neurons net0.
Proof.
  induction l as [ | [k c] l IH ]; intros ND net0 w Hok.
  - exists net0, w, []. cbn. rewrite app_nil_r. repeat split; try reflexivity. constructor.
  - cbn [Dict.keys map fst] in ND. inversion ND as [ | k' ks Hk ND' ]; subst.
    fold (Dict.keys l) in Hk, ND'.
    destruct (Hok k) as (Hfresh & Hp1 & Hp2 & Hm1 & Hm2); [ left; reflexivity | ].
    destruct k as [src tgt]. cbn [fst snd] in Hp1, Hp2, Hm1, Hm2.
    destruct (init_spec env src tgt (Connection.get_weight c) false w)
      as (c1 & E1 & _ & _ & Hh1 & Hw1).
    assert (Hf1 : Connection.source c1 = src /\ Connection.target c1 = tgt
                  /\ Connection.bidirectional c1 = false).
    { unfold Connection.init, Connection.set_weight, bind, time, ret in E1.
      cbn in E1. inversion E1. auto. }
    destruct Hf1 as (Hs1 & Ht1 & Hb1).
    set (c2 := Connection.set_creation_time (Connection.creation_time c) c1).
    set (net1 :=
           Network.set_connections (Network.connections net0 ++ [((src, tgt), c2)]) net0).
    destruct (IH ND' net1 (later 1 (later 4 w))) as
      (net2 & w2 & l' & E & C2 & F2 & R).
    { intros k' I. destruct (Hok k') as (A & B & C & D & G); [ right; exact I | ].
      subst net1. cbn [Network.connections Network.set_connections Network.neurons].
      split; [ | auto ].
      rewrite keys_app. cbn. intros X. apply in_app_or in X.
      destruct X as [ X | [ X | [] ] ]; [ exact (A X) | subst; contradiction ]. }
    exists net2, w2, (((src, tgt), c2) :: l').
    cbn [map for_each fst]. unfold bind at 1. unfold load_connection_body at 1.
    unfold bind at 1.
    rewrite (@split_key_plain src tgt w Hp1 Hp2).
    cbv beta iota.
    unfold bind at 1. unfold Network.connect. rewrite Hm1, Hm2. cbn [negb andb].
    unfold bind at 1.
    cbn [saved_connection Snapshot.cd_weight Snapshot.cd_creation_time Snapshot.opt snd].
    rewrite E1. cbv beta iota. unfold ret at 1. cbv beta iota.
    cbn [Network.connections Network.set_connections].
    rewrite get_set_same.
    unfold bind at 1. unfold time at 1. cbv beta iota. unfold ret at 1.
    rewrite (@set_fresh _ _ _ (Network.connections net0) (src, tgt) c1 Hfresh).
    rewrite (@set_last _ _ _ (Network.connections net0) (src, tgt) c1 _ Hfresh).
    fold c2.
    split.
    { exact E. }
    subst net1.
    cbn [Network.connections Network.set_connections Network.neurons Network.state
           Network.config Network.creation_time Network.last_update_time
           Network.update_count Network.learning Network.neurogenesis
           Network.excluded_neurons] in C2, R.
    split; [ rewrite C2, <- app_assoc; reflexivity | ].
    split; [ | exact R ].
    constructor; [ | exact F2 ].
    split; [ reflexivity | ].
    subst c2. unfold reloaded_connection. cbn [fst snd].
    unfold Connection.set_creation_time, Connection.get_weight. cbn.
    unfold Connection.get_weight in Hw1. rewrite Hh1.
    repeat split; auto.
Qed.

(** Clamping twice is clamping once. *)
Lemma clamp_idempotent (x : float) :
  clamp_unit_weight (clamp_unit_weight x) = clamp_unit_weight x.
Proof.
  unfold clamp_unit_weight, Py.max, Py.min.
  destruct (PrimFloat.ltb x 1) eqn:Hhi.
  - destruct (PrimFloat.ltb (-1) x) eqn:Hlo.
    + rewrite Hhi, Hlo. reflexivity.
    + reflexivity.
  - reflexivity.
Qed.

Lemma get_reloaded_neurons (l : Dict.t string Neuron.t) (name : string) (n : Neuron.t) :
  Dict.get l name = Some n ->
  Dict.get (map reloaded_neuron l) name = Some (snd (reloaded_neuron (name, n))).
Proof.
  induction l as [ | [k0 n0] l IH ]; cbn [map Dict.get reloaded_neuron fst snd];
    [ discriminate | ].
  destruct (keyb name k0) eqn:E.
  - apply keyb_eq in E. subst k0. intros X. inversion X. reflexivity.
  - exact IH.
Qed.

Lemma keys_reloaded_neurons (l : Dict.t string Neuron.t) :
  Dict.keys (map reloaded_neuron l) = Dict.keys l.
Proof.
  unfold Dict.keys. rewrite map_map. apply map_ext. intros [k n]. reflexivity.
Qed.

Lemma get_reloaded_entries (l l' : Dict.t (string * string) Connection.t)
    (key : string * string) (c : Connection.t) :
  Forall2 reloaded_entry l l' ->
  Dict.get l key = Some c ->
  exists c', Dict.get l' key = Some c' /\ reloaded_connection key c c'.
Proof.
  intros F. induction F as [ | [k0 c0] [k0' c0'] l l' (Ek & R) F IH ];
    cbn [Dict.get]; [ discriminate | ].
  cbn [fst snd] in Ek, R. subst k0'.
  destruct (keyb key k0) eqn:E.
  - apply keyb_eq in E. subst k0. intros X. inversion X. subst. exists c0'. auto.
  - exact IH.
Qed.

Lemma keys_reloaded_entries (l l' : Dict.t (string * string) Connection.t) :
  Forall2 reloaded_entry l l' -> Dict.keys l' = Dict.keys l.
Proof.
  intros F. induction F as [ | [k0 c0] [k0' c0'] l l' (Ek & R) F IH ]; [ reflexivity | ].
  cbn [Dict.keys map fst] in *. cbn [fst] in Ek. subst. f_equal. exact IH.
Qed.

Lemma save_unfold (net : Network.t) :
  Snapshot.save net
  = {| Snapshot.doc_neurons :=
         Some (Snapshot.dict_of fst saved_neuron (Dict.items (Network.neurons net)));
       Snapshot.doc_connections :=
         Some (Snapshot.dict_of
                 (fun item : (string * string) * Connection.t =>
                    Snapshot.connection_key (fst item))
                 saved_connection (Dict.items (Network.connections net)));
       Snapshot.doc_state := Some (Network.state net);
       Snapshot.doc_config :=
         Some {| Snapshot.cf_hebbian := Some (Config.hebbian (Network.config net));
                 Snapshot.cf_neurogenesis := Some (Config.neurogenesis (Network.config net)) |};
       Snapshot.doc_metadata :=
         Some {| Snapshot.md_creation_time := Some (Network.creation_time net);
                 Snapshot.md_last_update := Some (Network.last_update_time net);
                 Snapshot.md_update_count := Some (Network.update_count net) |} |}.
Proof. reflexivity. Qed.

Lemma saved_connection_keys_nodup (l : Dict.t (string * string) Connection.t) :
  NoDup (Dict.keys l) ->
  (forall k, In k (Dict.keys l) -> plain (fst k) /\ plain (snd k)) ->
  NoDup (map (fun item : (string * string) * Connection.t =>
                Snapshot.connection_key (fst item)) l).
Proof.
  induction l as [ | [k c] l IH ]; intros ND Hp; cbn [map fst]; [ constructor | ].
  cbn [Dict.keys map fst] in ND. inversion ND as [ | k' ks Hk ND' ]; subst.
  constructor.
  - intros I. apply in_map_iff in I. destruct I as ([k2 c2] & E & I2). cbn [fst] in E.
    assert (Ik2 : In k2 (Dict.keys l)) by (apply in_map_iff; exists (k2, c2); auto).
    destruct (Hp k) as (A & B); [ left; reflexivity | ].
    destruct (Hp k2) as (A2 & B2); [ right; exact Ik2 | ].
    apply connection_key_injective in E; try assumption. subst. contradiction.
  - apply IH; [ exact ND' | ]. intros k2 I. apply Hp. right. exact I.
Qed.

Lemma load_body_of_save (env : Env) (net : Network.t) (w : World) :
  portable net ->
  exists net' w' l',
    Snapshot.load_body env (Snapshot.save net) w = (Ok net', w')
    /\ Network.neurons net' = map reloaded_neuron (Network.neurons net)
    /\ Network.connections net' = l'
    /\ Forall2 reloaded_entry (Network.connections net) l'
    /\ Network.state net' = Network.state net
    /\ Config.hebbian (Network.config net') = Config.hebbian (Network.config net)
    /\ Config.neurogenesis (Network.config net') = Config.neurogenesis (Network.config net)
    /\ Config.combined (Network.config net') = Config.combined Config.init
    /\ Network.creation_time net' = Network.creation_time net
    /\ Network.last_update_time net' = Network.last_update_time net
    /\ Network.update_count net' = Network.update_count net
    /\ Network.learning net' = None
    /\ Network.neurogenesis net' = None
    /\ Network.excluded_neurons net' = [].
Proof.
  intros (Hn & Hc & Hends).
  rewrite save_unfold. unfold Snapshot.load_body.
  cbn [Snapshot.doc_neurons Snapshot.doc_connections Snapshot.doc_state
         Snapshot.doc_config Snapshot.doc_metadata Snapshot.cf_hebbian
         Snapshot.cf_neurogenesis Snapshot.md_creation_time Snapshot.md_last_update
         Snapshot.md_update_count Snapshot.opt Snapshot.and_then Dict.items
         Config.hebbian Config.neurogenesis Config.combined].
  rewrite dict_of_nodup by exact Hn.
  rewrite dict_of_nodup
    by (apply saved_connection_keys_nodup;
        [ exact Hc | intros k I; destruct (Hends k I) as (A & B & _); auto ]).
  unfold Network.init.
  unfold bind at 1. unfold bind at 1. unfold time at 1. cbv beta iota.
  unfold bind at 1. unfold time at 1. cbv beta iota. unfold ret at 1. cbv beta iota.
  unfold bind at 1. unfold time at 1. cbv beta iota.
  unfold bind at 1. unfold time at 1. cbv beta iota.
  cbn [Network.config Network.neurons Network.connections Network.state
         Network.excluded_neurons Network.learning Network.neurogenesis].
  match goal with
  | |- context [@for_each _ _ (map (fun x : string * Neuron.t => _) _) ?b] =>
      change b with load_neuron_body
  end.
  match goal with
  | |- context [@for_each _ _ (map (fun x : string * string * Connection.t => _) _) ?b] =>
      change b with (load_connection_body env)
  end.
  unfold Dict.items.
  unfold bind at 1.
  match goal with
  | |- context [for_each _ load_neuron_body ?n ?w1] =>
      destruct (@load_neurons (Network.neurons net) Hn n w1) as (net1 & E1 & N1 & C1 & R1);
        [ intros k _ [] | ]
  end.
  rewrite E1. cbv beta iota.
  cbn [Network.config Network.neurons Network.connections Network.state
         Network.excluded_neurons Network.learning Network.neurogenesis
         Network.creation_time Network.last_update_time Network.update_count app]
    in N1, C1, R1.
  unfold bind at 1.
  match goal with
  | |- context [for_each _ (load_connection_body env) net1 ?w1] =>
      destruct (@load_connections env (Network.connections net) Hc net1 w1)
        as (net2 & w2 & l' & E2 & C2 & F2 & N2 & R2)
  end.
  { intros k I. destruct (Hends k I) as (A & B & M1 & M2).
    rewrite C1, N1. split; [ intros [] | ]. split; [ exact A | ]. split; [ exact B | ].
    split; apply in_keys_mem; rewrite keys_reloaded_neurons; apply mem_get_in_keys;
      assumption. }
  rewrite E2. cbv beta iota. unfold ret.
  exists (Network.set_state (Network.state net) net2), w2, l'.
  split; [ reflexivity | ].
  cbn [Network.neurons Network.connections Network.state Network.set_state].
  rewrite C1 in C2. cbn [app] in C2.
  split; [ rewrite N2; exact N1 | ].
  split; [ exact C2 | ]. split; [ exact F2 | ]. split; [ reflexivity | ].
  cbn [Network.config Network.creation_time Network.last_update_time Network.update_count
         Network.learning Network.neurogenesis Network.excluded_neurons Network.set_state].
  destruct R1 as (A1 & A2 & A3 & A4 & A5 & A6 & A7).
  destruct R2 as (_ & B1 & B2 & B3 & B4 & B5 & B6 & B7).
  rewrite B1, B2, B3, B4, B5, B6, B7, A1, A2, A3, A4, A5, A6, A7.
  repeat split; reflexivity.
Qed.

(** [save] followed by [load] brings a portable network back: the same
    neurons in the same order with their positions, types and attributes,
    the same pairs connected in the same order with their creation times and
    their weights (clamped once more, which changes nothing for a weight
    that [set_weight] stored), the same state, Hebbian and neurogenesis
    configuration, creation and update times and update count.  Activity
    and weight histories, the flag of bidirectional pairs, the excluded
    neurons, the [combined] configuration and the learning helpers are not
    saved and come back as in a fresh network. *)
Theorem save_load_round_trip (env : Env) (net : Network.t) (w : World)
    (Hportable : portable net) :
  exists net' w',
    Snapshot.load env (Snapshot.save net) w = (Ok (Some net'), w')
    /\ Dict.keys (Network.neurons net') = Dict.keys (Network.neurons net)
    /\ (forall name n,
          Dict.get (Network.neurons net) name = Some n ->
          exists n',
            Dict.get (Network.neurons net') name = Some n'
            /\ Neuron.name n' = name
            /\ Neuron.position n' = Neuron.position n
            /\ Neuron.type n' = Neuron.type n
            /\ Neuron.attributes n' = Neuron.attributes n
            /\ Neuron.activity_history n' = [])
    /\ Dict.keys (Network.connections net') = Dict.keys (Network.connections net)
    /\ (forall key c,
          Dict.get (Network.connections net) key = Some c ->
          exists c',
            Dict.get (Network.connections net') key = Some c'
            /\ reloaded_connection key c c'
            /\ (forall requested,
                  Connection.get_weight c = clamp_unit_weight requested ->
                  Connection.get_weight c' = Connection.get_weight c))
    /\ Network.state net' = Network.state net
    /\ Config.hebbian (Network.config net') = Config.hebbian (Network.config net)
    /\ Config.neurogenesis (Network.config net') = Config.neurogenesis (Network.config net)
    /\ Network.creation_time net' = Network.creation_time net
    /\ Network.last_update_time net' = Network.last_update_time net
    /\ Network.update_count net' = Network.update_count net
    /\ Config.combined (Network.config net') = Config.combined Config.init
    /\ Network.learning net' = None
    /\ Network.excluded_neurons net' = [].
Proof.
  destruct (@load_body_of_save env net w Hportable)
    as (net' & w' & l' & E & N & C & F & S & H1 & H2 & H3 & H4 & H5 & H6 & H7 & _ & H9).
  exists net', w'.
  split.
  { unfold Snapshot.load, try_except, bind. rewrite E. reflexivity. }
  split; [ rewrite N; apply keys_reloaded_neurons | ].
  split.
  { intros name n G. rewrite N. rewrite (get_reloaded_neurons _ _ G).
    eexists. split; [ reflexivity | ]. cbn. repeat split; reflexivity. }
  split; [ rewrite C; apply (keys_reloaded_entries F) | ].
  split.
  { intros key c G. rewrite C.
    destruct (get_reloaded_entries _ F G) as (c' & G' & R).
    exists c'. split; [ exact G' | ]. split; [ exact R | ].
    intros requested Hw. destruct R as (Rw & _). rewrite Rw, Hw.
    apply clamp_idempotent. }
  repeat split; assumption.
Qed.


(** ** Order of floats *)

Lemma SFcompare_antisym (x y : spec_float) :
  SFcompare y x = option_map CompOpp (SFcompare x y).
Proof.
  destruct x as [ sx | sx | | sx mx ex ], y as [ sy | sy | | sy my ey ];
    try reflexivity;
    try (destruct sx; reflexivity);
    try (destruct sy; reflexivity);
    try (destruct sx, sy; reflexivity).
  cbn [SFcompare option_map].
  destruct sx, sy; try reflexivity.
  - rewrite (Z.compare_antisym ey ex).
    destruct (Z.compare ey ex) eqn:E; cbn [CompOpp]; try reflexivity.
    change (Pos.compare_cont Eq my mx) with (Pos.compare my mx).
    change (Pos.compare_cont Eq mx my) with (Pos.compare mx my).
    rewrite (Pos.compare_antisym my mx). destruct (my ?= mx)%positive; reflexivity.
  - rewrite (Z.compare_antisym ey ex).
    destruct (Z.compare ey ex) eqn:E; cbn [CompOpp]; try reflexivity.
    change (Pos.compare_cont Eq my mx) with (Pos.compare my mx).
    change (Pos.compare_cont Eq mx my) with (Pos.compare mx my).
    rewrite (Pos.compare_antisym my mx). destruct (my ?= mx)%positive; reflexivity.
Qed.

(** [x < y] excludes [y < x]. *)
Lemma ltb_asym (x y : float) : PrimFloat.ltb x y = true -> PrimFloat.ltb y x = false.
Proof.
  rewrite !ltb_spec. unfold SFltb. rewrite (SFcompare_antisym (Prim2SF x) (Prim2SF y)).
  destruct (SFcompare (Prim2SF x) (Prim2SF y)) as [ [ | | ] | ]; cbn; congruence.
Qed.

(** A connection is never both excitatory and inhibitory, and one of
    weight zero, as [connect] creates it by default, is neither. *)
Theorem excitatory_or_inhibitory (c : Connection.t) :
  (Connection.is_excitatory c = true -> Connection.is_inhibitory c = false)
  /\ (Connection.is_inhibitory c = true -> Connection.is_excitatory c = false)
  /\ (Connection.get_weight c = 0%float ->
      Connection.is_excitatory c = false /\ Connection.is_inhibitory c = false).
Proof.
  unfold Connection.is_excitatory, Connection.is_inhibitory, Connection.get_weight.
  split; [ apply ltb_asym | ]. split; [ apply ltb_asym | ].
  intros ->. split; reflexivity.
Qed.

Lemma excitatory_or_inhibitory_witness :
  Connection.is_excitatory connection_A_B = true
  /\ Connection.is_inhibitory connection_A_B = false.
Proof.
  split; [ reflexivity | ].
  apply (proj1 (excitatory_or_inhibitory connection_A_B)). reflexivity.
Defined.

(** ** The strongest connections *)

Lemma insert_desc_perm {A} (key : A -> float) (x : A) (l : list A) :
  Permutation (Network.insert_desc key x l) (x :: l).
Proof.
  induction l as [ | y l IH ]; cbn [Network.insert_desc]; [ apply Permutation_refl | ].
  destruct (PrimFloat.ltb (key y) (key x)); [ apply Permutation_refl | ].
  apply perm_trans with (y :: x :: l); [ apply perm_skip; exact IH | apply perm_swap ].
Qed.

Lemma sorted_desc_fold_perm {A} (key : A -> float) (l acc : list A) :
  Permutation (fold_left (fun acc x => Network.insert_desc key x acc) l acc) (acc ++ l).
Proof.
  revert acc. induction l as [ | x l IH ]; intros acc; cbn [fold_left].
  - rewrite app_nil_r. apply Permutation_refl.
  - eapply perm_trans; [ apply IH | ].
    eapply perm_trans; [ apply Permutation_app_tail; apply insert_desc_perm | ].
    cbn [app]. apply Permutation_middle.
Qed.

Lemma sorted_desc_perm {A} (key : A -> float) (l : list A) :
  Permutation (Network.sorted_desc key l) l.
Proof. apply (sorted_desc_fold_perm key l []). Qed.

Lemma insert_desc_descending {A} (key : A -> float) (x : A) (l : list A) :
  descending key l -> descending key (Network.insert_desc key x l).
Proof.
  intros D. induction D as [ | y | y z l Hyz D IH ]; cbn [Network.insert_desc].
  - constructor.
  - destruct (PrimFloat.ltb (key y) (key x)) eqn:E.
    + constructor; [ apply ltb_asym; exact E | constructor ].
    + constructor; [ exact E | constructor ].
  - destruct (PrimFloat.ltb (key y) (key x)) eqn:E.
    + constructor; [ apply ltb_asym; exact E | ]. constructor; assumption.
    + cbn [Network.insert_desc] in IH.
      destruct (PrimFloat.ltb (key z) (key x)) eqn:E2.
      * constructor; [ exact E | exact IH ].
      * constructor; [ exact Hyz | exact IH ].
Qed.

Lemma sorted_desc_descending {A} (key : A -> float) (l : list A) :
  descending key (Network.sorted_desc key l).
Proof.
  unfold Network.sorted_desc.
  assert (G : forall acc, descending key acc ->
                          descending key (fold_left (fun acc x => Network.insert_desc key x acc) l acc)).
  { induction l as [ | x l IH ]; intros acc D; cbn [fold_left]; [ exact D | ].
    apply IH. apply insert_desc_descending. exact D. }
  apply G. constructor.
Qed.

Lemma in_firstn {A} (n : nat) (l : list A) (x : A) : In x (firstn n l) -> In x l.
Proof.
  revert n. induction l as [ | y l IH ]; intros [ | n ]; cbn; try tauto.
  intros [ E | I ]; [ left; exact E | right; apply (IH n); exact I ].
Qed.

Lemma firstn_descending {A} (key : A -> float) (n : nat) (l : list A) :
  descending key l -> descending key (firstn n l).
Proof.
  intros D. revert n. induction D as [ | y | y z l Hyz D IH ]; intros n.
  - rewrite firstn_nil. constructor.
  - destruct n as [ | [ | n ] ]; cbn; constructor.
  - destruct n as [ | [ | n ] ]; cbn [firstn]; try constructor.
    + exact Hyz.
    + apply (IH (S n)).
Qed.

(** [get_strongest_connections(count)] returns [count] triples, or all of
    them when there are fewer; each is a connection of the table with its
    weight; none has a smaller absolute weight than the one after it; and
    with a count that covers the table the result is a rearrangement of
    all the connections. *)
Theorem strongest_connections_spec (count : nat) (net : Network.t) :
  let all :=
    map (fun item : (string * string) * Connection.t =>
           (fst (fst item), snd (fst item), Connection.get_weight (snd item)))
      (Network.connections net) in
  let result := Network.get_strongest_connections count net in
  List.length result = Nat.min count (List.length (Network.connections net))
  /\ (forall x, In x result -> In x all)
  /\ descending (fun x : string * string * float => PrimFloat.abs (snd x)) result
  /\ ((List.length (Network.connections net) <= count)%nat -> Permutation result all).
Proof.
  intros all result. subst result. unfold Network.get_strongest_connections, Dict.items.
  fold all.
  set (key := fun x : string * string * float => PrimFloat.abs (snd x)).
  pose proof (sorted_desc_perm key all) as P.
  assert (L : List.length (Network.sorted_desc key all) = List.length (Network.connections net)).
  { rewrite (Permutation_length P). subst all. apply length_map. }
  split; [ rewrite length_firstn, L; reflexivity | ].
  split.
  { intros x I. apply (@Permutation_in _ _ _ x P). apply (@in_firstn _ count _ x I). }
  split; [ apply firstn_descending; apply sorted_desc_descending | ].
  intros Hc. rewrite firstn_all2 by (rewrite L; exact Hc). exact P.
Qed.

(** ** Backpropagation: validation and the length of a training run *)

Lemma swap_length {A} (l : list A) (i j : nat) : List.length (swap l i j) = List.length l.
Proof.
  unfold swap.
  destruct (nth_error l i) as [ a | ] eqn:Ei; [ | reflexivity ].
  destruct (nth_error l j) as [ b | ] eqn:Ej; [ | reflexivity ].
  assert (Li : (i < List.length l)%nat) by (apply nth_error_Some; congruence).
  assert (Lj : (j < List.length l)%nat) by (apply nth_error_Some; congruence).
  assert (L1 : List.length (firstn i l ++ b :: List.skipn (S i) l) = List.length l).
  { rewrite length_app, length_firstn. cbn [List.length]. rewrite length_skipn. lia. }
  rewrite length_app, length_firstn. cbn [List.length]. rewrite length_skipn, L1. lia.
Qed.

(** The shuffle always returns, and returns as many elements as it got. *)
Lemma shuffle_from_length {A} (env : Env) (i : nat) (l : list A) (w : World) :
  exists l' w',
    shuffle_from env i l w = (Ok l', w') /\ List.length l' = List.length l.
Proof.
  revert l w. induction i as [ | i IH ]; intros l w; cbn [shuffle_from].
  - exists l, w. split; reflexivity.
  - unfold bind, draw.
    match goal with
    | |- exists l' w', shuffle_from env i ?l1 ?w1 = _ /\ _ =>
        destruct (IH l1 w1) as (l' & w' & E & L)
    end.
    exists l', w'. split; [ exact E | ]. rewrite L. apply swap_length.
Qed.

Lemma shuffle_length {A} (env : Env) (l : list A) (w : World) :
  exists l' w', shuffle env l w = (Ok l', w') /\ List.length l' = List.length l.
Proof. apply shuffle_from_length. Qed.

(** Without layers a forward or a backward pass raises [ValueError], and
    so does a backward pass whose targets do not match the output layer in
    number; each leaves the clock and the generator untouched.  A [train] of
    at least one epoch on a training set that is not empty raises
    [ValueError] too when no layers are defined. *)
Theorem backprop_validation (env : Env) (self : BackpropNetwork.t) (w : World) :
  (BackpropNetwork.layers self = [] ->
     (forall inputs, BackpropNetwork.forward_pass env inputs self w = (Raise ValueError, w))
     /\ (forall targets,
           BackpropNetwork.backward_pass env targets self w = (Raise ValueError, w))
     /\ (forall training_data epochs target_error callback,
           training_data <> [] -> (0 < epochs)%nat ->
           fst (BackpropNetwork.train env training_data epochs target_error callback self w)
           = Raise ValueError))
  /\ (forall targets,
        List.length targets <> List.length (List.last (BackpropNetwork.layers self) []) ->
        BackpropNetwork.backward_pass env targets self w = (Raise ValueError, w)).
Proof.
  split.
  - intros Hl. split; [ | split ].
    + intros inputs. unfold BackpropNetwork.forward_pass. rewrite Hl. reflexivity.
    + intros targets. unfold BackpropNetwork.backward_pass. rewrite Hl. reflexivity.
    + intros data epochs te cb Hdata Hepochs.
      destruct epochs as [ | n ]; [ lia | ].
      unfold BackpropNetwork.train. cbn [BackpropNetwork.train_from].
      unfold bind at 1. unfold BackpropNetwork.run_epoch. unfold bind at 1.
      destruct (shuffle_length env data w) as (data' & w' & E & L).
      rewrite E. cbv beta iota.
      destruct data' as [ | [inputs targets] data' ].
      { destruct data; [ contradiction | cbn in L; discriminate ]. }
      cbn [for_each]. unfold bind at 1. unfold bind at 1. unfold bind at 1.
      unfold BackpropNetwork.forward_pass. rewrite Hl. reflexivity.
  - intros targets Hlen. unfold BackpropNetwork.backward_pass.
    destruct (BackpropNetwork.layers self) as [ | l0 ls ]; [ reflexivity | ].
    apply Nat.eqb_neq in Hlen. rewrite Hlen. reflexivity.
Qed.

Lemma backprop_validation_witness :
  BackpropNetwork.forward_pass clock_3_then_6 [1%float]
    (BackpropNetwork.init two_active_neurons) world0
  = (Raise ValueError, world0)
  /\ fst (BackpropNetwork.train clock_3_then_6 [([1%float], [1%float])] 10 0.01%float None
            (BackpropNetwork.init two_active_neurons) world0)
     = Raise ValueError
  /\ BackpropNetwork.backward_pass clock_3_then_6 [1%float; 2%float]
       (BackpropNetwork.set_layers [["A"%string]; ["B"%string]]
          (BackpropNetwork.init two_active_neurons)) world0
     = (Raise ValueError, world0).
Proof.
  destruct (backprop_validation clock_3_then_6 (BackpropNetwork.init two_active_neurons)
              world0) as (H & _).
  destruct (H eq_refl) as (Hf & _ & Ht).
  destruct (backprop_validation clock_3_then_6
              (BackpropNetwork.set_layers [["A"%string]; ["B"%string]]
                 (BackpropNetwork.init two_active_neurons)) world0) as (_ & Hb).
  split; [ apply Hf | ].
  split; [ apply Ht; [ discriminate | lia ] | ].
  apply Hb. cbn. lia.
Defined.

Lemma train_from_length (env : Env) (remaining : nat) :
  forall (epoch : Z) (data : list (list float * list float)) (target_error : float)
         (callback : option (Z -> float -> bool)) (errors : list float)
         (self : BackpropNetwork.t),
    returns
      (BackpropNetwork.train_from env remaining epoch data target_error callback errors self)
      (fun r =>
         (List.length (fst r) <= List.length errors + remaining)%nat
         /\ (List.length errors + Nat.min 1 remaining <= List.length (fst r))%nat).
Proof.
  induction remaining as [ | n IH ]; intros epoch data te cb errors self;
    cbn [BackpropNetwork.train_from].
  - apply returns_ret. cbn [fst]. lia.
  - eapply returns_bind; [ apply returns_any | ].
    intros [[epoch_error data'] self'] _.
    destruct data' as [ | x data' ]; [ apply returns_raise | ].
    assert (L : forall e : float, List.length (errors ++ [e]) = S (List.length errors))
      by (intros e; rewrite length_app; cbn; lia).
    destruct (match cb with Some cb0 => _ | None => false end).
    + apply returns_ret. cbn [fst]. rewrite L. lia.
    + destruct (PrimFloat.leb _ _).
      * apply returns_ret. cbn [fst]. rewrite L. lia.
      * eapply returns_weaken; [ apply IH | ].
        intros r (H1 & H2). rewrite L in H1, H2. lia.
Qed.

(** [train] returns at most [epochs] errors and, when it is given at least
    one epoch, at least one; with no epoch it returns the empty list and
    changes nothing, even for an empty training set. *)
Theorem train_returns_between_one_and_epochs_errors (env : Env)
    (training_data : list (list float * list float)) (epochs : nat) (target_error : float)
    (callback : option (Z -> float -> bool)) (self : BackpropNetwork.t) :
  returns (BackpropNetwork.train env training_data epochs target_error callback self)
    (fun r => (List.length (fst r) <= epochs)%nat
              /\ ((0 < epochs)%nat -> (1 <= List.length (fst r))%nat))
  /\ (epochs = 0%nat ->
      forall w,
        BackpropNetwork.train env training_data epochs target_error callback self w
        = (Ok ([], self), w)).
Proof.
  split.
  - unfold BackpropNetwork.train.
    eapply returns_weaken; [ apply train_from_length | ].
    intros r (H1 & H2). cbn [List.length] in H1, H2. split; [ lia | ].
    intros Hpos. destruct epochs; [ lia | cbn in H2; lia ].
  - intros -> w. reflexivity.
Qed.

Lemma scenario_network_portable : portable scenario_network.
Proof.
  split; [ | split ].
  - repeat constructor; cbn; intuition discriminate.
  - repeat constructor. cbn. tauto.
  - intros key [ <- | [] ]. repeat split; reflexivity.
Defined.

Lemma save_load_round_trip_witness :
  exists net' w',
    Snapshot.load clock_3_then_6 (Snapshot.save scenario_network) world0
    = (Ok (Some net'), w')
    /\ Dict.keys (Network.neurons net') = ["A"%string; "B"%string]
    /\ Dict.keys (Network.connections net') = [("A"%string, "B"%string)]
    /\ Network.state net' = [("A"%string, VInt 80); ("B"%string, VInt 90)].
Proof.
  destruct (@save_load_round_trip clock_3_then_6 scenario_network world0
              scenario_network_portable)
    as (net' & w' & E & Kn & _ & Kc & _ & S & _).
  exists net', w'. split; [ exact E | ].
  split; [ exact Kn | ]. split; [ exact Kc | exact S ].
Defined.

Lemma strongest_connections_spec_witness :
  Network.get_strongest_connections 5 scenario_network
  = [("A"%string, "B"%string, 0.5%float)]
  /\ Permutation (Network.get_strongest_connections 5 scenario_network)
       [("A"%string, "B"%string, 0.5%float)].
Proof.
  split; [ reflexivity | ].
  apply (proj2 (proj2 (proj2 (strongest_connections_spec 5 scenario_network)))).
  cbn. lia.
Defined.

Lemma train_returns_between_one_and_epochs_errors_witness :
  exists errors self' w',
    BackpropNetwork.train clock_3_then_6 [([100%float], [50%float])] 3 0.01%float None
      (BackpropNetwork.set_layers [["A"%string]; ["B"%string]]
         (BackpropNetwork.init scenario_network)) world0
    = (Ok (errors, self'), w')
    /\ (List.length errors <= 3)%nat /\ (1 <= List.length errors)%nat.
Proof.
  pose proof (proj1 (train_returns_between_one_and_epochs_errors clock_3_then_6
                       [([100%float], [50%float])] 3 0.01%float None
                       (BackpropNetwork.set_layers [["A"%string]; ["B"%string]]
                          (BackpropNetwork.init scenario_network))) world0) as R.
  destruct (BackpropNetwork.train clock_3_then_6 [([100%float], [50%float])] 3 0.01%float
              None
              (BackpropNetwork.set_layers [["A"%string]; ["B"%string]]
                 (BackpropNetwork.init scenario_network)) world0)
    as [[[errors self'] | e] w'] eqn:E.
  - exists errors, self', w'. cbn [fst] in R. destruct R as (R1 & R2).
    split; [ reflexivity | ]. split; [ exact R1 | apply R2; lia ].
  - vm_compute in E. discriminate E.
Defined.

(** ** Neurogenesis: what a call does once the cooldown is over *)

(** Past the cooldown, with signals that are floats, booleans or integers
    within the range of floats, when no counter exceeds its threshold, the
    call returns [False]: the counters have been fed, but no neuron is
    created, the network is untouched and the cooldown clock is not
    restarted. *)
Theorem no_trigger_after_cooldown (env : Env) (state : Dict.t string value)
    (self : Neurogenesis.t) (net : Network.t) (w : World) (novelty stress reward : float)
    (Hnovelty : as_int_or_float (Dict.get_default state "novelty_exposure"%string (VInt 0))
                = Some (Ok novelty))
    (Hstress : as_int_or_float (Dict.get_default state "sustained_stress"%string (VInt 0))
               = Some (Ok stress))
    (Hreward : as_int_or_float (Dict.get_default state "recent_rewards"%string (VInt 0))
               = Some (Ok reward))
    (Helapsed :
       PrimFloat.leb (time_time env (ticks w) - Neurogenesis.last_neuron_time self)
         (neurogenesis_setting net "cooldown" 300)
       = false) :
  let decay := neurogenesis_setting net "decay_rate" 0.95 in
  let novelty' := fed_counter (Neurogenesis.novelty_counter self) decay novelty in
  let stress' := fed_counter (Neurogenesis.stress_counter self) decay stress in
  let reward' := fed_counter (Neurogenesis.reward_counter self) decay reward in
  PrimFloat.ltb (neurogenesis_setting net "novelty_threshold" 3.0) novelty' = false ->
  PrimFloat.ltb (neurogenesis_setting net "stress_threshold" 0.7) stress' = false ->
  PrimFloat.ltb (neurogenesis_setting net "reward_threshold" 0.6) reward' = false ->
  Genesis.check_neurogenesis env state self net w
  = (Ok (false,
         {| Neurogenesis.novelty_counter := novelty';
            Neurogenesis.stress_counter := stress';
            Neurogenesis.reward_counter := reward';
            Neurogenesis.new_neurons := Neurogenesis.new_neurons self;
            Neurogenesis.last_neuron_time := Neurogenesis.last_neuron_time self |},
         net),
     later 1 w).
Proof.
  intros decay novelty' stress' reward' Tn Ts Tr.
  unfold Genesis.check_neurogenesis, Genesis.add_signal.
  rewrite Hnovelty, Hstress, Hreward.
  unfold bind at 1. unfold time at 1. cbv beta iota.
  unfold bind at 1. unfold bind at 1. unfold lift at 1. unfold ret at 1. cbv beta iota.
  unfold bind at 1. unfold bind at 1. unfold lift at 1. unfold ret at 1. cbv beta iota.
  unfold bind at 1. unfold bind at 1. unfold lift at 1. unfold ret at 1. cbv beta iota.
  unfold neurogenesis_setting, fed_counter in *.
  fold decay. subst novelty' stress' reward'. cbv zeta.
  rewrite Helapsed, Tn, Ts, Tr.
  cbn [app for_each]. unfold bind, ret. reflexivity.
Qed.

Lemma no_trigger_after_cooldown_witness :
  Genesis.check_neurogenesis clock_0_then_1000 [("novelty_exposure"%string, VFloat 1)]
    helper_with_novelty_2 two_active_neurons (later 5 world0)
  = (Ok (false,
         {| Neurogenesis.novelty_counter := (2 * 0.95 + 1)%float;
            Neurogenesis.stress_counter := (0 * 0.95 + 0)%float;
            Neurogenesis.reward_counter := (0 * 0.95 + 0)%float;
            Neurogenesis.new_neurons := [];
            Neurogenesis.last_neuron_time := 0 |},
         two_active_neurons),
     later 6 world0).
Proof.
  refine (@no_trigger_after_cooldown clock_0_then_1000
            [("novelty_exposure"%string, VFloat 1)] helper_with_novelty_2
            two_active_neurons (later 5 world0) 1%float 0%float 0%float _ _ _ _ _ _ _);
    reflexivity.
Defined.

(** ** Neurogenesis: a trigger that creates a neuron *)

Lemma genesis_insert_in (x y : string * float) (l : list (string * float)) :
  In y (Genesis.insert_desc x l) -> y = x \/ In y l.
Proof.
  induction l as [ | z l IH ]; cbn [Genesis.insert_desc].
  - intros [ E | [] ]. left. symmetry. exact E.
  - destruct (PrimFloat.ltb (snd z) (snd x)).
    + intros [ E | I ]; [ left; symmetry; exact E | right; exact I ].
    + intros [ E | I ]; [ right; left; exact E | ].
      destruct (IH I) as [ E | I' ]; [ left; exact E | right; right; exact I' ].
Qed.

Lemma genesis_sorted_in (y : string * float) (l : list (string * float)) :
  In y (Genesis.sorted_desc l) -> In y l.
Proof.
  unfold Genesis.sorted_desc.
  assert (G : forall acc, In y (fold_left (fun acc x => Genesis.insert_desc x acc) l acc)
                          -> In y acc \/ In y l).
  { induction l as [ | x l IH ]; intros acc; cbn [fold_left].
    - intros I. left. exact I.
    - intros I. destruct (IH _ I) as [ I' | I' ].
      + destruct (genesis_insert_in _ _ _ I') as [ E | I'' ].
        * right. left. symmetry. exact E.
        * left. exact I''.
      + right. right. exact I'. }
  intros I. destruct (G [] I) as [ [] | I' ]. exact I'.
Qed.

(** The list of the neurons with their values, when every value can be
    read. *)
Lemma valued_neurons (net : Network.t) (names : list string) (w : World) :
  in_float_range (Network.state net) ->
  forall acc,
    for_each names
      (fun (valued : list (string * float)) (name : string) =>
         numeric <- lift (Network.get_neuron_value net name) ;;
         ret (valued ++ [(name, numeric)]))
      acc w
    = (Ok (acc ++ map (fun name => (name, value_of net name)) names), w).
Proof.
  intros R. induction names as [ | name names IH ]; intros acc; cbn [for_each map].
  - rewrite app_nil_r. reflexivity.
  - unfold bind at 1. unfold bind at 1. unfold lift at 1.
    rewrite (get_neuron_value_in_range net name R). unfold ret at 1.
    rewrite IH. rewrite <- app_assoc. reflexivity.
Qed.

(** Choosing a position never fails on a state within the range of
    floats: the anchor is one of the neurons. *)
Lemma find_position_total (env : Env) (neuron_type : string) (net : Network.t) (w : World) :
  in_float_range (Network.state net) ->
  exists p w', Genesis._find_position_for_new_neuron env neuron_type net w = (Ok p, w').
Proof.
  intros R. unfold Genesis._find_position_for_new_neuron.
  unfold bind at 1. rewrite (valued_neurons net _ w R). cbn [app].
  destruct (firstn 3 (Genesis.sorted_desc
              (map (fun name => (name, value_of net name))
                 (Dict.keys (Network.neurons net))))) as [ | [anchor v] rest ] eqn:E.
  - unfold bind, uniform, draw, ret. cbv beta iota.
    eexists; eexists; reflexivity.
  - assert (I : In anchor (Dict.keys (Network.neurons net))).
    { assert (I : In (anchor, v) ((anchor, v) :: rest)) by (left; reflexivity).
      rewrite <- E in I. apply in_firstn in I. apply genesis_sorted_in in I.
      apply in_map_iff in I. destruct I as (name & Ename & I).
      inversion Ename. subst. exact I. }
    apply in_keys_mem in I. apply mem_get in I. destruct I as (neuron & G).
    rewrite G. destruct (Neuron.get_position neuron) as [bx by'].
    unfold bind, uniform, draw, ret. cbv beta iota.
    eexists; eexists; reflexivity.
Qed.

(** A bidirectional [connect] between two neurons of the network. *)
Lemma connect_both_ways (env : Env) (source target : string) (weight : float)
    (net : Network.t) (w : World) :
  Dict.mem (Network.neurons net) source = true ->
  Dict.mem (Network.neurons net) target = true ->
  exists c conns w',
    Network.connect env source target weight true net w
    = (Ok (c, Network.set_connections conns net), w')
    /\ Dict.mem conns (source, target) = true
    /\ Dict.mem conns (target, source) = true
    /\ (forall key, Dict.mem (Network.connections net) key = true -> Dict.mem conns key = true)
    /\ (forall key, key <> (source, target) -> key <> (target, source) ->
          Dict.get conns key = Dict.get (Network.connections net) key).
Proof.
  intros Hs Ht. unfold Network.connect. rewrite Hs, Ht. cbn [negb andb].
  destruct (init_spec env source target weight true w) as (c & E & _).
  unfold bind at 1. rewrite E. cbv beta iota.
  cbn [Network.connections Network.set_connections].
  assert (Mono : forall key, Dict.mem (Network.connections net) key = true ->
                   Dict.mem (Dict.set (Network.connections net) (source, target) c) key = true).
  { intros key M. destruct (keyb key (source, target)) eqn:K.
    - apply keyb_eq in K. subst key. apply mem_set_same.
    - rewrite mem_set_other; [ exact M | ].
      intros N. subst key. rewrite keyb_refl in K. discriminate. }
  destruct (Dict.mem (Dict.set (Network.connections net) (source, target) c) (target, source))
    eqn:R; cbn [negb].
  - unfold ret. exists c. eexists. eexists. split; [ reflexivity | ].
    split; [ apply mem_set_same | ]. split; [ exact R | ].
    split; [ exact Mono | ].
    intros key N _. apply get_set_other. exact N.
  - destruct (init_spec env target source weight true (later 4 w)) as (r & Er & _).
    unfold bind. rewrite Er. cbv beta iota. unfold ret.
    exists c. eexists. eexists. split; [ reflexivity | ].
    assert (D : (source, target) <> (target, source)).
    { intros Eq. rewrite <- Eq in R. rewrite mem_set_same in R. discriminate. }
    split; [ rewrite mem_set_other by exact D; apply mem_set_same | ].
    split; [ apply mem_set_same | ].
    split.
    + intros key M. destruct (keyb key (target, source)) eqn:K.
      * apply keyb_eq in K. subst key. apply mem_set_same.
      * rewrite mem_set_other; [ apply Mono; exact M | ].
        intros N. subst key. rewrite keyb_refl in K. discriminate.
    + intros key N1 N2. rewrite get_set_other by exact N2. apply get_set_other. exact N1.
Qed.

Lemma create_connections_unfold (env : Env) (new_name neuron_type : string)
    (net : Network.t) :
  Genesis._create_connections_for_new_neuron env new_name neuron_type net
  = for_each (Dict.keys (Network.neurons net))
      (connect_new_body env new_name neuron_type
         (neurogenesis_setting net "new_neuron_connection_strength" 0.3))
      net.
Proof. reflexivity. Qed.

(** The loop of [_create_connections_for_new_neuron]: it only changes the
    connection table, and links the new neuron both ways with every neuron
    it visits that is neither the new one nor excluded. *)
Lemma connect_new_fold (env : Env) (new_name neuron_type : string) (strength : float)
    (names : list string) :
  forall (net : Network.t) (w : World),
    Dict.mem (Network.neurons net) new_name = true ->
    (forall e, In e names -> Dict.mem (Network.neurons net) e = true) ->
    exists conns w',
      for_each names (connect_new_body env new_name neuron_type strength) net w
      = (Ok (Network.set_connections conns net), w')
      /\ (forall e, In e names -> e <> new_name ->
            existsb (String.eqb e) (Network.excluded_neurons net) = false ->
            Dict.mem conns (new_name, e) = true /\ Dict.mem conns (e, new_name) = true)
      /\ (forall key, Dict.mem (Network.connections net) key = true ->
            Dict.mem conns key = true)
      /\ (forall key, fst key <> new_name -> snd key <> new_name ->
            Dict.get conns key = Dict.get (Network.connections net) key).
Proof.
  induction names as [ | e names IH ]; intros net w Hnew Hall.
  - exists (Network.connections net), w. cbn [for_each]. unfold ret.
    split; [ destruct net; reflexivity | ].
    split; [ intros e [] | ]. split; auto.
  - cbn [for_each]. unfold bind at 1.
    assert (Step : exists conns1 w1,
              connect_new_body env new_name neuron_type strength net e w
              = (Ok (Network.set_connections conns1 net), w1)
              /\ (e <> new_name ->
                  existsb (String.eqb e) (Network.excluded_neurons net) = false ->
                  Dict.mem conns1 (new_name, e) = true /\ Dict.mem conns1 (e, new_name) = true)
              /\ (forall key, Dict.mem (Network.connections net) key = true ->
                    Dict.mem conns1 key = true)
              /\ (forall key, fst key <> new_name -> snd key <> new_name ->
                    Dict.get conns1 key = Dict.get (Network.connections net) key)).
    { unfold connect_new_body.
      destruct (String.eqb e new_name) eqn:En; cbn [negb andb].
      - exists (Network.connections net), w. unfold ret.
        split; [ destruct net; reflexivity | ].
        split; [ | split; auto ].
        intros N. apply String.eqb_eq in En. contradiction.
      - destruct (existsb (String.eqb e) (Network.excluded_neurons net)) eqn:Ex; cbn [negb].
        + exists (Network.connections net), w. unfold ret.
          split; [ destruct net; reflexivity | ].
          split; [ intros _ D; discriminate | split; auto ].
        + assert (Wt : exists weight w0,
                    (if existsb (String.eqb e) (related_neurons neuron_type)
                     then ret (strength * 2.0)%float
                     else uniform env (- strength)%float strength) w = (Ok weight, w0)).
          { destruct (existsb (String.eqb e) (related_neurons neuron_type)).
            - unfold ret. eexists; eexists; reflexivity.
            - unfold uniform, bind, draw, ret. eexists; eexists; reflexivity. }
          destruct Wt as (weight & w0 & Ew).
          unfold bind at 1. rewrite Ew. cbv beta iota.
          destruct (@connect_both_ways env new_name e weight net w0 Hnew
                      (Hall e (or_introl eq_refl)))
            as (c & conns1 & w1 & Ec & M1 & M2 & Mono & Frame).
          unfold bind. rewrite Ec. cbv beta iota. unfold ret.
          exists conns1, w1. split; [ reflexivity | ].
          split; [ intros _ _; split; assumption | ].
          split; [ exact Mono | ].
          intros key N1 N2. apply Frame.
          * intros Eq. subst key. apply N1. reflexivity.
          * intros Eq. subst key. apply N2. reflexivity. }
    destruct Step as (conns1 & w1 & E1 & Link1 & Mono1 & Frame1).
    rewrite E1. cbv beta iota.
    destruct (IH (Network.set_connections conns1 net) w1) as
      (conns & w' & E & Link & Mono & Frame).
    { exact Hnew. }
    { intros e' I. apply Hall. right. exact I. }
    rewrite E. exists conns, w'.
    split; [ reflexivity | ].
    cbn [Network.connections Network.set_connections Network.excluded_neurons] in *.
    split; [ | split ].
    + intros e' [ Eq | I ] N Ex.
      * subst e'. destruct (Link1 N Ex) as (A & B).
        split; apply Mono; assumption.
      * apply Link; assumption.
    + intros key M. apply Mono. apply Mono1. exact M.
    + intros key N1 N2. rewrite Frame by assumption. apply Frame1; assumption.
Qed.

Lemma create_novel_unfold (env : Env) (self : Neurogenesis.t) (net : Network.t) :
  Genesis._create_neuron env "novelty" self net
  = (position <- Genesis._find_position_for_new_neuron env "novelty" net ;;
     ' (_, network) <-
       Network.add_neuron (next_novel_name self) (VInt 50) (Some position) "novelty" None net ;;
     network <-
       Genesis._create_connections_for_new_neuron env (next_novel_name self) "novelty"
         network ;;
     ret (next_novel_name self, with_created (next_novel_name self) self, network)).
Proof. reflexivity. Qed.

(** [_create_neuron] for a novelty trigger, when the name is free. *)
Lemma create_novel_neuron (env : Env) (self : Neurogenesis.t) (net : Network.t) (w : World) :
  in_float_range (Network.state net) ->
  Dict.mem (Network.neurons net) (next_novel_name self) = false ->
  exists position conns w',
    Genesis._create_neuron env "novelty" self net w
    = (Ok (next_novel_name self, with_created (next_novel_name self) self,
           Network.set_connections conns
             (with_new_neuron (next_novel_name self) position "novelty" net)),
       w')
    /\ links_new_neuron (next_novel_name self) net conns.
Proof.
  intros R Free. rewrite create_novel_unfold.
  generalize dependent (next_novel_name self). intros name Free.
  destruct (@find_position_total env "novelty" net w R) as (position & w1 & Ep).
  unfold bind at 1. rewrite Ep. cbv beta iota.
  unfold Network.add_neuron. rewrite Free.
  unfold bind at 1. unfold ret at 1. cbv beta iota.
  set (net1 := with_new_neuron name position "novelty" net).
  change (Network.set_state _ (Network.set_neurons _ net)) with net1.
  rewrite create_connections_unfold.
  assert (Hnew : Dict.mem (Network.neurons net1) name = true) by apply mem_set_same.
  destruct (@connect_new_fold env name "novelty"
              (neurogenesis_setting net1 "new_neuron_connection_strength" 0.3)
              (Dict.keys (Network.neurons net1)) net1 w1 Hnew)
    as (conns & w' & E & Link & Mono & Frame).
  { intros e I. apply in_keys_mem. exact I. }
  unfold bind. rewrite E. cbv beta iota. unfold ret.
  exists position, conns, w'. split; [ reflexivity | ].
  split; [ | split ].
  - intros e M Ex.
    assert (N : e <> name).
    { intros Eq. subst e. rewrite M in Free. discriminate. }
    apply Link.
    + apply mem_get_in_keys. subst net1. unfold with_new_neuron.
      cbn [Network.neurons Network.set_state Network.set_neurons].
      rewrite mem_set_other by exact N. exact M.
    + exact N.
    + exact Ex.
  - exact Mono.
  - exact Frame.
Qed.

(** ** Neurogenesis: a novelty trigger on its own *)

(** Past the cooldown, on a state and with signals that hold no integer
    beyond the range of floats, when the novelty counter alone exceeds its
    threshold and the name [novel_<n>] is free, the call returns [True]: the
    neuron is added with state 50 and is linked both ways with every neuron
    that is not excluded, the connections between the other neurons are
    untouched, the novelty counter restarts at 0, the cooldown restarts at
    the time read at the start of the call and the learning rate of the
    Hebbian helper is set to the boosted base rate. *)
Theorem novelty_creates_neuron (env : Env) (state : Dict.t string value)
    (self : Neurogenesis.t) (net : Network.t) (w : World) (novelty stress reward : float)
    (Hnovelty : as_int_or_float (Dict.get_default state "novelty_exposure"%string (VInt 0))
                = Some (Ok novelty))
    (Hstress : as_int_or_float (Dict.get_default state "sustained_stress"%string (VInt 0))
               = Some (Ok stress))
    (Hreward : as_int_or_float (Dict.get_default state "recent_rewards"%string (VInt 0))
               = Some (Ok reward))
    (Helapsed :
       PrimFloat.leb (time_time env (ticks w) - Neurogenesis.last_neuron_time self)
         (neurogenesis_setting net "cooldown" 300)
       = false)
    (Hrange : in_float_range (Network.state net))
    (Hfree : Dict.mem (Network.neurons net) (next_novel_name self) = false) :
  let decay := neurogenesis_setting net "decay_rate" 0.95 in
  let novelty' := fed_counter (Neurogenesis.novelty_counter self) decay novelty in
  let stress' := fed_counter (Neurogenesis.stress_counter self) decay stress in
  let reward' := fed_counter (Neurogenesis.reward_counter self) decay reward in
  let name := next_novel_name self in
  PrimFloat.ltb (neurogenesis_setting net "novelty_threshold" 3.0) novelty' = true ->
  PrimFloat.ltb (neurogenesis_setting net "stress_threshold" 0.7) stress' = false ->
  PrimFloat.ltb (neurogenesis_setting net "reward_threshold" 0.6) reward' = false ->
  exists position conns net' w',
    Genesis.check_neurogenesis env state self net w
    = (Ok (true,
           {| Neurogenesis.novelty_counter := 0;
              Neurogenesis.stress_counter := stress';
              Neurogenesis.reward_counter := reward';
              Neurogenesis.new_neurons := Neurogenesis.new_neurons self ++ [name];
              Neurogenesis.last_neuron_time := time_time env (ticks w) |},
           net'),
       w')
    /\ Network.neurons net'
       = Network.neurons net ++ [(name, Neuron.init name (Some position) "novelty" None)]
    /\ Network.state net' = Dict.set (Network.state net) name (VInt 50)
    /\ Network.get_neuron_value net' name = Ok 50%float
    /\ Network.connections net' = conns
    /\ links_new_neuron name net conns
    /\ Network.learning net' = boosted net
    /\ Network.config net' = Network.config net
    /\ Network.excluded_neurons net' = Network.excluded_neurons net.
Proof.
  intros decay novelty' stress' reward' name Tn Ts Tr.
  unfold Genesis.check_neurogenesis, Genesis.add_signal.
  rewrite Hnovelty, Hstress, Hreward.
  unfold bind at 1. unfold time at 1. cbv beta iota.
  unfold bind at 1. unfold bind at 1. unfold lift at 1. unfold ret at 1. cbv beta iota.
  unfold bind at 1. unfold bind at 1. unfold lift at 1. unfold ret at 1. cbv beta iota.
  unfold bind at 1. unfold bind at 1. unfold lift at 1. unfold ret at 1. cbv beta iota.
  unfold neurogenesis_setting, fed_counter in *.
  fold decay. subst novelty' stress' reward'. cbv zeta.
  rewrite Helapsed, Tn, Ts, Tr.
  cbn [app for_each].
  set (self0 := {| Neurogenesis.novelty_counter := 0%float;
                   Neurogenesis.stress_counter := _;
                   Neurogenesis.reward_counter := _;
                   Neurogenesis.new_neurons := Neurogenesis.new_neurons self;
                   Neurogenesis.last_neuron_time := Neurogenesis.last_neuron_time self |}).
  destruct (@create_novel_neuron env self0 net (later 1 w) Hrange Hfree)
    as (position & conns & w' & E & Link).
  change (next_novel_name self0) with name in E, Link.
  unfold bind at 1. unfold bind at 1. unfold bind at 1.
  change {| ticks := S (ticks w); draws := draws w |} with (later 1 w).
  rewrite E. cbv beta iota. unfold ret at 1. cbv beta iota.
  unfold ret at 1. cbv beta iota.
  change (Genesis.truthy name) with true. cbv beta iota.
  unfold ret. exists position, conns. eexists. exists w'.
  split; [ reflexivity | ].
  assert (Fresh : ~ In name (Dict.keys (Network.neurons net))).
  { intros I. apply in_keys_mem in I. unfold name in I. rewrite I in Hfree. discriminate. }
  unfold boosted.
  destruct (Network.learning net) as [ learning | ] eqn:L;
    cbn [Network.learning Network.set_learning Network.set_connections with_new_neuron
         Network.set_state Network.set_neurons Network.neurons Network.state
         Network.connections Network.config Network.excluded_neurons];
    rewrite ?L;
    cbn [Network.learning Network.set_learning Network.set_connections with_new_neuron
         Network.set_state Network.set_neurons Network.neurons Network.state
         Network.connections Network.config Network.excluded_neurons];
    (split; [ apply set_fresh; exact Fresh | ]);
    (split; [ reflexivity | ]);
    (split; [ unfold Network.get_neuron_value, Dict.get_default;
              cbn [Network.learning Network.set_learning Network.set_connections
                   with_new_neuron Network.set_state Network.set_neurons Network.state];
              rewrite get_set_same; reflexivity | ]);
    (split; [ reflexivity | ]);
    (split; [ exact Link | ]);
    (split; [ try exact L; reflexivity | ]);
    split; reflexivity.
Qed.

Lemma novelty_creates_neuron_witness :
  exists net' w',
    Genesis.check_neurogenesis clock_0_then_1000 [("novelty_exposure"%string, VFloat 2)]
      helper_with_novelty_2 two_active_neurons (later 5 world0)
    = (Ok (true,
           {| Neurogenesis.novelty_counter := 0;
              Neurogenesis.stress_counter := (0 * 0.95 + 0)%float;
              Neurogenesis.reward_counter := (0 * 0.95 + 0)%float;
              Neurogenesis.new_neurons := ["novel_0"%string];
              Neurogenesis.last_neuron_time := 1000 |},
           net'),
       w')
    /\ Dict.keys (Network.neurons net') = ["A"; "B"; "novel_0"]%string
    /\ Network.get_neuron_value net' "novel_0" = Ok 50%float
    /\ Dict.mem (Network.connections net') ("novel_0", "A")%string = true
    /\ Dict.mem (Network.connections net') ("B", "novel_0")%string = true.
Proof.
  destruct (@novelty_creates_neuron clock_0_then_1000
              [("novelty_exposure"%string, VFloat 2)] helper_with_novelty_2
              two_active_neurons (later 5 world0) 2%float 0%float 0%float
              eq_refl eq_refl eq_refl eq_refl eq_refl eq_refl eq_refl eq_refl eq_refl)
    as (position & conns & net' & w' & E & Hn & _ & Hv & Hc & (Link & _) & _).
  exists net', w'. split; [ exact E | ].
  split; [ rewrite Hn; reflexivity | ].
  split; [ exact Hv | ].
  rewrite Hc.
  split; [ apply (Link "A"%string); reflexivity | apply (Link "B"%string); reflexivity ].
Defined.

(** ** Backpropagation: the forward pass *)

Lemma read_states (net : Network.t) (names : list string) :
  forall acc : list value,
    returns
      (for_each names
         (fun (acc : list value) (n : string) =>
            v <- BackpropNetwork.state_at net n ;; ret (acc ++ [v]))
         acc)
      (fun out =>
         exists vs, out = acc ++ vs
                    /\ Forall2 (fun n v => Dict.get (Network.state net) n = Some v) names vs).
Proof.
  induction names as [ | n names IH ]; intros acc; cbn [for_each].
  - apply returns_ret. exists []. split; [ symmetry; apply app_nil_r | constructor ].
  - eapply returns_bind with
      (P := fun acc1 => exists v, acc1 = acc ++ [v] /\ Dict.get (Network.state net) n = Some v).
    + unfold BackpropNetwork.state_at.
      destruct (Dict.get (Network.state net) n) as [ v | ] eqn:G.
      * intros w. unfold bind, ret. cbn. exists v. split; reflexivity.
      * intros w. exact I.
    + intros acc1 (v & E1 & G). eapply returns_weaken; [ apply IH | ].
      intros out (vs & E & F). exists (v :: vs). subst acc1.
      split; [ rewrite E, <- app_assoc; reflexivity | constructor; assumption ].
Qed.

(** A forward pass writes to the state only: when it returns, the values
    returned are the states of the neurons of the output layer, one per
    neuron and in order, and the neurons, the connections with their
    weights, the layers and the momentum terms are what they were. *)
Theorem forward_pass_writes_state_only (env : Env) (inputs : list float)
    (self : BackpropNetwork.t) :
  returns (BackpropNetwork.forward_pass env inputs self)
    (fun r =>
       Forall2
         (fun n v =>
            Dict.get (Network.state (BackpropNetwork.network (snd r))) n = Some v)
         (List.last (BackpropNetwork.layers self) []) (fst r)
       /\ same_structure (BackpropNetwork.network self) (BackpropNetwork.network (snd r))
       /\ BackpropNetwork.layers (snd r) = BackpropNetwork.layers self
       /\ BackpropNetwork.prev_weight_changes (snd r)
          = BackpropNetwork.prev_weight_changes self).
Proof.
  unfold BackpropNetwork.forward_pass.
  destruct (BackpropNetwork.layers self) as [ | input_layer rest ] eqn:L;
    [ apply returns_raise | ].
  set (net0 := BackpropNetwork.network self).
  assert (Inputs : forall items net,
            same_structure net0 net ->
            same_structure net0
              (fold_left
                 (fun (net : Network.t) (item : string * float) =>
                    Network.set_state
                      (Dict.set (Network.state net) (fst item) (VFloat (snd item))) net)
                 items net)).
  { induction items as [ | item items IH ]; intros net S; cbn [fold_left];
      [ exact S | ].
    apply IH. destruct S as (Sn & Sc). split; cbn; assumption. }
  eapply returns_bind with (P := same_structure net0).
  - apply returns_for_each.
    + intros net [prev_layer current_layer] S.
      apply returns_for_each; [ | exact S ].
      intros net1 neuron_name S1.
      eapply returns_bind; [ apply returns_any | intros weighted_sum _ ].
      eapply returns_bind; [ apply returns_any | intros activation _ ].
      apply returns_ret. destruct S1 as (Sn & Sc). split; cbn; assumption.
    + apply Inputs. split; reflexivity.
  - intros net S.
    eapply returns_bind; [ apply (read_states net) | ].
    intros outputs (vs & E & F). apply returns_ret. cbn [fst snd app] in *. subst outputs.
    cbn [BackpropNetwork.network BackpropNetwork.set_network BackpropNetwork.layers
         BackpropNetwork.prev_weight_changes].
    split; [ exact F | ]. split; [ exact S | ]. split; [ exact L | reflexivity ].
Qed.
